(** * Ticket lifecycle of the k1LL Discord bot (main.py)

    A shallow embedding of the ticket subsystem of [main.py]: the
    [tickets] table and the four SQL statements run against it, the
    button handler [TicketPanelView.open_ticket], the shared close routine
    [ticket_close_logic] with its three entry points, and the transcript
    rendering loop.  Handlers are written in a small state-and-exception
    monad over a [World] that holds the SQLite tables, the guild's channel
    cache and the ordered trace of externally visible effects. *)

From Stdlib Require Import ZArith List Bool String Ascii Lia Arith.
From Stdlib Require Import DecimalString.
From Stdlib Require Import Floats.
Import ListNotations.
Open Scope string_scope.
Open Scope list_scope.
Open Scope Z_scope.

Set Implicit Arguments.

(* ================================================================== *)
(** ** Data model *)

(** One row of [CREATE TABLE tickets (guild_id INTEGER, user_id INTEGER,
    channel_id INTEGER, open INTEGER, created_at TEXT)].  The [open]
    column only ever receives the literals [1] (the INSERT) and [0] (the
    UPDATE), and is only ever tested with [open=1]; it is a [bool] here. *)
Record Ticket := mkTicket {
  guild_id   : Z;
  user_id    : Z;
  channel_id : Z;
  open       : bool;
  created_at : string
}.

(** The part of a [guild_config] row that the ticket code reads:
    [ticket_category_id INTEGER] may be NULL. *)
Record GuildConfig := mkGuildConfig {
  cfg_guild_id       : Z;
  ticket_category_id : option Z
}.

(** What [isinstance] can tell about a cached guild channel. *)
Inductive ChannelKind := TextChannel | CategoryChannel | OtherChannel.

Record Channel := mkChannel {
  chan_guild : Z;
  chan_id    : Z;
  chan_kind  : ChannelKind;
  chan_name  : string
}.

(** [discord.Message] as far as the transcript loop looks at it:
    [m.created_at] (the fields that [%d/%m %H:%M] prints), [str(m.author)]
    and [m.content].  Text is kept as UTF-8 byte strings, so
    [transcript.encode("utf-8")] is the identity. *)
Record DateTime := mkDateTime {
  dt_day : nat; dt_month : nat; dt_hour : nat; dt_minute : nat
}.

Record Message := mkMessage {
  msg_created_at : DateTime;
  msg_author     : string;
  msg_content    : string
}.

(** The messages the handlers send back; the constructor names are the
    error taxonomy of the design, the comments give the text in main.py. *)
Inductive Reply :=
| InsufficientPermissions        (* "O bot precisa de Manage Channels e Manage Roles." *)
| NotConfigured                  (* "Sistema de tickets nao configurado. Use /setup." *)
| InvalidCategory                (* "Categoria de tickets invalida. Refaca o /setup." *)
| DuplicateTicket (ref : option Z) (* "Voce ja tem um ticket aberto: {ch.mention if ch else '#apagado'}" *)
| TicketCreated (ch : Z)         (* "Ticket criado: {channel.mention}" *)
| NotATicket                     (* "Este canal nao e um ticket aberto." *)
| Forbidden                      (* "Apenas o autor ou staff podem fechar este ticket." *)
| TicketClosed                   (* "Ticket fechado. Voce pode arquivar/deletar este canal." *)
| UseInTicketChannel             (* "Use dentro do canal do ticket." / "Use no canal do ticket." *)
| InlineForbidden.               (* "Apenas o autor ou staff podem fechar." *)

(** Externally visible effects, in the order the code performs them. *)
Inductive Event :=
| Defer                                   (* interaction.response.defer(...) *)
| Followup (r : Reply)                    (* interaction.followup.send(...) *)
| Respond (r : Reply)                     (* interaction.response.send_message(...) *)
| CreateTextChannel (g id : Z) (name : string) (category : Z) (* guild.create_text_channel(...) *)
| InsertCommitted (t : Ticket)            (* INSERT INTO tickets ...; conn.commit() *)
| CloseCommitted (g ch : Z)               (* UPDATE tickets SET open=0 ...; conn.commit() *)
| HistoryRead (ch : Z)                    (* async for m in ch.history(...) *)
| WelcomeSent (ch : Z)                    (* channel.send("... Ticket criado ...", view=v) *)
| TranscriptSent (ch : Z) (data : string). (* ch.send(file=discord.File(buf, ...)) *)

Inductive Exn :=
| HTTPException        (* a Discord API call failed *)
| AppCommandError.     (* raised by staff_check *)

(** The state the handlers run against. [next_id] stands for Discord's
    snowflake allocator: every created channel gets an id never used
    before. *)
Record World := mkWorld {
  tickets      : list Ticket;
  guild_config : list GuildConfig;
  channels     : list Channel;
  next_id      : Z;
  trace        : list Event
}.

(** The invoking side of a [discord.Interaction]. *)
Record Interaction := mkInteraction {
  i_guild            : Z;       (* interaction.guild.id *)
  i_user             : Z;       (* interaction.user.id *)
  i_user_name        : string;  (* interaction.user.name *)
  i_manage_channels  : bool;    (* interaction.user.guild_permissions.manage_channels *)
  i_manage_guild     : bool;    (* interaction.user.guild_permissions.manage_guild *)
  i_channel          : Z;       (* interaction.channel.id *)
  i_channel_kind     : ChannelKind
}.

(** What the platform answers during one handler run. *)
Record Env := mkEnv {
  me_manage_channels : bool;    (* guild.me.guild_permissions.manage_channels *)
  me_manage_roles    : bool;    (* guild.me.guild_permissions.manage_roles *)
  utcnow             : string;  (* datetime.utcnow().isoformat() *)
  create_ok          : bool;    (* guild.create_text_channel returns *)
  history            : option (list Message); (* ch.history(limit=None, oldest_first=True); None: it raised *)
  send_ok            : bool     (* channel.send returns *)
}.

(* ================================================================== *)
(** ** The SQL statements on [tickets] *)

Module Db.

(** [WHERE guild_id=? AND user_id=? AND open=1] *)
Definition open_for_user (g u : Z) (t : Ticket) : bool :=
  (guild_id t =? g) && (user_id t =? u) && open t.

(** [WHERE guild_id=? AND channel_id=? AND open=1] *)
Definition open_for_channel (g ch : Z) (t : Ticket) : bool :=
  (guild_id t =? g) && (channel_id t =? ch) && open t.

(** [WHERE guild_id=? AND channel_id=?] *)
Definition on_channel (g ch : Z) (t : Ticket) : bool :=
  (guild_id t =? g) && (channel_id t =? ch).

(** [SELECT channel_id FROM tickets WHERE guild_id=? AND user_id=? AND
    open=1] followed by [fetchone()]: the first matching row in rowid
    (insertion) order, or [None]. *)
Definition select_open_by_user (g u : Z) (rows : list Ticket) : option Ticket :=
  find (open_for_user g u) rows.

(** [SELECT user_id FROM tickets WHERE guild_id=? AND channel_id=? AND
    open=1] followed by [fetchone()]. *)
Definition select_open_by_channel (g ch : Z) (rows : list Ticket) : option Ticket :=
  find (open_for_channel g ch) rows.

(** [INSERT INTO tickets (guild_id, user_id, channel_id, open, created_at)
    VALUES (?, ?, ?, 1, ?)]: a new row at the end of the table. *)
Definition insert_ticket (g u ch : Z) (now : string) (rows : list Ticket) : list Ticket :=
  rows ++ [mkTicket g u ch true now].

Definition set_closed (t : Ticket) : Ticket :=
  mkTicket (guild_id t) (user_id t) (channel_id t) false (created_at t).

(** [UPDATE tickets SET open=0 WHERE guild_id=? AND channel_id=?] *)
Definition update_closed (g ch : Z) (rows : list Ticket) : list Ticket :=
  map (fun t => if on_channel g ch t then set_closed t else t) rows.

(** [SELECT * FROM guild_config WHERE guild_id=?] and [fetchone()]. *)
Definition select_config (g : Z) (rows : list GuildConfig) : option GuildConfig :=
  find (fun c => cfg_guild_id c =? g) rows.

End Db.

(* ================================================================== *)
(** ** The handler monad: state passing with Python exceptions *)

Inductive Res (A : Type) :=
| Ok (a : A)
| Raised (e : Exn).
Arguments Raised {A} e.

Definition M (A : Type) := World -> Res A * World.

Definition ret {A} (a : A) : M A := fun w => (Ok a, w).

Definition bind {A B} (m : M A) (k : A -> M B) : M B :=
  fun w => match m w with
           | (Ok a, w') => k a w'
           | (Raised e, w') => (Raised e, w')
           end.

Definition raise {A} (e : Exn) : M A := fun w => (Raised e, w).

Notation "x <- c ;; k" := (bind c (fun x => k))
  (at level 61, c at next level, right associativity).
Notation "c ;; k" := (bind c (fun _ => k))
  (at level 61, right associativity).

Definition emit (e : Event) : M unit :=
  fun w => (Ok tt, mkWorld (tickets w) (guild_config w) (channels w)
                           (next_id w) (trace w ++ [e])).

Definition read_tickets : M (list Ticket) := fun w => (Ok (tickets w), w).

Definition write_tickets (rows : list Ticket) : M unit :=
  fun w => (Ok tt, mkWorld rows (guild_config w) (channels w)
                           (next_id w) (trace w)).

(** [await interaction.followup.send(msg, ephemeral=True)]; the handler
    returns what the call returns, modelled as the reply itself. *)
Definition followup (r : Reply) : M Reply := emit (Followup r) ;; ret r.

(** [await interaction.response.send_message(msg, ephemeral=True)] *)
Definition respond (r : Reply) : M Reply := emit (Respond r) ;; ret r.

(* ================================================================== *)
(** ** Collaborators *)

(** [get_cfg(guild_id)]: the guild's row as a dict, [{}] ([None] here)
    when the guild has no row. *)
Definition get_cfg (g : Z) : M (option GuildConfig) :=
  fun w => (Ok (Db.select_config g (guild_config w)), w).

(** [cfg.get("ticket_cat")]: [None] on the empty dict and for a NULL
    column. *)
Definition cfg_get_ticket_cat (cfg : option GuildConfig) : option Z :=
  match cfg with
  | Some c => ticket_category_id c
  | None => None
  end.

(** Python truth value of an [Optional[int]]: [None] and [0] are false. *)
Definition truthy (x : option Z) : bool :=
  match x with
  | Some v => negb (v =? 0)
  | None => false
  end.

(** [guild.get_channel(id)] on the channel cache. *)
Definition lookup_channel (g id : Z) (chs : list Channel) : option Channel :=
  find (fun c => (chan_guild c =? g) && (chan_id c =? id)) chs.

Definition get_channel (g : Z) (id : option Z) : M (option Channel) :=
  fun w => (Ok match id with
               | Some i => lookup_channel g i (channels w)
               | None => None
               end, w).

(** [isinstance(category, discord.CategoryChannel)]: the channel when it
    is one, [None] for [None] and for channels of another class. *)
Definition as_category (c : option Channel) : option Channel :=
  match c with
  | Some ch => match chan_kind ch with CategoryChannel => Some ch | _ => None end
  | None => None
  end.

(** [await guild.create_text_channel(name=..., category=..., ...)]: on
    success the guild has one more text channel, with a fresh id. *)
Definition create_text_channel (g : Z) (name : string) (category : Channel) (env : Env)
    : M Z :=
  fun w =>
    if create_ok env then
      let id := next_id w in
      (Ok id, mkWorld (tickets w) (guild_config w)
                      (channels w ++ [mkChannel g id TextChannel name])
                      (id + 1)
                      (trace w ++ [CreateTextChannel g id name (chan_id category)]))
    else (Raised HTTPException, w).

(** [await channel.send(...)] *)
Definition channel_send (env : Env) (e : Event) : M unit :=
  if send_ok env then emit e else raise HTTPException.

(** The [with db() as conn:] blocks. *)
Definition db_select_open_by_user (g u : Z) : M (option Ticket) :=
  rows <- read_tickets ;; ret (Db.select_open_by_user g u rows).

Definition db_select_open_by_channel (g ch : Z) : M (option Ticket) :=
  rows <- read_tickets ;; ret (Db.select_open_by_channel g ch rows).

Definition db_insert_ticket (g u ch : Z) (now : string) : M unit :=
  rows <- read_tickets ;;
  write_tickets (Db.insert_ticket g u ch now rows) ;;
  emit (InsertCommitted (mkTicket g u ch true now)).

Definition db_update_closed (g ch : Z) : M unit :=
  rows <- read_tickets ;;
  write_tickets (Db.update_closed g ch rows) ;;
  emit (CloseCommitted g ch).

(* ================================================================== *)
(** ** The transcript (the loop in [ticket_close_logic]) *)

Module Transcript.

Definition newline : ascii := "010"%char.
Definition space : ascii := " "%char.

(** [s.replace("\n", " ")]: with a one-character pattern, every
    occurrence of that character is replaced. *)
Fixpoint replace (old new : ascii) (s : string) : string :=
  match s with
  | EmptyString => EmptyString
  | String c rest =>
      String (if Ascii.eqb c old then new else c) (replace old new rest)
  end.

(** A [%d], [%m], [%H] or [%M] field: decimal, zero-padded to two digits. *)
Definition two_digits (n : nat) : string :=
  let d := NilEmpty.string_of_uint (Nat.to_uint n) in
  if (n <? 10)%nat then String "0"%char d else d.

(** [f"{m.created_at:%d/%m %H:%M}"] *)
Definition strftime (t : DateTime) : string :=
  (two_digits (dt_day t) ++ "/" ++ two_digits (dt_month t) ++ " "
   ++ two_digits (dt_hour t) ++ ":" ++ two_digits (dt_minute t))%string.

(** [content = (m.content or "").replace("\n", " ")]; [m.content] is a
    [str], for which [x or ""] is [x]. *)
Definition flatten (content : string) : string := replace newline space content.

(** [f"[{m.created_at:%d/%m %H:%M}] {m.author}: {content}"] *)
Definition render (m : Message) : string :=
  ("[" ++ strftime (msg_created_at m) ++ "] " ++ msg_author m ++ ": "
   ++ flatten (msg_content m))%string.

(** [lines = []] and then [lines.append(...)] for each message of the
    history, oldest first. *)
Definition collect_lines (msgs : list Message) : list string :=
  fold_left (fun lines m => lines ++ [render m]) msgs [].

(** ["\n".join(lines)] *)
Definition join_lines (lines : list string) : string :=
  String.concat (String newline EmptyString) lines.

(** [x or "Sem mensagens."]: the empty string is false. *)
Definition or_placeholder (s : string) : string :=
  match s with
  | EmptyString => "Sem mensagens."
  | _ => s
  end.

(** [transcript = "\n".join(lines) or "Sem mensagens."] *)
Definition build_transcript (msgs : list Message) : string :=
  or_placeholder (join_lines (collect_lines msgs)).

(** The lines of a text, cut at every ["\n"] (Python's
    [text.split("\n")]); used to count the lines of the artifact. *)
Fixpoint split_lines_aux (cur : string) (s : string) : list string :=
  match s with
  | EmptyString => [cur]
  | String c rest =>
      if Ascii.eqb c newline
      then cur :: split_lines_aux EmptyString rest
      else split_lines_aux (cur ++ String c EmptyString)%string rest
  end.

Definition split_lines (s : string) : list string := split_lines_aux EmptyString s.

(** No ["\n"] occurs in the string. *)
Fixpoint no_newline (s : string) : bool :=
  match s with
  | EmptyString => true
  | String c rest => negb (Ascii.eqb c newline) && no_newline rest
  end.

End Transcript.

(* ================================================================== *)
(** ** The handlers *)

(** [TicketPanelView.open_ticket] up to the point where it awaits
    [guild.create_text_channel]: the defer, the bot's permission check,
    the configuration checks and the duplicate check.  [inl r]: the
    handler has returned after sending [r]; [inr category]: it goes on. *)
Definition open_ticket_checks (inter : Interaction) (env : Env) : M (Reply + Channel) :=
  let guild := i_guild inter in
  emit Defer ;;
  if negb (me_manage_channels env && me_manage_roles env) then
    r <- followup InsufficientPermissions ;; ret (inl r)
  else
    cfg <- get_cfg guild ;;
    let cat_id := cfg_get_ticket_cat cfg in
    if negb (truthy cat_id) then
      r <- followup NotConfigured ;; ret (inl r)
    else
      category <- get_channel guild cat_id ;;
      match as_category category with
      | None => r <- followup InvalidCategory ;; ret (inl r)
      | Some cat =>
          row <- db_select_open_by_user guild (i_user inter) ;;
          match row with
          | Some t =>
              ch <- get_channel guild (Some (channel_id t)) ;;
              r <- followup (DuplicateTicket (option_map chan_id ch)) ;;
              ret (inl r)
          | None => ret (inr cat)
          end
      end.

(** The rest of [open_ticket]: create the channel, insert the row, post
    the welcome message with the inline close button, answer. *)
Definition open_ticket_provision (inter : Interaction) (env : Env)
    (category : Channel) : M Reply :=
  let guild := i_guild inter in
  channel <- create_text_channel guild ("ticket-" ++ i_user_name inter)%string
                                 category env ;;
  db_insert_ticket guild (i_user inter) channel (utcnow env) ;;
  channel_send env (WelcomeSent channel) ;;
  followup (TicketCreated channel).

Definition open_ticket (inter : Interaction) (env : Env) : M Reply :=
  c <- open_ticket_checks inter env ;;
  match c with
  | inl r => ret r
  | inr category => open_ticket_provision inter env category
  end.

(** [async for m in ch.history(limit=None, oldest_first=True)] *)
Definition channel_history (ch : Z) (env : Env) : M (list Message) :=
  match history env with
  | Some msgs => emit (HistoryRead ch) ;; ret msgs
  | None => raise HTTPException
  end.

(** [ticket_close_logic(guild, ch, interaction)] *)
Definition ticket_close_logic (guild ch : Z) (inter : Interaction) (env : Env) : M Reply :=
  row <- db_select_open_by_channel guild ch ;;
  match row with
  | None => followup NotATicket
  | Some t =>
      let owner_id := user_id t in
      if negb (i_user inter =? owner_id) && negb (i_manage_channels inter) then
        followup Forbidden
      else
        msgs <- channel_history ch env ;;
        let transcript := Transcript.build_transcript msgs in
        db_update_closed guild ch ;;
        channel_send env (TranscriptSent ch transcript) ;;
        followup TicketClosed
  end.

Definition is_text (k : ChannelKind) : bool :=
  match k with TextChannel => true | _ => false end.

(** [TicketPanelView.close_ticket], the panel's close button. *)
Definition close_ticket (inter : Interaction) (env : Env) : M Reply :=
  if negb (is_text (i_channel_kind inter)) then respond UseInTicketChannel
  else
    emit Defer ;;
    ticket_close_logic (i_guild inter) (i_channel inter) inter env.

(** [staff_check()]: the command body runs only for members with Manage
    Server. *)
Definition staff_check (inter : Interaction) : M unit :=
  if i_manage_guild inter then ret tt else raise AppCommandError.

(** The [/ticketclose] command. *)
Definition ticketclose (inter : Interaction) (env : Env) : M Reply :=
  staff_check inter ;;
  if negb (is_text (i_channel_kind inter)) then respond UseInTicketChannel
  else
    emit Defer ;;
    ticket_close_logic (i_guild inter) (i_channel inter) inter env.

(** [_close], the callback of the close button that [open_ticket] posts
    into the new channel; [opener], [guild] and [channel] are the values
    its closure captured. *)
Definition inline_close (opener guild channel : Z) (inter : Interaction) (env : Env) : M Reply :=
  if negb (i_user inter =? opener) && negb (i_manage_channels inter) then
    respond InlineForbidden
  else
    emit Defer ;;
    ticket_close_logic guild channel inter env.

(** Everything that happens to the guild outside the ticket handlers
    ([/setup] rewriting [guild_config], operators creating or deleting
    channels, Discord handing out ids to others): the configuration
    table and the channel cache may become anything, the allocator may
    only move forward.  The [tickets] table stays: main.py has no
    statement on it besides the CREATE TABLE of [init_db] and those of
    [open_ticket] and [ticket_close_logic]. *)
Definition elsewhere (cfg : list GuildConfig) (chs : list Channel) (skip : Z) : M unit :=
  fun w => (Ok tt, mkWorld (tickets w) cfg chs (next_id w + Z.max 0 skip) (trace w)).

(** The steps of a run: a ticket handler run to completion, or a change
    from outside. *)
Inductive Op :=
| OpOpen (inter : Interaction) (env : Env)
| OpClosePanel (inter : Interaction) (env : Env)
| OpCloseCommand (inter : Interaction) (env : Env)
| OpCloseInline (opener guild channel : Z) (inter : Interaction) (env : Env)
| OpElsewhere (cfg : list GuildConfig) (chs : list Channel) (skip : Z).

(** The world after a handler has run, whether it returned or raised,
    and what it returned. *)
Definition exec {A} (m : M A) (w : World) : World := snd (m w).
Definition result {A} (m : M A) (w : World) : Res A := fst (m w).

Definition exec_op (o : Op) (w : World) : World :=
  match o with
  | OpOpen i e => exec (open_ticket i e) w
  | OpClosePanel i e => exec (close_ticket i e) w
  | OpCloseCommand i e => exec (ticketclose i e) w
  | OpCloseInline u g c i e => exec (inline_close u g c i e) w
  | OpElsewhere cfg chs k => exec (elsewhere cfg chs k) w
  end.

Fixpoint run_ops (ops : list Op) (w : World) : World :=
  match ops with
  | [] => w
  | o :: rest => run_ops rest (exec_op o w)
  end.

(** A world whose [tickets] table is as [init_db] leaves it on a new
    database file: empty. *)
Definition fresh_world (cfg : list GuildConfig) (chs : list Channel) (nid : Z) : World :=
  mkWorld [] cfg chs nid [].

(* ================================================================== *)
(** ** Properties of the table *)

(** At most one open row per (guild, user). *)
Definition one_open_per_user (rows : list Ticket) : Prop :=
  forall g u, (List.length (filter (Db.open_for_user g u) rows) <= 1)%nat.

(** The fields that are fixed when the row is inserted. *)
Definition same_identity (t t' : Ticket) : Prop :=
  guild_id t' = guild_id t /\ user_id t' = user_id t /\
  channel_id t' = channel_id t /\ created_at t' = created_at t.

(** Every channel id in the table was handed out by the allocator, and
    to one row only. *)
Definition channels_fresh (w : World) : Prop :=
  NoDup (map channel_id (tickets w)) /\
  forall t, In t (tickets w) -> channel_id t < next_id w.

(* ================================================================== *)
(** ** Vocabulary for handler runs *)

(** [w] with more events at the end of its trace. *)
Definition logged (w : World) (evs : list Event) : World :=
  mkWorld (tickets w) (guild_config w) (channels w) (next_id w) (trace w ++ evs).

(** [cfg.get("ticket_cat")] as a function of the world. *)
Definition ticket_cat (g : Z) (w : World) : option Z :=
  cfg_get_ticket_cat (Db.select_config g (guild_config w)).

(** [guild.get_channel(cat_id)] as a function of the world. *)
Definition category_of (g : Z) (w : World) : option Channel :=
  match ticket_cat g w with
  | Some i => lookup_channel g i (channels w)
  | None => None
  end.

(** Neither the owner nor a member with Manage Channels. *)
Definition unauthorized (inter : Interaction) (owner_id : Z) : bool :=
  negb (i_user inter =? owner_id) && negb (i_manage_channels inter).

(** The close does not go through: no open row on the channel, or a
    caller who is neither the row's owner nor staff. *)
Definition refused (g ch : Z) (inter : Interaction) (w : World) : Prop :=
  match Db.select_open_by_channel g ch (tickets w) with
  | None => True
  | Some t => unauthorized inter (user_id t) = true
  end.

(** What a step can do to the [tickets] table and to the allocator:
    nothing, the UPDATE, or the INSERT of a row for a user without an
    open ticket, on a channel id taken from the allocator. *)
Inductive table_step (w w' : World) : Prop :=
| step_same :
    tickets w' = tickets w -> next_id w <= next_id w' -> table_step w w'
| step_closed g ch :
    tickets w' = Db.update_closed g ch (tickets w) ->
    next_id w' = next_id w -> table_step w w'
| step_inserted g u now :
    Db.select_open_by_user g u (tickets w) = None ->
    tickets w' = Db.insert_ticket g u (next_id w) now (tickets w) ->
    next_id w' = next_id w + 1 -> table_step w w'.

(** Two [open_ticket] runs that both reach their [await
    guild.create_text_channel] before either goes on: the event loop
    switches tasks at that await. *)
Definition racing_opens (i1 : Interaction) (e1 : Env) (i2 : Interaction) (e2 : Env)
    : M (Reply * Reply) :=
  c1 <- open_ticket_checks i1 e1 ;;
  c2 <- open_ticket_checks i2 e2 ;;
  r1 <- match c1 with
        | inl r => ret r
        | inr category => open_ticket_provision i1 e1 category
        end ;;
  r2 <- match c2 with
        | inl r => ret r
        | inr category => open_ticket_provision i2 e2 category
        end ;;
  ret (r1, r2).

(* ================================================================== *)
(** ** Reading the trace *)

Fixpoint index_of (p : Event -> bool) (tr : list Event) : option nat :=
  match tr with
  | [] => None
  | e :: rest => if p e then Some O else option_map S (index_of p rest)
  end.

Definition is_history_read (ch : Z) (e : Event) : bool :=
  match e with HistoryRead c => c =? ch | _ => false end.

Definition is_close_committed (g ch : Z) (e : Event) : bool :=
  match e with CloseCommitted g' c => (g' =? g) && (c =? ch) | _ => false end.

Definition is_transcript_sent (ch : Z) (e : Event) : bool :=
  match e with TranscriptSent c _ => c =? ch | _ => false end.

Definition is_channel_created (e : Event) : bool :=
  match e with CreateTextChannel _ _ _ _ => true | _ => false end.

Definition is_insert_committed (e : Event) : bool :=
  match e with InsertCommitted _ => true | _ => false end.

(** Both kinds of event occur, the first [p] strictly before the first [q]. *)
Definition precedes (p q : Event -> bool) (tr : list Event) : bool :=
  match index_of p tr, index_of q tr with
  | Some i, Some j => (i <? j)%nat
  | _, _ => false
  end.

(** The events a run added to the trace. *)
Definition new_events (w w' : World) : list Event :=
  skipn (List.length (trace w)) (trace w').

(* ================================================================== *)
(** ** Sample data *)

Module Sample.

Definition guild : Z := 1.
Definition tickets_category : Z := 50.
Definition panel_channel : Z := 10.

(** A guild after [/setup]: the TICKETS category and a text channel
    holding the panel. *)
Definition configured : World :=
  mkWorld []
          [mkGuildConfig guild (Some tickets_category)]
          [mkChannel guild tickets_category CategoryChannel "TICKETS";
           mkChannel guild panel_channel TextChannel "suporte"]
          100 [].

(** A guild where [/setup] was never run. *)
Definition unconfigured : World :=
  mkWorld [] [] [mkChannel guild panel_channel TextChannel "suporte"] 100 [].

Definition member (id : Z) (name : string) (in_channel : Z) : Interaction :=
  mkInteraction guild id name false false in_channel TextChannel.

Definition staff (id : Z) (name : string) (in_channel : Z) : Interaction :=
  mkInteraction guild id name true true in_channel TextChannel.

Definition alice := member 7 "alice".
Definition bob := member 8 "bob".
Definition carol := staff 9 "carol".

Definition msg1 : Message :=
  mkMessage (mkDateTime 3 11 9 5) "alice"
            ("oi" ++ String Transcript.newline "preciso de ajuda")%string.
Definition msg2 : Message :=
  mkMessage (mkDateTime 3 11 9 7) "carol" "claro".

Definition all_fine : Env :=
  mkEnv true true "2024-11-03T09:00:00" true (Some [msg1; msg2]) true.

Definition no_manage_roles : Env :=
  mkEnv true false "2024-11-03T09:00:00" true (Some [msg1; msg2]) true.

Definition history_fails : Env :=
  mkEnv true true "2024-11-03T09:00:00" true None true.

Definition send_fails : Env :=
  mkEnv true true "2024-11-03T09:00:00" true (Some [msg1; msg2]) false.

(** Alice has pressed "Abrir Ticket" once: her ticket is channel 100. *)
Definition alice_has_ticket : World := exec (open_ticket (alice panel_channel) all_fine) configured.

(** The same, with the earlier trace dropped. *)
Definition alice_has_ticket_quiet : World :=
  mkWorld (tickets alice_has_ticket) (guild_config alice_has_ticket)
          (channels alice_has_ticket) (next_id alice_has_ticket) [].

End Sample.

(* ================================================================== *)
(** ** Answers in the trace *)

(** The event is an answer to the interaction carrying [r]. *)
Definition is_reply_of (r : Reply) (e : Event) : Prop :=
  e = Followup r \/ e = Respond r.

Definition is_reply (e : Event) : bool :=
  match e with
  | Followup _ | Respond _ => true
  | _ => false
  end.

(** How many answers a list of events holds. *)
Definition count_replies (evs : list Event) : nat :=
  List.length (filter is_reply evs).

(** Who gets a close through: the owner recorded in the row, or a
    member with Manage Channels. *)
Definition may_close (inter : Interaction) (t : Ticket) : bool :=
  (i_user inter =? user_id t) || i_manage_channels inter.

(** A run that returned [r] has sent exactly one answer, [r], as its
    last event; a run that raised has sent none. *)
Definition answered_once (res : Res Reply) (evs : list Event) : Prop :=
  match res with
  | Ok r => exists pre e, evs = pre ++ [e] /\ is_reply_of r e /\ count_replies pre = O
  | Raised _ => count_replies evs = O
  end.

(* ================================================================== *)
(** ** Guild configuration: [set_cfg] and [get_cfg] on all columns *)

Module Config.

(** One row of [guild_config (guild_id INTEGER PRIMARY KEY,
    log_channel_id, welcome_channel_id, autorole_id, ticket_category_id
    INTEGER, anti_links INTEGER DEFAULT 0)]; [None] is NULL. *)
Record Row := mkRow {
  guild              : Z;
  log_channel_id     : option Z;
  welcome_channel_id : option Z;
  autorole_id        : option Z;
  ticket_category    : option Z;
  anti_links         : option Z
}.

(** The keyword arguments of [set_cfg]: for each of the five fields,
    [None] when the key is not in [kwargs], [Some v] when it is (with
    [v = None] for a Python [None]). *)
Record Kwargs := mkKwargs {
  k_log             : option (option Z);
  k_welcome         : option (option Z);
  k_autorole        : option (option Z);
  k_ticket_category : option (option Z);
  k_anti_links      : option (option Z)
}.

(** The dict [get_cfg] returns for a guild that has a row. *)
Record Cfg := mkCfg {
  log        : option Z;
  welcome    : option Z;
  autorole   : option Z;
  ticket_cat : option Z;
  anti       : Z
}.

(** [SELECT ... FROM guild_config WHERE guild_id=?] and [fetchone()]. *)
Definition select (g : Z) (rows : list Row) : option Row :=
  find (fun r => guild r =? g) rows.

(** [x or 0] on a nullable integer. *)
Definition or_zero (x : option Z) : Z :=
  match x with
  | Some v => v
  | None => 0
  end.

(** [get_cfg(guild_id)]: [None] stands for the empty dict. *)
Definition get_cfg (g : Z) (rows : list Row) : option Cfg :=
  match select g rows with
  | None => None
  | Some r => Some (mkCfg (log_channel_id r) (welcome_channel_id r) (autorole_id r)
                          (ticket_category r) (or_zero (anti_links r)))
  end.

(** The value a column gets: the keyword's when the key was passed,
    [otherwise] when not. *)
Definition given {A} (k : option A) (otherwise : A) : A :=
  match k with
  | Some v => v
  | None => otherwise
  end.

(** [sets] is not empty: some key was passed. *)
Definition any_given (kw : Kwargs) : bool :=
  match k_log kw, k_welcome kw, k_autorole kw, k_ticket_category kw, k_anti_links kw with
  | None, None, None, None, None => false
  | _, _, _, _, _ => true
  end.

(** [UPDATE guild_config SET k=?, ... WHERE guild_id=?] on one row. *)
Definition updated (kw : Kwargs) (r : Row) : Row :=
  mkRow (guild r)
        (given (k_log kw) (log_channel_id r))
        (given (k_welcome kw) (welcome_channel_id r))
        (given (k_autorole kw) (autorole_id r))
        (given (k_ticket_category kw) (ticket_category r))
        (given (k_anti_links kw) (anti_links r)).

(** [INSERT INTO guild_config (guild_id, k, ...) VALUES (?, ...)]: the
    columns left out are NULL, [anti_links] has its DEFAULT 0. *)
Definition inserted (g : Z) (kw : Kwargs) : Row :=
  mkRow g
        (given (k_log kw) None)
        (given (k_welcome kw) None)
        (given (k_autorole kw) None)
        (given (k_ticket_category kw) None)
        (given (k_anti_links kw) (Some 0)).

(** [set_cfg(guild_id, **kwargs)] *)
Definition set_cfg (g : Z) (kw : Kwargs) (rows : list Row) : list Row :=
  match select g rows with
  | Some _ =>
      if any_given kw
      then map (fun r => if guild r =? g then updated kw r else r) rows
      else rows
  | None => rows ++ [inserted g kw]
  end.

(** What [/setup] passes: all five keys, the ids of the channels and of
    the category it was given or has created, [1 if anti_links else 0]. *)
Definition setup_kwargs (log_ch welcome_ch : Z) (role : option Z) (category : Z)
    (anti_links_arg : option Z) : Kwargs :=
  mkKwargs (Some (Some log_ch)) (Some (Some welcome_ch)) (Some role)
           (Some (Some category))
           (Some (Some (if negb (or_zero anti_links_arg =? 0) then 1 else 0))).

(** The two columns of a row that the ticket handlers look at. *)
Definition ticket_view (r : Row) : GuildConfig :=
  mkGuildConfig (guild r) (ticket_category r).

End Config.

(* ================================================================== *)
(** ** Economy: [/balance], [/daily], [/pay], [/buy], [/inventory] *)

Module Economy.

Definition DAILY_AMOUNT : Z := 250.

(** [SHOP_ITEMS = {"vip": 1500, "nickcolor": 800, "crate": 400}] *)
Definition SHOP_ITEMS : list (string * Z) :=
  [("vip", 1500); ("nickcolor", 800); ("crate", 400)].

(** A [datetime] as stored in [last_daily]: its [.date()], as a day
    number, and the time within the day.  The column holds
    [datetime.utcnow().isoformat()] and is read back with
    [datetime.fromisoformat]; the text in between is not modelled. *)
Record Stamp := mkStamp {
  date       : Z;
  time_of_day : Z
}.

(** A Python dict from item names to counts, keys in insertion order. *)
Definition Inventory := list (string * Z).

(** One row of [economy (guild_id, user_id, balance INTEGER, last_daily
    TEXT, inv_json TEXT, PRIMARY KEY (guild_id, user_id))].  [inv_json]
    is only ever written as [json.dumps(inv)] and read with
    [json.loads]; it is kept as the dict itself, [None] for NULL. *)
Record Row := mkRow {
  e_guild      : Z;
  e_user       : Z;
  e_balance    : Z;
  e_last_daily : option Stamp;
  e_inv_json   : option Inventory
}.

Definition has_key (g u : Z) (r : Row) : bool :=
  (e_guild r =? g) && (e_user r =? u).

(** [SELECT ... FROM economy WHERE guild_id=? AND user_id=?] and
    [fetchone()]. *)
Definition select (g u : Z) (rows : list Row) : option Row :=
  find (has_key g u) rows.

(** [REPLACE INTO economy ... VALUES (...)]: the row with the same
    primary key, if any, is deleted and the new row inserted. *)
Definition replace_into (r : Row) (rows : list Row) : list Row :=
  filter (fun x => negb (has_key (e_guild r) (e_user r) x)) rows ++ [r].

(** [d.get(k, 0)] *)
Fixpoint dict_get (k : string) (d : Inventory) : Z :=
  match d with
  | [] => 0
  | (k', v) :: rest => if String.eqb k' k then v else dict_get k rest
  end.

(** [d[k] = v]: an existing key keeps its place, a new one goes last. *)
Fixpoint dict_set (k : string) (v : Z) (d : Inventory) : Inventory :=
  match d with
  | [] => [(k, v)]
  | (k', v') :: rest =>
      if String.eqb k' k then (k', v) :: rest else (k', v') :: dict_set k v rest
  end.

(** [item in SHOP_ITEMS] and [SHOP_ITEMS[item]] *)
Fixpoint price (item : string) (shop : list (string * Z)) : option Z :=
  match shop with
  | [] => None
  | (k, v) :: rest => if String.eqb k item then Some v else price item rest
  end.

(** [_get_inv(row)]: the empty dict without a row and for a NULL
    column. *)
Definition _get_inv (row : option Row) : Inventory :=
  match row with
  | Some r => match e_inv_json r with Some d => d | None => [] end
  | None => []
  end.

(** [_save_econ(guild_id, user_id, balance, inv, last_daily)], for a
    balance that fits the 64-bit INTEGER of SQLite; what happens beyond
    it is in [EconomyChecked._save_econ]. *)
Definition _save_econ (g u bal : Z) (inv : Inventory) (last_daily : option Stamp)
    (rows : list Row) : list Row :=
  replace_into (mkRow g u bal last_daily (Some inv)) rows.

(** [row["balance"] if row else 0] *)
Definition balance_or_zero (row : option Row) : Z :=
  match row with Some r => e_balance r | None => 0 end.

(** [row["last_daily"] if row else None] *)
Definition last_daily_or_none (row : option Row) : option Stamp :=
  match row with Some r => e_last_daily r | None => None end.

(** What the commands answer. *)
Inductive Answer :=
| BalanceIs (bal : Z)               (* "... possui {bal} moedas." *)
| DailyAlready                      (* "Voce ja coletou o daily hoje. Volte amanha!" *)
| DailyCollected                    (* "Voce coletou {DAILY_AMOUNT} moedas!" *)
| PaySelf                           (* "Nao pode pagar a si mesmo." *)
| PayInsufficient                   (* "Saldo insuficiente." *)
| Paid (amount : Z)                 (* "Pagou {amount} para ..." *)
| NoSuchItem                        (* "Item nao existe." *)
| BuyInsufficient                   (* "Saldo insuficiente." *)
| Bought (item : string) (cost : Z) (* "Voce comprou {item} por {cost} moedas." *)
| InventoryEmpty                    (* "Inventario vazio." *)
| InventoryLines (items : Inventory). (* one line "{k} x{v}" per item *)

(** [/balance]: [member] is the member asked about ([member or
    interaction.user]). *)
Definition balance (g member : Z) (rows : list Row) : Answer :=
  BalanceIs (balance_or_zero (select g member rows)).

(** [/daily]; [today] is [datetime.utcnow().date()], [now] the second
    [datetime.utcnow()], the one that is stored. *)
Definition daily (g u : Z) (today : Z) (now : Stamp) (rows : list Row)
    : Answer * list Row :=
  let row := select g u rows in
  let bal := balance_or_zero row in
  let last := option_map date (last_daily_or_none row) in
  let inv := _get_inv row in
  match last with
  | Some d =>
      if d =? today then (DailyAlready, rows)
      else (DailyCollected, _save_econ g u (bal + DAILY_AMOUNT) inv (Some now) rows)
  | None => (DailyCollected, _save_econ g u (bal + DAILY_AMOUNT) inv (Some now) rows)
  end.

(** [/pay member amount] by user [u]. *)
Definition pay (g u member amount : Z) (rows : list Row) : Answer * list Row :=
  if member =? u then (PaySelf, rows)
  else
    let me := select g u rows in
    let mybal := balance_or_zero me in
    if mybal <? amount then (PayInsufficient, rows)
    else
      let other := select g member rows in
      let rows1 := _save_econ g u (mybal - amount) (_get_inv me)
                              (last_daily_or_none me) rows in
      let rows2 := _save_econ g member (balance_or_zero other + amount) (_get_inv other)
                              (last_daily_or_none other) rows1 in
      (Paid amount, rows2).

(** [/buy item]; [lower] is Python's [str.lower]. *)
Definition buy (lower : string -> string) (g u : Z) (item : string) (rows : list Row)
    : Answer * list Row :=
  let item := lower item in
  match price item SHOP_ITEMS with
  | None => (NoSuchItem, rows)
  | Some cost =>
      let row := select g u rows in
      let bal := balance_or_zero row in
      if bal <? cost then (BuyInsufficient, rows)
      else
        let inv := _get_inv row in
        let inv := dict_set item (dict_get item inv + 1) inv in
        (Bought item cost,
         _save_econ g u (bal - cost) inv (last_daily_or_none row) rows)
  end.

(** [/inventory] *)
Definition inventory (g member : Z) (rows : list Row) : Answer :=
  match _get_inv (select g member rows) with
  | [] => InventoryEmpty
  | inv => InventoryLines inv
  end.

(** The commands that write, with their arguments. *)
Inductive Command :=
| Daily (g u : Z) (today : Z) (now : Stamp)
| Pay (g u member amount : Z)
| Buy (lower : string -> string) (g u : Z) (item : string).

Definition run (c : Command) (rows : list Row) : Answer * list Row :=
  match c with
  | Daily g u today now => daily g u today now rows
  | Pay g u member amount => pay g u member amount rows
  | Buy lower g u item => buy lower g u item rows
  end.

Fixpoint run_all (cs : list Command) (rows : list Row) : list Row :=
  match cs with
  | [] => rows
  | c :: rest => run_all rest (snd (run c rows))
  end.

(** [amount: app_commands.Range[int, 1, 10_000_000]] *)
Definition in_range (c : Command) : Prop :=
  match c with
  | Pay _ _ _ amount => 1 <= amount <= 10000000
  | _ => True
  end.

(** The sum of all balances. *)
Definition total (rows : list Row) : Z :=
  fold_right (fun r acc => e_balance r + acc) 0 rows.

(** The primary key holds: no two rows for one (guild, user). *)
Definition keys_unique (rows : list Row) : Prop :=
  NoDup (map (fun r => (e_guild r, e_user r)) rows).

(** What a command adds to the sum of all balances. *)
Definition minted (a : Answer) : Z :=
  match a with
  | DailyCollected => DAILY_AMOUNT
  | Bought _ cost => - cost
  | _ => 0
  end.

End Economy.

(* ================================================================== *)
(** ** Economy, with the 64-bit INTEGER of SQLite *)

Module EconomyChecked.

(** A Python int that [sqlite3] can bind to an INTEGER: 64 bits, signed.
    For any other int, [execute] raises OverflowError and writes
    nothing. *)
Definition int64 (z : Z) : bool := (- 2 ^ 63 <=? z) && (z <=? 2 ^ 63 - 1).

(** How a command ends: with its answer, or with the OverflowError of
    a [_save_econ], no answer sent; in both cases the table as the
    command leaves it. *)
Inductive Outcome :=
| Answered (a : Economy.Answer) (rows : list Economy.Row)
| Overflowed (rows : list Economy.Row).

(** [_save_econ], with the binding of [balance]: [None] when it raises.
    (The ids bound with it are Discord ids, which fit.) *)
Definition _save_econ (g u bal : Z) (inv : Economy.Inventory)
    (last_daily : option Economy.Stamp) (rows : list Economy.Row)
    : option (list Economy.Row) :=
  if int64 bal then Some (Economy._save_econ g u bal inv last_daily rows) else None.

(** [/daily] *)
Definition daily (g u : Z) (today : Z) (now : Economy.Stamp) (rows : list Economy.Row)
    : Outcome :=
  let row := Economy.select g u rows in
  let bal := Economy.balance_or_zero row in
  let last := option_map Economy.date (Economy.last_daily_or_none row) in
  let inv := Economy._get_inv row in
  let collect :=
    match _save_econ g u (bal + Economy.DAILY_AMOUNT) inv (Some now) rows with
    | Some rows' => Answered Economy.DailyCollected rows'
    | None => Overflowed rows
    end in
  match last with
  | Some d => if d =? today then Answered Economy.DailyAlready rows else collect
  | None => collect
  end.

(** [/pay]: the two [_save_econ] calls commit one after the other, each
    on a connection of its own. *)
Definition pay (g u member amount : Z) (rows : list Economy.Row) : Outcome :=
  if member =? u then Answered Economy.PaySelf rows
  else
    let me := Economy.select g u rows in
    let mybal := Economy.balance_or_zero me in
    if mybal <? amount then Answered Economy.PayInsufficient rows
    else
      let other := Economy.select g member rows in
      match _save_econ g u (mybal - amount) (Economy._get_inv me)
                       (Economy.last_daily_or_none me) rows with
      | None => Overflowed rows
      | Some rows1 =>
          match _save_econ g member (Economy.balance_or_zero other + amount)
                           (Economy._get_inv other)
                           (Economy.last_daily_or_none other) rows1 with
          | None => Overflowed rows1
          | Some rows2 => Answered (Economy.Paid amount) rows2
          end
      end.

(** [/buy] *)
Definition buy (lower : string -> string) (g u : Z) (item : string)
    (rows : list Economy.Row) : Outcome :=
  let item := lower item in
  match Economy.price item Economy.SHOP_ITEMS with
  | None => Answered Economy.NoSuchItem rows
  | Some cost =>
      let row := Economy.select g u rows in
      let bal := Economy.balance_or_zero row in
      if bal <? cost then Answered Economy.BuyInsufficient rows
      else
        let inv := Economy._get_inv row in
        let inv := Economy.dict_set item (Economy.dict_get item inv + 1) inv in
        match _save_econ g u (bal - cost) inv (Economy.last_daily_or_none row) rows with
        | Some rows' => Answered (Economy.Bought item cost) rows'
        | None => Overflowed rows
        end
  end.

Definition run (c : Economy.Command) (rows : list Economy.Row) : Outcome :=
  match c with
  | Economy.Daily g u today now => daily g u today now rows
  | Economy.Pay g u member amount => pay g u member amount rows
  | Economy.Buy lower g u item => buy lower g u item rows
  end.

(** The balances a command binds when no check of its own stops it. *)
Definition written (c : Economy.Command) (rows : list Economy.Row) : list Z :=
  let bal g x := Economy.balance_or_zero (Economy.select g x rows) in
  match c with
  | Economy.Daily g u _ _ => [bal g u + Economy.DAILY_AMOUNT]
  | Economy.Pay g u member amount => [bal g u - amount; bal g member + amount]
  | Economy.Buy lower g u item =>
      match Economy.price (lower item) Economy.SHOP_ITEMS with
      | Some cost => [bal g u - cost]
      | None => []
      end
  end.

End EconomyChecked.

(* ================================================================== *)
(** ** Levels: the XP part of [on_message], and [/rank] *)

Module Xp.

Definition MSG_XP_COOLDOWN : float := 3.0%float.

(** One row of [xp (guild_id, user_id, xp INTEGER, level INTEGER,
    last_msg_ts REAL, PRIMARY KEY (guild_id, user_id))]. *)
Record Row := mkRow {
  x_guild       : Z;
  x_user        : Z;
  x_xp          : Z;
  x_level       : Z;
  x_last_msg_ts : option float
}.

Definition has_key (g u : Z) (r : Row) : bool :=
  (x_guild r =? g) && (x_user r =? u).

(** [SELECT xp, level, last_msg_ts FROM xp WHERE guild_id=? AND
    user_id=?] and [fetchone()]. *)
Definition select (g u : Z) (rows : list Row) : option Row :=
  find (has_key g u) rows.

(** [REPLACE INTO xp ... VALUES (...)] under the primary key. *)
Definition replace_into (r : Row) (rows : list Row) : list Row :=
  filter (fun x => negb (has_key (x_guild r) (x_user r) x)) rows ++ [r].

(** [last = row["last_msg_ts"] if row else 0] and then [(last or 0)]:
    NULL, a missing row and a zero all give 0. *)
Definition last_or_zero (row : option Row) : float :=
  match row with
  | Some r =>
      match x_last_msg_ts r with
      | Some t => if PrimFloat.eqb t 0%float then 0%float else t
      | None => 0%float
      end
  | None => 0%float
  end.

(** What the block did: nothing (cooldown), or 5 XP, with the new level
    when the member went up (the level-up message is then sent). *)
Inductive Outcome :=
| Cooldown
| Gained (level_up : option Z).

(** The block of [on_message] from [now_ts = ...] to the level-up
    message, for a message of member [u] in guild [g]; [now_ts] is
    [datetime.utcnow().timestamp()]. *)
Definition on_message_xp (g u : Z) (now_ts : float) (rows : list Row)
    : Outcome * list Row :=
  let row := select g u rows in
  if PrimFloat.leb MSG_XP_COOLDOWN (PrimFloat.sub now_ts (last_or_zero row)) then
    let gained := 5 in
    let xp := (match row with Some r => x_xp r | None => 0 end) + gained in
    let level := match row with Some r => x_level r | None => 0 end in
    let next_req := (level + 1) * 100 in
    if xp >=? next_req then
      (Gained (Some (level + 1)),
       replace_into (mkRow g u (xp - next_req) (level + 1) (Some now_ts)) rows)
    else
      (Gained None, replace_into (mkRow g u xp level (Some now_ts)) rows)
  else (Cooldown, rows).

(** [/rank]: the level and the XP shown, 0 and 0 without a row. *)
Definition rank (g member : Z) (rows : list Row) : Z * Z :=
  match select g member rows with
  | Some r => (x_level r, x_xp r)
  | None => (0, 0)
  end.

(** Messages, as (guild, author, time). *)
Fixpoint run_all (msgs : list (Z * Z * float)) (rows : list Row) : list Row :=
  match msgs with
  | [] => rows
  | (g, u, now_ts) :: rest => run_all rest (snd (on_message_xp g u now_ts rows))
  end.

(** All the XP a (level, xp) pair stands for: 100 for level 1, 200 more
    for level 2, and so on, plus what was gained since. *)
Definition lifetime (r : Z * Z) : Z :=
  let (level, xp) := r in 50 * level * (level + 1) + xp.

(** A row as the block leaves it. *)
Definition in_bounds (r : Row) : Prop :=
  0 <= x_level r /\ 0 <= x_xp r < (x_level r + 1) * 100 /\ (5 | x_xp r).

End Xp.

(* ================================================================== *)
(** ** The role menu: [RoleMenu.callback] *)

Module RoleMenu.

(** [role in member.roles], on role ids. *)
Definition holds (r : Z) (roles : list Z) : bool := existsb (Z.eqb r) roles.

(** The effect of [member.remove_roles(role)] and of
    [member.add_roles(role)] on the roles of the member. *)
Definition remove_roles (r : Z) (roles : list Z) : list Z :=
  filter (fun x => negb (x =? r)) roles.

Definition add_roles (r : Z) (roles : list Z) : list Z :=
  if holds r roles then roles else roles ++ [r].

(** [options = [... for r in roles[:25]]] in [RoleMenu.__init__]. *)
Definition menu_options (roles : list Z) : list Z := firstn 25 roles.

(** [RoleMenu.callback].  [guild_roles] are the ids for which
    [guild.get_role] finds a role, [can_manage r] tells whether Discord
    lets the bot change role [r] (otherwise the call raises
    [discord.Forbidden], which the code passes over), [options] are the
    ids of the menu, [values] the ids selected, [member_roles] is
    [interaction.user.roles]; the result is the member's roles
    afterwards. *)
Definition callback (guild_roles : list Z) (can_manage : Z -> bool)
    (options values member_roles : list Z) : list Z :=
  let chosen_ids := nodup Z.eq_dec values in
  let menu_role_ids := options in
  let removed :=
    fold_left
      (fun roles rid =>
         if holds rid guild_roles && holds rid member_roles
         then (if can_manage rid then remove_roles rid roles else roles)
         else roles)
      menu_role_ids member_roles in
  fold_left
    (fun roles rid =>
       if holds rid guild_roles
       then (if can_manage rid then add_roles rid roles else roles)
       else roles)
    chosen_ids removed.

End RoleMenu.

(* ================================================================== *)
(** ** [/poll] *)

Module Poll.

(** [emojis], the five keycap digits. *)
Definition emojis : list string := ["1️⃣"; "2️⃣"; "3️⃣"; "4️⃣"; "5️⃣"].

(** [[o for o in [op3, op4, op5] if o]]: [None] and the empty string
    are dropped. *)
Definition given (ops : list (option string)) : list string :=
  flat_map (fun o => match o with
                     | Some s => if String.eqb s "" then [] else [s]
                     | None => []
                     end) ops.

(** [options = [op1, op2] + [o for o in [op3, op4, op5] if o]] *)
Definition options (op1 op2 : string) (op3 op4 op5 : option string) : list string :=
  [op1; op2] ++ given [op3; op4; op5].

(** [f"{emojis[i]} {opt}" for i, opt in enumerate(options)]: [None]
    stands for the IndexError of [emojis[i]]. *)
Fixpoint numbered (i : nat) (opts : list string) : option (list string) :=
  match opts with
  | [] => Some []
  | opt :: rest =>
      match nth_error emojis i, numbered (S i) rest with
      | Some e, Some lines => Some ((e ++ " " ++ opt)%string :: lines)
      | _, _ => None
      end
  end.

(** [for i in range(len(options)): msg.add_reaction(emojis[i])]: the
    reactions asked for, [None] for an IndexError. *)
Fixpoint reactions (i : nat) (n : nat) : option (list string) :=
  match n with
  | O => Some []
  | S n' =>
      match nth_error emojis i, reactions (S i) n' with
      | Some e, Some rest => Some (e :: rest)
      | _, _ => None
      end
  end.

(** [/poll]: the lines of the description under the question, and the
    reactions put on the message. *)
Definition poll (op1 op2 : string) (op3 op4 op5 : option string)
    : option (list string * list string) :=
  let opts := options op1 op2 op3 op4 op5 in
  match numbered 0 opts, reactions 0 (List.length opts) with
  | Some lines, Some reacts => Some (lines, reacts)
  | _, _ => None
  end.

End Poll.

(* ================================================================== *)
(** ** Warnings: [/warn], [/warnings], [/clearwarns] *)

Module Warns.

(** One row of [warns (guild_id, user_id, moderator_id INTEGER, reason
    TEXT, timestamp TEXT)]. *)
Record Row := mkRow {
  w_guild     : Z;
  w_user      : Z;
  w_moderator : Z;
  w_reason    : string;
  w_timestamp : string
}.

Definition of_member (g u : Z) (r : Row) : bool :=
  (w_guild r =? g) && (w_user r =? u).

(** [/warn]: [INSERT INTO warns ... VALUES (?, ?, ?, ?, ?)] *)
Definition warn (g member moderator : Z) (reason now : string) (rows : list Row)
    : list Row :=
  rows ++ [mkRow g member moderator reason now].

(** [/clearwarns]: [DELETE FROM warns WHERE guild_id=? AND user_id=?] *)
Definition clearwarns (g member : Z) (rows : list Row) : list Row :=
  filter (fun r => negb (of_member g member r)) rows.

(** The rows [/warnings] selects ([WHERE guild_id=? AND user_id=?]),
    before its ORDER BY puts them in the order shown. *)
Definition selected (g member : Z) (rows : list Row) : list Row :=
  filter (of_member g member) rows.

(** The number of lines [/warnings] prints, one per selected row;
    0 is the answer "Sem advertencias." *)
Definition warnings_count (g member : Z) (rows : list Row) : nat :=
  List.length (selected g member rows).

End Warns.

(* ================================================================== *)
(** ** Lemmas on the SQL statements *)

Section DbLemmas.

Lemma find_none_filter {A} (f : A -> bool) (l : list A) :
  find f l = None -> filter f l = [].
Proof.
  induction l as [|a l IH]; simpl; [reflexivity|].
  destruct (f a); [discriminate | exact IH].
Qed.

Lemma find_app_none {A} (f : A -> bool) (l l' : list A) :
  find f l = None -> find f (l ++ l') = find f l'.
Proof.
  induction l as [|a l IH]; simpl; [reflexivity|].
  destruct (f a); [discriminate | exact IH].
Qed.

Lemma find_app_some {A} (f : A -> bool) (l l' : list A) (x : A) :
  find f l = Some x -> find f (l ++ l') = Some x.
Proof.
  induction l as [|a l IH]; simpl; [discriminate|].
  destruct (f a); [trivial | exact IH].
Qed.

Lemma open_for_user_closed g u t : Db.open_for_user g u (Db.set_closed t) = false.
Proof. unfold Db.open_for_user; simpl. apply andb_false_r. Qed.

Lemma open_for_channel_closed g ch t : Db.open_for_channel g ch (Db.set_closed t) = false.
Proof. unfold Db.open_for_channel; simpl. apply andb_false_r. Qed.

Lemma filter_update_closed_le (f : Ticket -> bool) g ch rows :
  (forall t, f (Db.set_closed t) = false) ->
  (List.length (filter f (Db.update_closed g ch rows)) <= List.length (filter f rows))%nat.
Proof.
  intros Hf. induction rows as [|t rows IH]; simpl; [lia|].
  destruct (Db.on_channel g ch t).
  - rewrite Hf. destruct (f t); simpl; lia.
  - destruct (f t); simpl; lia.
Qed.

Lemma update_closed_keeps_invariant g ch rows :
  one_open_per_user rows -> one_open_per_user (Db.update_closed g ch rows).
Proof.
  intros H g' u'.
  pose proof (@filter_update_closed_le (Db.open_for_user g' u') g ch rows
                (open_for_user_closed g' u')).
  specialize (H g' u'). lia.
Qed.

Lemma open_for_user_new g u ch now g' u' :
  Db.open_for_user g' u' (mkTicket g u ch true now) = true -> g' = g /\ u' = u.
Proof.
  unfold Db.open_for_user; simpl. rewrite andb_true_r.
  intros H. apply andb_prop in H as [H1 H2].
  apply Z.eqb_eq in H1, H2. auto.
Qed.

Lemma insert_keeps_invariant g u ch now rows :
  Db.select_open_by_user g u rows = None ->
  one_open_per_user rows ->
  one_open_per_user (Db.insert_ticket g u ch now rows).
Proof.
  intros Hnone H g' u'. unfold Db.insert_ticket.
  rewrite filter_app, length_app. simpl.
  destruct (Db.open_for_user g' u' (mkTicket g u ch true now)) eqn:E; simpl.
  - apply open_for_user_new in E as [-> ->].
    unfold Db.select_open_by_user in Hnone.
    rewrite (find_none_filter _ _ Hnone). simpl. lia.
  - specialize (H g' u'). lia.
Qed.

Lemma update_closed_length g ch rows :
  List.length (Db.update_closed g ch rows) = List.length rows.
Proof. apply length_map. Qed.

Lemma update_closed_channel_ids g ch rows :
  map channel_id (Db.update_closed g ch rows) = map channel_id rows.
Proof.
  unfold Db.update_closed. rewrite map_map. apply map_ext.
  intros t. destruct (Db.on_channel g ch t); reflexivity.
Qed.

Lemma update_closed_nth g ch rows n t :
  nth_error rows n = Some t ->
  nth_error (Db.update_closed g ch rows) n =
    Some (if Db.on_channel g ch t then Db.set_closed t else t).
Proof.
  intros H. unfold Db.update_closed.
  rewrite nth_error_map, H. reflexivity.
Qed.

Lemma select_after_update_closed g ch rows :
  Db.select_open_by_channel g ch (Db.update_closed g ch rows) = None.
Proof.
  unfold Db.select_open_by_channel.
  induction rows as [|t rows IH]; simpl; [reflexivity|].
  destruct (Db.on_channel g ch t) eqn:E.
  - rewrite open_for_channel_closed. exact IH.
  - unfold Db.open_for_channel. unfold Db.on_channel in E. rewrite E. simpl. exact IH.
Qed.

End DbLemmas.

(* ================================================================== *)
(** ** What one handler run does to the world *)

Ltac step_monad :=
  unfold followup, respond, db_select_open_by_user, db_select_open_by_channel,
    db_insert_ticket, db_update_closed, channel_history, channel_send,
    create_text_channel, get_cfg, get_channel, staff_check,
    read_tickets, write_tickets, emit, raise, bind, ret, logged; simpl.

Ltac tidy_trace := repeat (rewrite <- app_assoc; simpl).

Section HandlerRuns.

Variables (inter : Interaction) (env : Env) (w : World).

(** [ticket_close_logic] case by case. *)
Lemma ticket_close_logic_run (g ch : Z) :
  ticket_close_logic g ch inter env w =
  match Db.select_open_by_channel g ch (tickets w) with
  | None => (Ok NotATicket, logged w [Followup NotATicket])
  | Some t =>
      if unauthorized inter (user_id t) then
        (Ok Forbidden, logged w [Followup Forbidden])
      else
        match history env with
        | None => (Raised HTTPException, w)
        | Some msgs =>
            let w' := mkWorld (Db.update_closed g ch (tickets w)) (guild_config w)
                              (channels w) (next_id w)
                              (trace w ++ [HistoryRead ch; CloseCommitted g ch]) in
            if send_ok env then
              (Ok TicketClosed,
               logged w' [TranscriptSent ch (Transcript.build_transcript msgs);
                          Followup TicketClosed])
            else (Raised HTTPException, w')
        end
  end.
Proof.
  unfold ticket_close_logic, unauthorized. step_monad.
  destruct (Db.select_open_by_channel g ch (tickets w)) as [t|]; [|reflexivity].
  destruct (negb (i_user inter =? user_id t) && negb (i_manage_channels inter));
    [reflexivity|].
  destruct (history env) as [msgs|]; simpl; [|reflexivity].
  destruct (send_ok env); simpl; tidy_trace; reflexivity.
Qed.

(** [open_ticket] case by case. *)
Lemma open_ticket_run :
  let g := i_guild inter in
  open_ticket inter env w =
  if negb (me_manage_channels env && me_manage_roles env) then
    (Ok InsufficientPermissions, logged w [Defer; Followup InsufficientPermissions])
  else if negb (truthy (ticket_cat g w)) then
    (Ok NotConfigured, logged w [Defer; Followup NotConfigured])
  else
    match as_category (category_of g w) with
    | None => (Ok InvalidCategory, logged w [Defer; Followup InvalidCategory])
    | Some category =>
        match Db.select_open_by_user g (i_user inter) (tickets w) with
        | Some t =>
            let ref := option_map chan_id (lookup_channel g (channel_id t) (channels w)) in
            (Ok (DuplicateTicket ref), logged w [Defer; Followup (DuplicateTicket ref)])
        | None =>
            if create_ok env then
              let id := next_id w in
              let name := ("ticket-" ++ i_user_name inter)%string in
              let row := mkTicket g (i_user inter) id true (utcnow env) in
              let w' := mkWorld (Db.insert_ticket g (i_user inter) id (utcnow env) (tickets w))
                                (guild_config w)
                                (channels w ++ [mkChannel g id TextChannel name])
                                (id + 1)
                                (trace w ++ [Defer;
                                             CreateTextChannel g id name (chan_id category);
                                             InsertCommitted row]) in
              if send_ok env then
                (Ok (TicketCreated id), logged w' [WelcomeSent id; Followup (TicketCreated id)])
              else (Raised HTTPException, w')
            else (Raised HTTPException, logged w [Defer])
        end
    end.
Proof.
  unfold open_ticket, open_ticket_checks, open_ticket_provision, category_of, ticket_cat,
    cfg_get_ticket_cat.
  step_monad.
  destruct (negb (me_manage_channels env && me_manage_roles env)); simpl;
    [tidy_trace; reflexivity|].
  destruct (Db.select_config (i_guild inter) (guild_config w)) as [c|]; simpl;
    [|tidy_trace; reflexivity].
  destruct (truthy (ticket_category_id c)) eqn:Et; simpl; [|tidy_trace; reflexivity].
  destruct (ticket_category_id c) as [cid|]; simpl in *; [|discriminate].
  destruct (as_category (lookup_channel (i_guild inter) cid (channels w))); simpl;
    [|tidy_trace; reflexivity].
  destruct (Db.select_open_by_user (i_guild inter) (i_user inter) (tickets w)); simpl;
    [tidy_trace; reflexivity|].
  destruct (create_ok env); simpl; [|reflexivity].
  destruct (send_ok env); simpl; tidy_trace; reflexivity.
Qed.

End HandlerRuns.

Section Steps.

Lemma close_logic_step g ch inter env w :
  table_step w (exec (ticket_close_logic g ch inter env) w).
Proof.
  unfold exec. rewrite ticket_close_logic_run.
  destruct (Db.select_open_by_channel g ch (tickets w)) as [t|]; simpl.
  - destruct (unauthorized inter (user_id t)); simpl.
    + apply step_same; simpl; [reflexivity | lia].
    + destruct (history env); simpl.
      * destruct (send_ok env); simpl; eapply step_closed; reflexivity.
      * apply step_same; [reflexivity | lia].
  - apply step_same; simpl; [reflexivity | lia].
Qed.

Lemma table_step_logged w evs w' :
  table_step (logged w evs) w' -> table_step w w'.
Proof.
  intros [H1 H2 | g ch H1 H2 | g u now H0 H1 H2]; simpl in *.
  - apply step_same; assumption.
  - eapply step_closed; eassumption.
  - eapply step_inserted; eassumption.
Qed.

Lemma deferred_run {A} (m : M A) w :
  (emit Defer ;; m) w = m (logged w [Defer]).
Proof. reflexivity. Qed.

Lemma open_ticket_step inter env w :
  table_step w (exec (open_ticket inter env) w).
Proof.
  unfold exec. rewrite open_ticket_run.
  destruct (negb (me_manage_channels env && me_manage_roles env));
    [apply step_same; simpl; [reflexivity | lia]|].
  destruct (negb (truthy (ticket_cat (i_guild inter) w)));
    [apply step_same; simpl; [reflexivity | lia]|].
  destruct (as_category (category_of (i_guild inter) w));
    [|apply step_same; simpl; [reflexivity | lia]].
  destruct (Db.select_open_by_user (i_guild inter) (i_user inter) (tickets w)) eqn:E;
    [apply step_same; simpl; [reflexivity | lia]|].
  destruct (create_ok env); [|apply step_same; simpl; [reflexivity | lia]].
  destruct (send_ok env); simpl;
    apply (step_inserted _ _ (i_guild inter) (i_user inter) (utcnow env)); auto.
Qed.

Lemma exec_op_step o w : table_step w (exec_op o w).
Proof.
  destruct o as [i e | i e | i e | u g c i e | cfg chs k]; simpl.
  - apply open_ticket_step.
  - unfold exec, close_ticket.
    destruct (negb (is_text (i_channel_kind i))).
    + apply step_same; simpl; [reflexivity | lia].
    + rewrite deferred_run. eapply table_step_logged. apply close_logic_step.
  - unfold exec, ticketclose, staff_check, bind at 1.
    destruct (i_manage_guild i); simpl.
    + destruct (negb (is_text (i_channel_kind i))).
      * apply step_same; simpl; [reflexivity | lia].
      * rewrite deferred_run. eapply table_step_logged. apply close_logic_step.
    + apply step_same; simpl; [reflexivity | lia].
  - unfold exec, inline_close.
    destruct (negb (i_user i =? u) && negb (i_manage_channels i)).
    + apply step_same; simpl; [reflexivity | lia].
    + rewrite deferred_run. eapply table_step_logged. apply close_logic_step.
  - apply step_same; simpl; [reflexivity | lia].
Qed.

Lemma table_step_one_open w w' :
  table_step w w' -> one_open_per_user (tickets w) -> one_open_per_user (tickets w').
Proof.
  intros [H1 _ | g ch H1 _ | g u now H0 H1 _] H; rewrite H1.
  - exact H.
  - apply update_closed_keeps_invariant, H.
  - apply insert_keeps_invariant; assumption.
Qed.

Lemma table_step_fresh w w' :
  table_step w w' -> channels_fresh w -> channels_fresh w'.
Proof.
  unfold channels_fresh.
  intros [H1 H2 | g ch H1 H2 | g u now H0 H1 H2] [Hnd Hlt]; rewrite H1.
  - split; [exact Hnd|]. intros t Ht. specialize (Hlt t Ht). lia.
  - rewrite update_closed_channel_ids. split; [exact Hnd|].
    intros t Ht. unfold Db.update_closed in Ht. apply in_map_iff in Ht as [t0 [<- Ht0]].
    specialize (Hlt t0 Ht0). rewrite H2.
    destruct (Db.on_channel g ch t0); simpl; exact Hlt.
  - unfold Db.insert_ticket. rewrite map_app. simpl. split.
    + apply NoDup_app; [exact Hnd | repeat constructor; intros [] |].
      intros c Hc [<- | []]. apply in_map_iff in Hc as [t [Hc Ht]].
      specialize (Hlt t Ht). lia.
    + intros t Ht. rewrite H2. apply in_app_iff in Ht as [Ht | [<- | []]].
      * specialize (Hlt t Ht). lia.
      * simpl. lia.
Qed.

End Steps.

(* ================================================================== *)
(** ** Invariants of every run *)

Section Runs.

Lemma run_ops_one_open ops : forall w,
  one_open_per_user (tickets w) -> one_open_per_user (tickets (run_ops ops w)).
Proof.
  induction ops as [|o ops IH]; intros w H; simpl; [exact H|].
  apply IH. eapply table_step_one_open; [apply exec_op_step | exact H].
Qed.

Lemma run_ops_fresh ops : forall w,
  channels_fresh w -> channels_fresh (run_ops ops w).
Proof.
  induction ops as [|o ops IH]; intros w H; simpl; [exact H|].
  apply IH. eapply table_step_fresh; [apply exec_op_step | exact H].
Qed.

Lemma fresh_world_one_open cfg chs nid :
  one_open_per_user (tickets (fresh_world cfg chs nid)).
Proof. intros g u. simpl. lia. Qed.

Lemma fresh_world_fresh cfg chs nid : channels_fresh (fresh_world cfg chs nid).
Proof. split; simpl; [constructor | intros t []]. Qed.

Lemma open_ticket_duplicate_keeps_table inter env w t :
  Db.select_open_by_user (i_guild inter) (i_user inter) (tickets w) = Some t ->
  tickets (exec (open_ticket inter env) w) = tickets w /\
  channels (exec (open_ticket inter env) w) = channels w /\
  next_id (exec (open_ticket inter env) w) = next_id w.
Proof.
  intros H. unfold exec. rewrite open_ticket_run.
  destruct (negb (me_manage_channels env && me_manage_roles env)); [repeat split|].
  destruct (negb (truthy (ticket_cat (i_guild inter) w))); [repeat split|].
  destruct (as_category (category_of (i_guild inter) w)); [|repeat split].
  rewrite H. repeat split.
Qed.

End Runs.

(* ================================================================== *)
(** ** The close entry points *)

Section EntryPoints.

Lemma refused_close_keeps_table g ch inter env w :
  refused g ch inter w ->
  tickets (exec (ticket_close_logic g ch inter env) w) = tickets w.
Proof.
  unfold refused, exec. rewrite ticket_close_logic_run.
  destruct (Db.select_open_by_channel g ch (tickets w)) as [t|]; [|reflexivity].
  intros ->. reflexivity.
Qed.

(** Whichever way the close is asked for (the panel button, the
    command, the button inside the ticket), a refused close leaves the
    table as it was. *)
Lemma refused_close_keeps_table_at_every_entry inter env w :
  refused (i_guild inter) (i_channel inter) inter w ->
  tickets (exec (close_ticket inter env) w) = tickets w /\
  tickets (exec (ticketclose inter env) w) = tickets w /\
  forall opener,
    tickets (exec (inline_close opener (i_guild inter) (i_channel inter) inter env) w)
      = tickets w.
Proof.
  intros H.
  assert (Hd : tickets (exec (ticket_close_logic (i_guild inter) (i_channel inter) inter env)
                             (logged w [Defer])) = tickets w)
    by (apply (refused_close_keeps_table (i_guild inter) (i_channel inter) inter env
                 (logged w [Defer])); exact H).
  split; [|split].
  - unfold exec, close_ticket.
    destruct (negb (is_text (i_channel_kind inter))); [reflexivity|].
    rewrite deferred_run. exact Hd.
  - unfold exec, ticketclose, staff_check, bind at 1.
    destruct (i_manage_guild inter); simpl; [|reflexivity].
    destruct (negb (is_text (i_channel_kind inter))); [reflexivity|].
    rewrite deferred_run. exact Hd.
  - intros opener. unfold exec, inline_close.
    destruct (negb (i_user inter =? opener) && negb (i_manage_channels inter));
      [reflexivity|].
    rewrite deferred_run. exact Hd.
Qed.

End EntryPoints.

(* ================================================================== *)
(** ** The claims *)

(** One open ticket per user and guild, for presses handled in turn:
    after any sequence of ticket operations each run to completion on a
    database whose [tickets] table started empty, the table holds at
    most one open row for every (guild, user); and an open attempt by a
    user who has an open ticket in the guild leaves the table as it
    was.  (Changes from outside the subsystem may come between the
    operations.) *)
Theorem one_open_ticket_invariant :
  forall cfg chs nid ops,
    let w := run_ops ops (fresh_world cfg chs nid) in
    (forall g u, (List.length (filter (Db.open_for_user g u) (tickets w)) <= 1)%nat) /\
    (forall inter env t,
        Db.select_open_by_user (i_guild inter) (i_user inter) (tickets w) = Some t ->
        tickets (exec (open_ticket inter env) w) = tickets w).
Proof.
  intros cfg chs nid ops w. split.
  - apply (run_ops_one_open ops (fresh_world cfg chs nid)).
    apply fresh_world_one_open.
  - intros inter env t H.
    apply (open_ticket_duplicate_keeps_table inter env w H).
Qed.

(** The invariant on a run: Alice opens, opens again, Bob opens, staff
    closes Alice's ticket, Alice opens a third time. *)
Lemma one_open_ticket_invariant_witness :
  let ops := [OpOpen (Sample.alice 10) Sample.all_fine;
              OpOpen (Sample.alice 10) Sample.all_fine;
              OpOpen (Sample.bob 10) Sample.all_fine;
              OpClosePanel (Sample.carol 100) Sample.all_fine;
              OpOpen (Sample.alice 10) Sample.all_fine] in
  let w := run_ops ops Sample.configured in
  (List.length (filter (Db.open_for_user 1 7) (tickets w)) <= 1)%nat /\
  tickets (exec (open_ticket (Sample.alice 10) Sample.all_fine) w) = tickets w.
Proof.
  intros ops w.
  destruct (one_open_ticket_invariant
              [mkGuildConfig 1 (Some 50)]
              [mkChannel 1 50 CategoryChannel "TICKETS"; mkChannel 1 10 TextChannel "suporte"]
              100 ops) as [H1 H2].
  split.
  - apply H1.
  - apply (H2 (Sample.alice 10) Sample.all_fine
              (mkTicket 1 7 102 true "2024-11-03T09:00:00")).
    reflexivity.
Defined.

(** C1 does not hold of the code.  [open_ticket] gives way to other
    handlers at [await guild.create_text_channel], between its SELECT
    for an open row and its INSERT.  When Alice, who has no ticket,
    presses the button twice and the second press is handled up to
    that await before the first has inserted, both presses pass the
    duplicate check and both are answered that a ticket was created:
    the table then holds two open rows for (guild 1, user 7). *)
Lemma racing_opens_two_open_rows :
  let run := racing_opens (Sample.alice 10) Sample.all_fine
                          (Sample.alice 10) Sample.all_fine in
  Db.select_open_by_user 1 7 (tickets Sample.configured) = None /\
  result run Sample.configured = Ok (TicketCreated 100, TicketCreated 101) /\
  tickets (exec run Sample.configured)
    = [mkTicket 1 7 100 true "2024-11-03T09:00:00";
       mkTicket 1 7 101 true "2024-11-03T09:00:00"] /\
  List.length (filter (Db.open_for_user 1 7) (tickets (exec run Sample.configured)))
    = 2%nat.
Proof. repeat split. Qed.

(** C2. Idempotent close: when the table has no open row for (guild,
    channel), [ticket_close_logic] answers NotATicket and changes
    nothing but the trace; and after a close that succeeded, a second
    close of the same channel, by anyone, answers NotATicket and leaves
    the table as the first close left it. *)
Theorem close_without_open_row_is_not_a_ticket :
  (forall g ch inter env w,
      Db.select_open_by_channel g ch (tickets w) = None ->
      result (ticket_close_logic g ch inter env) w = Ok NotATicket /\
      exec (ticket_close_logic g ch inter env) w = logged w [Followup NotATicket] /\
      tickets (exec (ticket_close_logic g ch inter env) w) = tickets w) /\
  (forall g ch inter env w inter' env',
      result (ticket_close_logic g ch inter env) w = Ok TicketClosed ->
      let w' := exec (ticket_close_logic g ch inter env) w in
      result (ticket_close_logic g ch inter' env') w' = Ok NotATicket /\
      tickets (exec (ticket_close_logic g ch inter' env') w') = tickets w').
Proof.
  assert (first : forall g ch inter env w,
      Db.select_open_by_channel g ch (tickets w) = None ->
      result (ticket_close_logic g ch inter env) w = Ok NotATicket /\
      exec (ticket_close_logic g ch inter env) w = logged w [Followup NotATicket] /\
      tickets (exec (ticket_close_logic g ch inter env) w) = tickets w).
  { intros g ch inter env w H. unfold result, exec.
    rewrite ticket_close_logic_run, H. repeat split. }
  split; [exact first|].
  intros g ch inter env w inter' env' H w'.
  assert (Hnone : Db.select_open_by_channel g ch (tickets w') = None).
  { subst w'. unfold result in H. unfold exec.
    rewrite ticket_close_logic_run in *.
    destruct (Db.select_open_by_channel g ch (tickets w)) as [t|]; [|discriminate].
    destruct (unauthorized inter (user_id t)); [discriminate|].
    destruct (history env); [|discriminate].
    destruct (send_ok env); [|discriminate].
    simpl. apply select_after_update_closed. }
  destruct (first g ch inter' env' w' Hnone) as [H1 [_ H3]]. split; assumption.
Qed.

(** C2, on Alice's ticket: a stranger channel, and a double close. *)
Lemma close_without_open_row_is_not_a_ticket_witness :
  result (ticket_close_logic 1 10 (Sample.alice 10) Sample.all_fine) Sample.alice_has_ticket
    = Ok NotATicket /\
  result (ticket_close_logic 1 100 (Sample.alice 100) Sample.all_fine)
         (exec (ticket_close_logic 1 100 (Sample.carol 100) Sample.all_fine)
               Sample.alice_has_ticket)
    = Ok NotATicket.
Proof.
  destruct close_without_open_row_is_not_a_ticket as [H1 H2]. split.
  - apply (H1 1 10 (Sample.alice 10) Sample.all_fine Sample.alice_has_ticket).
    reflexivity.
  - apply (H2 1 100 (Sample.carol 100) Sample.all_fine Sample.alice_has_ticket
              (Sample.alice 100) Sample.all_fine).
    reflexivity.
Defined.

(** C4. Authorization boundary of close: on a channel with an open
    ticket, a caller who is neither the owner recorded in the row nor a
    holder of Manage Channels gets Forbidden; the table is left as it
    was, so the row is still found and still open. *)
Theorem close_by_stranger_is_forbidden :
  forall g ch inter env w t,
    Db.select_open_by_channel g ch (tickets w) = Some t ->
    i_user inter <> user_id t ->
    i_manage_channels inter = false ->
    result (ticket_close_logic g ch inter env) w = Ok Forbidden /\
    tickets (exec (ticket_close_logic g ch inter env) w) = tickets w /\
    exec (ticket_close_logic g ch inter env) w = logged w [Followup Forbidden] /\
    Db.select_open_by_channel g ch
      (tickets (exec (ticket_close_logic g ch inter env) w)) = Some t /\
    open t = true.
Proof.
  intros g ch inter env w t Hrow Hneq Hperm.
  assert (Hun : unauthorized inter (user_id t) = true).
  { unfold unauthorized. rewrite Hperm.
    apply Z.eqb_neq in Hneq. rewrite Hneq. reflexivity. }
  unfold result, exec. rewrite ticket_close_logic_run, Hrow, Hun. simpl.
  repeat split; try assumption.
  unfold Db.select_open_by_channel in Hrow. apply find_some in Hrow as [_ Hopen].
  unfold Db.open_for_channel in Hopen. apply andb_prop in Hopen as [_ Hopen]. exact Hopen.
Qed.

(** C4, with Bob pressing close in Alice's ticket. *)
Lemma close_by_stranger_is_forbidden_witness :
  result (ticket_close_logic 1 100 (Sample.bob 100) Sample.all_fine) Sample.alice_has_ticket
    = Ok Forbidden /\
  tickets (exec (ticket_close_logic 1 100 (Sample.bob 100) Sample.all_fine)
                Sample.alice_has_ticket)
    = tickets Sample.alice_has_ticket.
Proof.
  destruct (close_by_stranger_is_forbidden 1 100 (Sample.bob 100) Sample.all_fine
              Sample.alice_has_ticket
              (t := mkTicket 1 7 100 true "2024-11-03T09:00:00"))
    as [H1 [H2 _]].
  - reflexivity.
  - simpl. lia.
  - reflexivity.
  - split; [exact H1 | exact H2].
Defined.

Section TraceLemmas.

Lemma new_events_logged w w' evs :
  trace w' = trace w ++ evs -> new_events w w' = evs.
Proof.
  intros H. unfold new_events. rewrite H. clear H.
  induction (trace w) as [|e tr IH]; simpl; [reflexivity | exact IH].
Qed.

Lemma close_order_in_trace g ch data :
  let evs := [HistoryRead ch; CloseCommitted g ch; TranscriptSent ch data;
              Followup TicketClosed] in
  precedes (is_history_read ch) (is_close_committed g ch) evs = true /\
  precedes (is_close_committed g ch) (is_transcript_sent ch) evs = true /\
  precedes (is_transcript_sent ch) (is_close_committed g ch) evs = false.
Proof.
  unfold precedes; simpl. rewrite !Z.eqb_refl. simpl. repeat split.
Qed.

End TraceLemmas.

(** C3, as stated, fails: when staff closes Alice's ticket and every
    call succeeds, the UPDATE is committed before the transcript is sent
    to the channel, not after. *)
Lemma transcript_is_sent_after_the_commit :
  let w := Sample.alice_has_ticket_quiet in
  let run := ticket_close_logic 1 100 (Sample.carol 100) Sample.all_fine in
  result run w = Ok TicketClosed /\
  precedes (is_transcript_sent 100) (is_close_committed 1 100) (trace (exec run w)) = false /\
  precedes (is_close_committed 1 100) (is_transcript_sent 100) (trace (exec run w)) = true.
Proof. repeat split. Qed.

(** C3, amended. In every successful close the channel history is read
    and the transcript built before the UPDATE is committed, and the
    transcript is sent to the channel after the commit.  When reading
    the history fails, the handler stops with the world untouched, so
    the ticket is still open; when sending the transcript fails, the
    row is already closed. *)
Theorem transcript_built_before_commit_sent_after :
  (forall g ch inter env w,
      result (ticket_close_logic g ch inter env) w = Ok TicketClosed ->
      let evs := new_events w (exec (ticket_close_logic g ch inter env) w) in
      exists msgs,
        history env = Some msgs /\
        evs = [HistoryRead ch; CloseCommitted g ch;
               TranscriptSent ch (Transcript.build_transcript msgs);
               Followup TicketClosed] /\
        precedes (is_history_read ch) (is_close_committed g ch) evs = true /\
        precedes (is_close_committed g ch) (is_transcript_sent ch) evs = true) /\
  (forall g ch inter env w t,
      Db.select_open_by_channel g ch (tickets w) = Some t ->
      unauthorized inter (user_id t) = false ->
      history env = None ->
      result (ticket_close_logic g ch inter env) w = Raised HTTPException /\
      exec (ticket_close_logic g ch inter env) w = w) /\
  (forall g ch inter env w t msgs,
      Db.select_open_by_channel g ch (tickets w) = Some t ->
      unauthorized inter (user_id t) = false ->
      history env = Some msgs ->
      send_ok env = false ->
      result (ticket_close_logic g ch inter env) w = Raised HTTPException /\
      tickets (exec (ticket_close_logic g ch inter env) w)
        = Db.update_closed g ch (tickets w) /\
      index_of (is_transcript_sent ch)
               (new_events w (exec (ticket_close_logic g ch inter env) w)) = None).
Proof.
  split; [|split].
  - intros g ch inter env w H evs. subst evs.
    unfold result in H. unfold exec. rewrite ticket_close_logic_run in *.
    destruct (Db.select_open_by_channel g ch (tickets w)) as [t|]; [|discriminate].
    destruct (unauthorized inter (user_id t)); [discriminate|].
    destruct (history env) as [msgs|]; [|discriminate].
    destruct (send_ok env); [|discriminate].
    exists msgs. split; [reflexivity|].
    rewrite (@new_events_logged w _
               [HistoryRead ch; CloseCommitted g ch;
                TranscriptSent ch (Transcript.build_transcript msgs);
                Followup TicketClosed]) by (simpl; tidy_trace; reflexivity).
    split; [reflexivity|].
    destruct (close_order_in_trace g ch (Transcript.build_transcript msgs)) as [H1 [H2 _]].
    split; assumption.
  - intros g ch inter env w t Hrow Hauth Hhist.
    unfold result, exec. rewrite ticket_close_logic_run, Hrow, Hauth, Hhist. split; reflexivity.
  - intros g ch inter env w t msgs Hrow Hauth Hhist Hsend.
    unfold result, exec. rewrite ticket_close_logic_run, Hrow, Hauth, Hhist, Hsend. simpl.
    split; [reflexivity|]. split; [reflexivity|].
    rewrite (@new_events_logged w _ [HistoryRead ch; CloseCommitted g ch]) by reflexivity.
    reflexivity.
Qed.

(** C3 amended, on Alice's ticket closed by staff: all fine, history
    failing, send failing. *)
Lemma transcript_built_before_commit_sent_after_witness :
  (exists msgs,
      history Sample.all_fine = Some msgs /\
      new_events Sample.alice_has_ticket
        (exec (ticket_close_logic 1 100 (Sample.carol 100) Sample.all_fine)
              Sample.alice_has_ticket)
      = [HistoryRead 100; CloseCommitted 1 100;
         TranscriptSent 100 (Transcript.build_transcript msgs);
         Followup TicketClosed]) /\
  exec (ticket_close_logic 1 100 (Sample.carol 100) Sample.history_fails)
       Sample.alice_has_ticket = Sample.alice_has_ticket /\
  tickets (exec (ticket_close_logic 1 100 (Sample.carol 100) Sample.send_fails)
                Sample.alice_has_ticket)
    = Db.update_closed 1 100 (tickets Sample.alice_has_ticket).
Proof.
  destruct transcript_built_before_commit_sent_after as [H1 [H2 H3]].
  split; [|split].
  - destruct (H1 1 100 (Sample.carol 100) Sample.all_fine Sample.alice_has_ticket)
      as [msgs [Hm [He _]]].
    + reflexivity.
    + exists msgs. split; [exact Hm | exact He].
  - apply (H2 1 100 (Sample.carol 100) Sample.history_fails Sample.alice_has_ticket
              (mkTicket 1 7 100 true "2024-11-03T09:00:00")); reflexivity.
  - apply (H3 1 100 (Sample.carol 100) Sample.send_fails Sample.alice_has_ticket
              (mkTicket 1 7 100 true "2024-11-03T09:00:00")
              [Sample.msg1; Sample.msg2]); reflexivity.
Defined.

(** C10. NotATicket comes before Forbidden in [ticket_close_logic]: with
    no open row for the channel the answer is NotATicket whoever calls,
    and Forbidden is only ever answered after an open row was found and
    its owner compared with the caller.  The panel's close button on a
    text channel behaves the same. *)
Theorem not_a_ticket_takes_precedence :
  (forall g ch inter env w,
      Db.select_open_by_channel g ch (tickets w) = None ->
      result (ticket_close_logic g ch inter env) w = Ok NotATicket) /\
  (forall g ch inter env w,
      result (ticket_close_logic g ch inter env) w = Ok Forbidden ->
      exists t, Db.select_open_by_channel g ch (tickets w) = Some t /\
                i_user inter <> user_id t /\ i_manage_channels inter = false) /\
  (forall inter env w,
      i_channel_kind inter = TextChannel ->
      Db.select_open_by_channel (i_guild inter) (i_channel inter) (tickets w) = None ->
      result (close_ticket inter env) w = Ok NotATicket).
Proof.
  split; [|split].
  - intros g ch inter env w H. unfold result. rewrite ticket_close_logic_run, H. reflexivity.
  - intros g ch inter env w H. unfold result in H. rewrite ticket_close_logic_run in H.
    destruct (Db.select_open_by_channel g ch (tickets w)) as [t|]; [|discriminate].
    exists t. split; [reflexivity|].
    destruct (unauthorized inter (user_id t)) eqn:E.
    + unfold unauthorized in E. apply andb_prop in E as [E1 E2].
      apply negb_true_iff in E1, E2. apply Z.eqb_neq in E1. auto.
    + destruct (history env); [|discriminate].
      destruct (send_ok env); discriminate.
  - intros inter env w Hk H. unfold result, close_ticket. rewrite Hk. simpl.
    rewrite deferred_run, ticket_close_logic_run. simpl. rewrite H. reflexivity.
Qed.

(** C10, in the panel channel, which never was a ticket: the owner of
    another ticket, staff and a plain member all get NotATicket. *)
Lemma not_a_ticket_takes_precedence_witness :
  result (ticket_close_logic 1 10 (Sample.alice 10) Sample.all_fine) Sample.alice_has_ticket
    = Ok NotATicket /\
  result (ticket_close_logic 1 10 (Sample.carol 10) Sample.all_fine) Sample.alice_has_ticket
    = Ok NotATicket /\
  result (close_ticket (Sample.bob 10) Sample.all_fine) Sample.alice_has_ticket
    = Ok NotATicket.
Proof.
  destruct not_a_ticket_takes_precedence as [H1 [_ H3]].
  split; [|split].
  - apply H1. reflexivity.
  - apply H1. reflexivity.
  - apply H3; reflexivity.
Defined.

(** The close button that [open_ticket] posts inside the ticket channel
    compares the caller with the opener before [ticket_close_logic]
    runs: pressed by Bob after Alice's ticket was closed, it answers
    with its own refusal. *)
Lemma inline_close_refuses_before_lookup :
  let closed := exec (ticket_close_logic 1 100 (Sample.carol 100) Sample.all_fine)
                     Sample.alice_has_ticket in
  Db.select_open_by_channel 1 100 (tickets closed) = None /\
  result (inline_close 7 1 100 (Sample.bob 100) Sample.all_fine) closed = Ok InlineForbidden.
Proof. split; reflexivity. Qed.

Section OpenLemmas.

Lemma lookup_channel_id g id chs c :
  lookup_channel g id chs = Some c -> chan_guild c = g /\ chan_id c = id.
Proof.
  unfold lookup_channel. intros H. apply find_some in H as [_ H].
  apply andb_prop in H as [H1 H2]. apply Z.eqb_eq in H1, H2. auto.
Qed.

Lemma select_none_above_allocator g rows id :
  (forall t, In t rows -> channel_id t < id) ->
  Db.select_open_by_channel g id rows = None.
Proof.
  intros H. unfold Db.select_open_by_channel.
  destruct (find (Db.open_for_channel g id) rows) as [t|] eqn:E; [|reflexivity].
  apply find_some in E as [Hin Hm]. specialize (H t Hin).
  unfold Db.open_for_channel in Hm.
  apply andb_prop in Hm as [Hm _]. apply andb_prop in Hm as [_ Hm].
  apply Z.eqb_eq in Hm. lia.
Qed.

Lemma select_inserted g u ch now rows :
  Db.select_open_by_channel g ch rows = None ->
  Db.select_open_by_channel g ch (Db.insert_ticket g u ch now rows)
    = Some (mkTicket g u ch true now).
Proof.
  intros H. unfold Db.select_open_by_channel, Db.insert_ticket in *.
  rewrite (find_app_none _ _ _ H). simpl.
  unfold Db.open_for_channel. simpl. rewrite !Z.eqb_refl. reflexivity.
Qed.

End OpenLemmas.

(** C6, as stated, fails: Alice has an open ticket, the bot has lost
    Manage Roles since; her next press is answered with the permission
    message, not with a reference to her channel. *)
Lemma open_again_without_bot_permission :
  Db.select_open_by_user 1 7 (tickets Sample.alice_has_ticket)
    = Some (mkTicket 1 7 100 true "2024-11-03T09:00:00") /\
  result (open_ticket (Sample.alice 10) Sample.no_manage_roles) Sample.alice_has_ticket
    = Ok InsufficientPermissions.
Proof. split; reflexivity. Qed.

(** The reference is also missing when the ticket channel was deleted
    by hand: the row stays open and the reply names no channel. *)
Lemma open_again_after_channel_deleted :
  let w := exec (elsewhere (guild_config Sample.configured) (channels Sample.configured) 0)
                Sample.alice_has_ticket in
  result (open_ticket (Sample.alice 10) Sample.all_fine) w = Ok (DuplicateTicket None).
Proof. reflexivity. Qed.

(** C6, amended. An open attempt by a user who has an open ticket in the
    guild never creates a channel and never inserts a row.  When the
    bot holds both capabilities and the configured category is a
    category of the guild, the reply is DuplicateTicket, carrying the
    channel of the user's open row if the guild still has that channel
    (and no channel otherwise). *)
Theorem open_again_returns_existing_ticket :
  forall inter env w t,
    Db.select_open_by_user (i_guild inter) (i_user inter) (tickets w) = Some t ->
    let g := i_guild inter in
    let w' := exec (open_ticket inter env) w in
    tickets w' = tickets w /\
    channels w' = channels w /\
    index_of is_channel_created (new_events w w') = None /\
    index_of is_insert_committed (new_events w w') = None /\
    (me_manage_channels env && me_manage_roles env = true ->
     truthy (ticket_cat g w) = true ->
     as_category (category_of g w) <> None ->
     result (open_ticket inter env) w
       = Ok (DuplicateTicket
               (option_map chan_id (lookup_channel g (channel_id t) (channels w)))) /\
     (forall c, lookup_channel g (channel_id t) (channels w) = Some c ->
                result (open_ticket inter env) w = Ok (DuplicateTicket (Some (channel_id t))))).
Proof.
  intros inter env w t H g w'. subst g w'.
  unfold result, exec. rewrite open_ticket_run. cbv zeta.
  destruct (negb (me_manage_channels env && me_manage_roles env)) eqn:Ep.
  { simpl. rewrite (@new_events_logged w _ [Defer; Followup InsufficientPermissions])
      by reflexivity.
    apply negb_true_iff in Ep. repeat split; congruence. }
  destruct (negb (truthy (ticket_cat (i_guild inter) w))) eqn:Ec.
  { simpl. rewrite (@new_events_logged w _ [Defer; Followup NotConfigured]) by reflexivity.
    apply negb_true_iff in Ec. repeat split; congruence. }
  destruct (as_category (category_of (i_guild inter) w)) eqn:Ea.
  2:{ simpl. rewrite (@new_events_logged w _ [Defer; Followup InvalidCategory]) by reflexivity.
      repeat split; congruence. }
  rewrite H. simpl.
  rewrite (@new_events_logged w _
             [Defer; Followup (DuplicateTicket
                (option_map chan_id
                   (lookup_channel (i_guild inter) (channel_id t) (channels w))))])
    by reflexivity.
  repeat split.
  intros c0 Hc0. rewrite Hc0. simpl.
  apply lookup_channel_id in Hc0 as [_ ->]. reflexivity.
Qed.

(** C6 amended, with Alice pressing the button a second time. *)
Lemma open_again_returns_existing_ticket_witness :
  tickets (exec (open_ticket (Sample.alice 10) Sample.all_fine) Sample.alice_has_ticket)
    = tickets Sample.alice_has_ticket /\
  result (open_ticket (Sample.alice 10) Sample.all_fine) Sample.alice_has_ticket
    = Ok (DuplicateTicket (Some 100)).
Proof.
  destruct (@open_again_returns_existing_ticket (Sample.alice 10) Sample.all_fine
              Sample.alice_has_ticket (mkTicket 1 7 100 true "2024-11-03T09:00:00"))
    as [H1 [_ [_ [_ H5]]]].
  - reflexivity.
  - split; [exact H1|].
    destruct H5 as [_ H6].
    + reflexivity.
    + reflexivity.
    + simpl. discriminate.
    + apply (H6 (mkChannel 1 100 TextChannel "ticket-alice")). reflexivity.
Defined.

(** C7. The pre-checks of [open_ticket] come before any provisioning:
    when the bot lacks Manage Channels or Manage Roles the handler
    answers InsufficientPermissions, and when it holds both but the
    guild has no ticket category configured (no row, NULL or 0) it
    answers NotConfigured; in both cases the world is left as it was
    apart from the deferral and the answer in the trace: no channel is
    created and no row inserted. *)
Theorem open_prechecks_before_provisioning :
  forall inter env w,
    let g := i_guild inter in
    let w' := exec (open_ticket inter env) w in
    (me_manage_channels env && me_manage_roles env = false ->
     result (open_ticket inter env) w = Ok InsufficientPermissions /\
     w' = logged w [Defer; Followup InsufficientPermissions] /\
     tickets w' = tickets w /\ channels w' = channels w /\
     index_of is_channel_created (new_events w w') = None /\
     index_of is_insert_committed (new_events w w') = None) /\
    (me_manage_channels env && me_manage_roles env = true ->
     truthy (ticket_cat g w) = false ->
     result (open_ticket inter env) w = Ok NotConfigured /\
     w' = logged w [Defer; Followup NotConfigured] /\
     tickets w' = tickets w /\ channels w' = channels w /\
     index_of is_channel_created (new_events w w') = None /\
     index_of is_insert_committed (new_events w w') = None).
Proof.
  intros inter env w g w'. subst g w'. unfold result, exec.
  rewrite open_ticket_run. cbv zeta. split.
  - intros Hp. rewrite Hp. simpl.
    rewrite (@new_events_logged w _ [Defer; Followup InsufficientPermissions])
      by reflexivity.
    repeat split.
  - intros Hp Hc. rewrite Hp, Hc. simpl.
    rewrite (@new_events_logged w _ [Defer; Followup NotConfigured]) by reflexivity.
    repeat split.
Qed.

(** C7, with the bot lacking Manage Roles in a configured guild, and
    with all permissions in a guild where [/setup] never ran. *)
Lemma open_prechecks_before_provisioning_witness :
  (result (open_ticket (Sample.alice 10) Sample.no_manage_roles) Sample.configured
     = Ok InsufficientPermissions /\
   tickets (exec (open_ticket (Sample.alice 10) Sample.no_manage_roles) Sample.configured)
     = tickets Sample.configured) /\
  (result (open_ticket (Sample.alice 10) Sample.all_fine) Sample.unconfigured
     = Ok NotConfigured /\
   channels (exec (open_ticket (Sample.alice 10) Sample.all_fine) Sample.unconfigured)
     = channels Sample.unconfigured).
Proof.
  split.
  - destruct (open_prechecks_before_provisioning
                (Sample.alice 10) Sample.no_manage_roles Sample.configured) as [H _].
    destruct H as [H1 [_ [H3 _]]]; [reflexivity|]. split; assumption.
  - destruct (open_prechecks_before_provisioning
                (Sample.alice 10) Sample.all_fine Sample.unconfigured) as [_ H].
    destruct H as [H1 [_ [_ [H4 _]]]]; [reflexivity | reflexivity |]. split; assumption.
Defined.

Section FrameLemmas.

Lemma same_identity_refl t : same_identity t t.
Proof. repeat split. Qed.

Lemma same_identity_closed t : same_identity t (Db.set_closed t).
Proof. repeat split. Qed.

Lemma set_closed_of_closed t : open t = false -> Db.set_closed t = t.
Proof. destruct t; simpl; intros ->; reflexivity. Qed.

Lemma open_for_channel_split g ch t :
  Db.open_for_channel g ch t = Db.on_channel g ch t && open t.
Proof. reflexivity. Qed.

(** A row of the table after the UPDATE, from the row before. *)
Lemma update_closed_row g ch rows n t :
  nth_error rows n = Some t ->
  exists t',
    nth_error (Db.update_closed g ch rows) n = Some t' /\
    same_identity t t' /\
    (if Db.open_for_channel g ch t
     then open t = true /\ open t' = false
     else t' = t).
Proof.
  intros H. rewrite (update_closed_nth g ch rows n H).
  rewrite open_for_channel_split.
  destruct (Db.on_channel g ch t); simpl.
  - exists (Db.set_closed t). split; [reflexivity|]. split; [apply same_identity_closed|].
    destruct (open t) eqn:E; [split; reflexivity | apply set_closed_of_closed, E].
  - exists t. split; [reflexivity|]. split; [apply same_identity_refl | reflexivity].
Qed.

(** No step deletes a row, changes a field other than [open], or opens
    a closed row again. *)
Lemma table_step_keeps_rows w w' n t :
  table_step w w' ->
  nth_error (tickets w) n = Some t ->
  exists t', nth_error (tickets w') n = Some t' /\ same_identity t t' /\
             (open t' = true -> t' = t).
Proof.
  intros [H1 _ | g ch H1 _ | g u now _ H1 _] Hn; rewrite H1.
  - exists t. split; [exact Hn|]. split; [apply same_identity_refl | reflexivity].
  - destruct (update_closed_row g ch (tickets w) n Hn) as [t' [Ht' [Hid Hop]]].
    exists t'. split; [exact Ht'|]. split; [exact Hid|].
    destruct (Db.open_for_channel g ch t).
    + destruct Hop as [_ Hop]. intros Ht. congruence.
    + intros _. exact Hop.
  - exists t. split.
    + unfold Db.insert_ticket. rewrite nth_error_app1; [exact Hn|].
      apply nth_error_Some. congruence.
    + split; [apply same_identity_refl | reflexivity].
Qed.

(** With channel ids handed out once each, two rows on one channel are
    one row. *)
Lemma one_row_per_channel rows g ch n m t t0 :
  NoDup (map channel_id rows) ->
  nth_error rows n = Some t -> nth_error rows m = Some t0 ->
  Db.on_channel g ch t = true -> Db.on_channel g ch t0 = true ->
  n = m.
Proof.
  intros Hnd Hn Hm Ht Ht0.
  unfold Db.on_channel in Ht, Ht0.
  apply andb_prop in Ht as [_ Ht]. apply andb_prop in Ht0 as [_ Ht0].
  apply Z.eqb_eq in Ht, Ht0.
  apply (proj1 (NoDup_nth_error (map channel_id rows)) Hnd).
  - rewrite length_map. apply nth_error_Some. congruence.
  - rewrite !nth_error_map, Hn, Hm. simpl. congruence.
Qed.

Lemma closed_run_table g ch inter env w :
  result (ticket_close_logic g ch inter env) w = Ok TicketClosed ->
  (exists t, Db.select_open_by_channel g ch (tickets w) = Some t) /\
  tickets (exec (ticket_close_logic g ch inter env) w) = Db.update_closed g ch (tickets w) /\
  guild_config (exec (ticket_close_logic g ch inter env) w) = guild_config w /\
  channels (exec (ticket_close_logic g ch inter env) w) = channels w.
Proof.
  unfold result, exec. rewrite ticket_close_logic_run.
  destruct (Db.select_open_by_channel g ch (tickets w)) as [t|]; [|discriminate].
  destruct (unauthorized inter (user_id t)); [discriminate|].
  destruct (history env); [|discriminate].
  destruct (send_ok env); [|discriminate].
  intros _. simpl. repeat split. exists t. reflexivity.
Qed.

Lemma find_some_nth {A} (f : A -> bool) (l : list A) (x : A) :
  find f l = Some x -> exists n, nth_error l n = Some x /\ f x = true.
Proof.
  intros H. apply find_some in H as [Hin Hf].
  apply In_nth_error in Hin as [n Hn]. exists n. auto.
Qed.

End FrameLemmas.

(** C8. Frame of close, and retention.  A successful close changes the
    table by the UPDATE alone: the table keeps its length; a row that
    is open on the closed (guild, channel) goes from open to closed
    with its guild, user, channel and creation time kept; every other
    row is unchanged; the configuration table and the channel cache are
    untouched.  In a run that started on an empty table exactly one row
    is changed by it.  And no step of a run ever deletes a row, changes
    a field other than [open], or reopens a closed row. *)
Theorem close_flips_open_and_nothing_else :
  (forall g ch inter env w,
      result (ticket_close_logic g ch inter env) w = Ok TicketClosed ->
      let w' := exec (ticket_close_logic g ch inter env) w in
      List.length (tickets w') = List.length (tickets w) /\
      guild_config w' = guild_config w /\ channels w' = channels w /\
      forall n t, nth_error (tickets w) n = Some t ->
        exists t', nth_error (tickets w') n = Some t' /\
                   same_identity t t' /\
                   (if Db.open_for_channel g ch t
                    then open t = true /\ open t' = false
                    else t' = t)) /\
  (forall cfg chs nid ops g ch inter env,
      let w := run_ops ops (fresh_world cfg chs nid) in
      result (ticket_close_logic g ch inter env) w = Ok TicketClosed ->
      let w' := exec (ticket_close_logic g ch inter env) w in
      exists n t,
        nth_error (tickets w) n = Some t /\
        Db.open_for_channel g ch t = true /\
        nth_error (tickets w') n = Some (Db.set_closed t) /\
        forall m t0, m <> n -> nth_error (tickets w) m = Some t0 ->
                     nth_error (tickets w') m = Some t0) /\
  (forall o w n t,
      nth_error (tickets w) n = Some t ->
      exists t', nth_error (tickets (exec_op o w)) n = Some t' /\
                 same_identity t t' /\ (open t' = true -> t' = t)).
Proof.
  split; [|split].
  - intros g ch inter env w H w'. subst w'.
    destruct (closed_run_table g ch inter env w H) as [_ [Ht [Hc Hch]]].
    rewrite Ht, Hc, Hch. split; [apply update_closed_length|].
    split; [reflexivity|]. split; [reflexivity|].
    intros n t Hn. apply update_closed_row, Hn.
  - intros cfg chs nid ops g ch inter env w H w'. subst w'.
    destruct (closed_run_table g ch inter env w H) as [[t Hsel] [Ht _]].
    rewrite Ht.
    assert (Hfresh : channels_fresh w)
      by (apply run_ops_fresh, fresh_world_fresh).
    destruct Hfresh as [Hnd _].
    destruct (find_some_nth _ _ Hsel) as [n [Hn Hopen]].
    exists n, t. split; [exact Hn|]. split; [exact Hopen|].
    rewrite open_for_channel_split in Hopen. apply andb_prop in Hopen as [Hon _].
    split.
    + rewrite (update_closed_nth g ch _ n Hn), Hon. reflexivity.
    + intros m t0 Hneq Hm. rewrite (update_closed_nth g ch _ m Hm).
      destruct (Db.on_channel g ch t0) eqn:E; [|reflexivity].
      exfalso. apply Hneq.
      apply (one_row_per_channel (tickets w) g ch m n Hnd Hm Hn E Hon).
  - intros o w n t Hn.
    apply (table_step_keeps_rows (w := w) n (exec_op_step o w) Hn).
Qed.

(** C8, on the table with Alice's and Bob's tickets, staff closing
    Alice's: her row is the one that flips, Bob's row stays. *)
Lemma close_flips_open_and_nothing_else_witness :
  let w := run_ops [OpOpen (Sample.alice 10) Sample.all_fine;
                    OpOpen (Sample.bob 10) Sample.all_fine] Sample.configured in
  let w' := exec (ticket_close_logic 1 100 (Sample.carol 100) Sample.all_fine) w in
  List.length (tickets w') = List.length (tickets w) /\
  (exists t', nth_error (tickets w') 1 = Some t' /\
              t' = mkTicket 1 8 101 true "2024-11-03T09:00:00") /\
  (exists t', nth_error (tickets w') 0 = Some t' /\
              same_identity (mkTicket 1 7 100 true "2024-11-03T09:00:00") t' /\
              open t' = false).
Proof.
  intros w w'.
  destruct close_flips_open_and_nothing_else as [H _].
  destruct (H 1 100 (Sample.carol 100) Sample.all_fine w) as [Hlen [_ [_ Hrows]]];
    [reflexivity|].
  split; [exact Hlen|]. split.
  - destruct (Hrows 1%nat (mkTicket 1 8 101 true "2024-11-03T09:00:00"))
      as [t' [Hn [_ Hsame]]]; [reflexivity|].
    exists t'. split; [exact Hn | exact Hsame].
  - destruct (Hrows 0%nat (mkTicket 1 7 100 true "2024-11-03T09:00:00"))
      as [t' [Hn [Hid [_ Hclosed]]]]; [reflexivity|].
    exists t'. split; [exact Hn|]. split; [exact Hid | exact Hclosed].
Defined.

Section Freshness.

Lemma exec_bind {A B} (m : M A) (k : A -> M B) w :
  exec (bind m k) w
  = match m w with
    | (Ok a, w') => exec (k a) w'
    | (Raised _, w') => w'
    end.
Proof. unfold exec, bind. destruct (m w) as [[a|e] w']; reflexivity. Qed.

(** Freshness looks at the table and at the allocator only. *)
Lemma fresh_carried w w' :
  tickets w' = tickets w -> next_id w <= next_id w' ->
  channels_fresh w -> channels_fresh w'.
Proof. intros H1 H2. apply table_step_fresh, step_same; assumption. Qed.

Lemma fresh_after_insert w w' g u now :
  tickets w' = Db.insert_ticket g u (next_id w) now (tickets w) ->
  next_id w' = next_id w + 1 ->
  channels_fresh w -> channels_fresh w'.
Proof.
  unfold channels_fresh, Db.insert_ticket. intros H1 H2 [Hnd Hlt].
  rewrite H1, map_app. simpl. split.
  - apply NoDup_app; [exact Hnd | repeat constructor; intros [] |].
    intros c Hc [<- | []]. apply in_map_iff in Hc as [t [Hc Ht]].
    specialize (Hlt t Ht). lia.
  - intros t Ht. rewrite H2. apply in_app_iff in Ht as [Ht | [<- | []]].
    + specialize (Hlt t Ht). lia.
    + simpl. lia.
Qed.

Lemma checks_keep_table inter env w :
  tickets (exec (open_ticket_checks inter env) w) = tickets w /\
  next_id (exec (open_ticket_checks inter env) w) = next_id w.
Proof.
  unfold exec, open_ticket_checks, cfg_get_ticket_cat. step_monad.
  destruct (negb (me_manage_channels env && me_manage_roles env)); simpl;
    [split; reflexivity|].
  destruct (Db.select_config (i_guild inter) (guild_config w)) as [c|]; simpl;
    [|split; reflexivity].
  destruct (truthy (ticket_category_id c)); simpl; [|split; reflexivity].
  destruct (ticket_category_id c) as [cid|]; simpl.
  - destruct (as_category (lookup_channel (i_guild inter) cid (channels w))); simpl;
      [|split; reflexivity].
    destruct (Db.select_open_by_user (i_guild inter) (i_user inter) (tickets w)); simpl;
      split; reflexivity.
  - split; reflexivity.
Qed.

Lemma provision_keeps_fresh inter env cat w :
  channels_fresh w -> channels_fresh (exec (open_ticket_provision inter env cat) w).
Proof.
  intros H. unfold exec, open_ticket_provision. step_monad.
  destruct (create_ok env); simpl; [|exact H].
  destruct (send_ok env); simpl;
    apply (@fresh_after_insert w _ (i_guild inter) (i_user inter) (utcnow env));
    try reflexivity; exact H.
Qed.

Lemma checks_keep_fresh inter env w :
  channels_fresh w -> channels_fresh (exec (open_ticket_checks inter env) w).
Proof.
  destruct (checks_keep_table inter env w) as [H1 H2].
  apply fresh_carried; [exact H1 | lia].
Qed.

(** Presses in flight take their channel ids from the allocator like
    presses in turn. *)
Lemma racing_opens_keep_fresh i1 e1 i2 e2 w :
  channels_fresh w -> channels_fresh (exec (racing_opens i1 e1 i2 e2) w).
Proof.
  intros H. unfold racing_opens. rewrite exec_bind.
  pose proof (checks_keep_fresh i1 e1 H) as H1. unfold exec in H1.
  destruct (open_ticket_checks i1 e1 w) as [[c1|x1] w1]; simpl in H1; [|exact H1].
  rewrite exec_bind.
  pose proof (checks_keep_fresh i2 e2 H1) as H2. unfold exec in H2.
  destruct (open_ticket_checks i2 e2 w1) as [[c2|x2] w2]; simpl in H2; [|exact H2].
  rewrite exec_bind.
  assert (H3 : channels_fresh
                 (exec match c1 with
                       | inl r => ret r
                       | inr category => open_ticket_provision i1 e1 category
                       end w2)).
  { destruct c1 as [r|cat]; [exact H2 | apply provision_keeps_fresh, H2]. }
  unfold exec in H3.
  destruct (match c1 with
            | inl r => ret r
            | inr category => open_ticket_provision i1 e1 category
            end w2) as [[r1|x3] w3]; simpl in H3; [|exact H3].
  rewrite exec_bind.
  assert (H4 : channels_fresh
                 (exec match c2 with
                       | inl r => ret r
                       | inr category => open_ticket_provision i2 e2 category
                       end w3)).
  { destruct c2 as [r|cat]; [exact H3 | apply provision_keeps_fresh, H3]. }
  unfold exec in H4.
  destruct (match c2 with
            | inl r => ret r
            | inr category => open_ticket_provision i2 e2 category
            end w3) as [[r2|x4] w4]; simpl in H4; exact H4.
Qed.

End Freshness.

(** C9. Open/find round trip.  The INSERT of [open_ticket] is always
    given the id that [create_text_channel] has just returned, an id
    no row of the table carries: on every such table, for every guild,
    user and timestamp, the INSERT followed by the SELECT by channel of
    [ticket_close_logic] returns a row whose user is the given user and
    which is open.  So whenever [open_ticket] has answered that the
    ticket was created, the SELECT on the new channel returns the
    caller's open row.  Every table the handlers reach is such a
    table: after any run from an empty table, and still after two
    presses handled in flight. *)
Theorem record_then_find_round_trip :
  (forall w g u now,
      channels_fresh w ->
      exists t,
        Db.select_open_by_channel g (next_id w)
          (Db.insert_ticket g u (next_id w) now (tickets w)) = Some t /\
        user_id t = u /\ open t = true /\
        guild_id t = g /\ channel_id t = next_id w /\ created_at t = now) /\
  (forall w inter env id,
      channels_fresh w ->
      result (open_ticket inter env) w = Ok (TicketCreated id) ->
      exists t,
        Db.select_open_by_channel (i_guild inter) id
          (tickets (exec (open_ticket inter env) w)) = Some t /\
        user_id t = i_user inter /\ open t = true /\ channel_id t = id) /\
  (forall cfg chs nid ops, channels_fresh (run_ops ops (fresh_world cfg chs nid))) /\
  (forall w i1 e1 i2 e2,
      channels_fresh w -> channels_fresh (exec (racing_opens i1 e1 i2 e2) w)).
Proof.
  split; [|split; [|split]].
  - intros w g u now [_ Hlt]. eexists. split.
    + apply select_inserted. apply select_none_above_allocator, Hlt.
    + repeat split.
  - intros w inter env id [_ Hlt] H.
    unfold result in H. unfold exec. rewrite open_ticket_run in *. cbv zeta in *.
    destruct (negb (me_manage_channels env && me_manage_roles env)); [discriminate|].
    destruct (negb (truthy (ticket_cat (i_guild inter) w))); [discriminate|].
    destruct (as_category (category_of (i_guild inter) w)); [|discriminate].
    destruct (Db.select_open_by_user (i_guild inter) (i_user inter) (tickets w));
      [discriminate|].
    destruct (create_ok env); [|discriminate].
    destruct (send_ok env); [|discriminate].
    simpl in *. injection H as <-.
    eexists. split.
    + apply select_inserted. apply select_none_above_allocator, Hlt.
    + repeat split.
  - intros cfg chs nid ops. apply run_ops_fresh, fresh_world_fresh.
  - intros w i1 e1 i2 e2. apply racing_opens_keep_fresh.
Qed.

(** C9, on the table after Alice's first press: the INSERT on the next
    id for Bob, and Bob's own press. *)
Lemma record_then_find_round_trip_witness :
  (exists t, Db.select_open_by_channel 1 101
               (Db.insert_ticket 1 8 101 "2024-11-03T10:00:00"
                                 (tickets Sample.alice_has_ticket)) = Some t /\
             user_id t = 8 /\ open t = true) /\
  (exists t, Db.select_open_by_channel 1 101
               (tickets (exec (open_ticket (Sample.bob 10) Sample.all_fine)
                              Sample.alice_has_ticket)) = Some t /\
             user_id t = 8 /\ open t = true).
Proof.
  destruct record_then_find_round_trip as [H1 [H2 [H3 _]]].
  assert (Hfresh : channels_fresh Sample.alice_has_ticket)
    by apply (H3 [mkGuildConfig 1 (Some 50)]
                 [mkChannel 1 50 CategoryChannel "TICKETS";
                  mkChannel 1 10 TextChannel "suporte"]
                 100 [OpOpen (Sample.alice 10) Sample.all_fine]).
  split.
  - destruct (H1 Sample.alice_has_ticket 1 8 "2024-11-03T10:00:00" Hfresh)
      as [t [Ht [Hu [Ho _]]]].
    exists t. repeat split; assumption.
  - destruct (H2 Sample.alice_has_ticket (Sample.bob 10) Sample.all_fine 101 Hfresh)
      as [t [Ht [Hu [Ho _]]]]; [reflexivity|].
    exists t. repeat split; assumption.
Defined.

Module TranscriptLemmas.
Import Transcript.

Lemma collect_lines_from (msgs : list Message) : forall acc,
  fold_left (fun lines m => lines ++ [render m]) msgs acc = acc ++ map render msgs.
Proof.
  induction msgs as [|m msgs IH]; intros acc; simpl.
  - symmetry. apply app_nil_r.
  - rewrite IH, <- app_assoc. reflexivity.
Qed.

Lemma collect_lines_map msgs : collect_lines msgs = map render msgs.
Proof. unfold collect_lines. apply collect_lines_from. Qed.

Lemma no_newline_app a b :
  no_newline (a ++ b)%string = no_newline a && no_newline b.
Proof.
  induction a as [|c a IH]; simpl; [reflexivity|].
  rewrite IH. apply andb_assoc.
Qed.

Lemma flatten_no_newline s : no_newline (flatten s) = true.
Proof.
  unfold flatten. induction s as [|c s IH]; simpl; [reflexivity|].
  rewrite IH, andb_true_r.
  destruct (Ascii.eqb c newline) eqn:E; [reflexivity|]. rewrite E. reflexivity.
Qed.

Lemma flatten_length s : String.length (flatten s) = String.length s.
Proof.
  unfold flatten. induction s as [|c s IH]; simpl; [reflexivity|]. now rewrite IH.
Qed.

Lemma flatten_without_newline s : no_newline s = true -> flatten s = s.
Proof.
  unfold flatten. induction s as [|c s IH]; simpl; [reflexivity|].
  intros H. apply andb_prop in H as [H1 H2]. apply negb_true_iff in H1.
  rewrite H1, (IH H2). reflexivity.
Qed.

(** Character by character: a newline becomes a space, anything else
    stays. *)
Lemma flatten_get s (i : nat) :
  String.get i (flatten s)
  = option_map (fun c => if Ascii.eqb c newline then space else c) (String.get i s).
Proof.
  unfold flatten. revert i. induction s as [|c s IH]; intros i; simpl; [reflexivity|].
  destruct i; simpl; [reflexivity | apply IH].
Qed.

Lemma digits_no_newline d : no_newline (NilEmpty.string_of_uint d) = true.
Proof. induction d; simpl; auto. Qed.

Lemma two_digits_no_newline n : no_newline (two_digits n) = true.
Proof.
  unfold two_digits. destruct (n <? 10)%nat; simpl; apply digits_no_newline.
Qed.

Lemma strftime_no_newline t : no_newline (strftime t) = true.
Proof.
  unfold strftime. rewrite !no_newline_app, !two_digits_no_newline. reflexivity.
Qed.

Lemma render_no_newline m :
  no_newline (msg_author m) = true -> no_newline (render m) = true.
Proof.
  intros H. unfold render.
  rewrite !no_newline_app, strftime_no_newline, H, flatten_no_newline. reflexivity.
Qed.

Lemma append_assoc (a b c : string) : ((a ++ b) ++ c = a ++ (b ++ c))%string.
Proof. induction a as [|x a IH]; simpl; [reflexivity | now rewrite IH]. Qed.

Lemma append_empty_r (a : string) : (a ++ "")%string = a.
Proof. induction a as [|x a IH]; simpl; [reflexivity | now rewrite IH]. Qed.

Lemma split_lines_aux_prefix s : forall cur rest,
  no_newline s = true ->
  split_lines_aux cur (s ++ rest)%string = split_lines_aux (cur ++ s)%string rest.
Proof.
  induction s as [|c s IH]; intros cur rest H; simpl.
  - now rewrite append_empty_r.
  - simpl in H. apply andb_prop in H as [H1 H2]. apply negb_true_iff in H1.
    rewrite H1, (IH _ _ H2), append_assoc. reflexivity.
Qed.

Lemma split_lines_aux_join ls : forall l cur,
  Forall (fun x => no_newline x = true) (l :: ls) ->
  split_lines_aux cur (join_lines (l :: ls)) = (cur ++ l)%string :: ls.
Proof.
  unfold join_lines.
  induction ls as [|l' ls IH]; intros l cur H.
  - simpl. inversion H; subst.
    rewrite <- (append_empty_r l) at 1.
    rewrite split_lines_aux_prefix by assumption. reflexivity.
  - inversion H as [|? ? Hl Hrest]; subst.
    change (String.concat (String newline "") (l :: l' :: ls))
      with (l ++ (String newline (String.concat (String newline "") (l' :: ls))))%string.
    rewrite split_lines_aux_prefix by assumption.
    change (split_lines_aux (cur ++ l)
              (String newline (String.concat (String newline "") (l' :: ls))))
      with ((cur ++ l)%string
              :: split_lines_aux "" (String.concat (String newline "") (l' :: ls))).
    rewrite (IH l' ""%string Hrest). reflexivity.
Qed.

Lemma split_join ls :
  ls <> [] -> Forall (fun x => no_newline x = true) ls ->
  split_lines (join_lines ls) = ls.
Proof.
  destruct ls as [|l ls]; [congruence|]. intros _ H.
  unfold split_lines. apply (@split_lines_aux_join ls l ""%string H).
Qed.

Lemma join_rendered_not_empty m msgs :
  join_lines (map render (m :: msgs)) <> ""%string.
Proof.
  unfold join_lines. simpl. destruct (map render msgs); discriminate.
Qed.

Lemma or_placeholder_id s : s <> ""%string -> or_placeholder s = s.
Proof. destruct s; [congruence | reflexivity]. Qed.

End TranscriptLemmas.

(** C5. Completeness and format of the transcript.  The loop produces
    one line per message, in the order of the history, the i-th being
    [[timestamp] author: content] for the i-th message with every
    newline of the content replaced by a space (and nothing else of the
    content changed).  With no message the transcript is the one line
    [Sem mensagens.]; with at least one it is the lines joined by
    newlines, is not empty, and, author names being free of newlines,
    has exactly one physical line per message, the rendered lines in
    order. *)
Theorem transcript_is_complete :
  forall msgs : list Message,
    let lines := Transcript.collect_lines msgs in
    let text := Transcript.build_transcript msgs in
    List.length lines = List.length msgs /\
    (forall i m, nth_error msgs i = Some m ->
       nth_error lines i
         = Some ("[" ++ Transcript.strftime (msg_created_at m) ++ "] "
                 ++ msg_author m ++ ": " ++ Transcript.flatten (msg_content m))%string /\
       Transcript.no_newline (Transcript.flatten (msg_content m)) = true /\
       String.length (Transcript.flatten (msg_content m)) = String.length (msg_content m) /\
       (forall k, String.get k (Transcript.flatten (msg_content m))
                  = option_map (fun c => if Ascii.eqb c Transcript.newline
                                         then Transcript.space else c)
                               (String.get k (msg_content m)))) /\
    (msgs = [] ->
       text = "Sem mensagens."%string /\
       Transcript.split_lines text = ["Sem mensagens."%string]) /\
    (msgs <> [] ->
       text = Transcript.join_lines lines /\ text <> ""%string /\
       ((forall m, In m msgs -> Transcript.no_newline (msg_author m) = true) ->
        Transcript.split_lines text = lines /\
        List.length (Transcript.split_lines text) = List.length msgs)).
Proof.
  intros msgs lines text. subst lines text.
  unfold Transcript.build_transcript.
  rewrite TranscriptLemmas.collect_lines_map.
  split; [apply length_map|]. split; [|split].
  - intros i m Hi. rewrite nth_error_map, Hi. simpl.
    split; [reflexivity|]. split; [apply TranscriptLemmas.flatten_no_newline|].
    split; [apply TranscriptLemmas.flatten_length|].
    intros k. apply TranscriptLemmas.flatten_get.
  - intros ->. split; reflexivity.
  - intros Hne. destruct msgs as [|m msgs]; [congruence|].
    rewrite TranscriptLemmas.or_placeholder_id
      by apply TranscriptLemmas.join_rendered_not_empty.
    split; [reflexivity|]. split; [apply TranscriptLemmas.join_rendered_not_empty|].
    intros Hauth.
    assert (Hsplit : Transcript.split_lines
                       (Transcript.join_lines (map Transcript.render (m :: msgs)))
                     = map Transcript.render (m :: msgs)).
    { apply TranscriptLemmas.split_join; [discriminate|].
      apply Forall_forall. intros l Hl. apply in_map_iff in Hl as [m0 [<- Hm0]].
      apply TranscriptLemmas.render_no_newline, Hauth, Hm0. }
    split; [exact Hsplit|]. rewrite Hsplit. apply length_map.
Qed.

(** C5, on a history of two messages, the first with a line break in
    its content, and on an empty history. *)
Lemma transcript_is_complete_witness :
  Transcript.split_lines (Transcript.build_transcript [Sample.msg1; Sample.msg2])
    = ["[03/11 09:05] alice: oi preciso de ajuda"%string;
       "[03/11 09:07] carol: claro"%string] /\
  Transcript.split_lines (Transcript.build_transcript []) = ["Sem mensagens."%string].
Proof.
  split.
  - destruct (transcript_is_complete [Sample.msg1; Sample.msg2]) as [_ [_ [_ H]]].
    destruct H as [_ [_ H]]; [discriminate|].
    destruct H as [H _].
    + intros m [<- | [<- | []]]; reflexivity.
    + exact H.
  - destruct (transcript_is_complete []) as [_ [_ [H _]]].
    destruct H as [_ H]; [reflexivity | exact H].
Defined.

(* ================================================================== *)
(** ** Further properties: guild configuration *)

Module ConfigLemmas.
Import Config.

Lemma select_guild g rows r : select g rows = Some r -> guild r = g.
Proof.
  unfold select. intros H. apply find_some in H as [_ H]. apply Z.eqb_eq, H.
Qed.

Lemma select_map_update g g' kw rows :
  select g' (map (fun r => if guild r =? g then updated kw r else r) rows)
  = option_map (fun r => if guild r =? g then updated kw r else r) (select g' rows).
Proof.
  unfold select. induction rows as [|r rows IH]; simpl; [reflexivity|].
  assert (E : guild (if guild r =? g then updated kw r else r) = guild r)
    by (destruct (guild r =? g); reflexivity).
  rewrite E. destruct (guild r =? g'); [reflexivity | exact IH].
Qed.

Lemma updated_nothing kw r : any_given kw = false -> updated kw r = r.
Proof.
  unfold any_given, updated.
  destruct kw as [[?|] [?|] [?|] [?|] [?|]]; simpl; try discriminate.
  destruct r; reflexivity.
Qed.

Lemma guilds_after_set_cfg g kw rows :
  map guild (set_cfg g kw rows)
  = match select g rows with
    | Some _ => map guild rows
    | None => map guild rows ++ [g]
    end.
Proof.
  unfold set_cfg. destruct (select g rows) as [r0|].
  - destruct (any_given kw); [|reflexivity].
    rewrite map_map. apply map_ext. intros r. destruct (guild r =? g); reflexivity.
  - rewrite map_app. reflexivity.
Qed.

Lemma select_none_not_in g rows : select g rows = None -> ~ In g (map guild rows).
Proof.
  unfold select. intros H Hin. apply in_map_iff in Hin as [r [Hg Hr]].
  apply (find_none _ _ H) in Hr. apply Z.eqb_neq in Hr. congruence.
Qed.

Lemma select_ticket_view g rows :
  Db.select_config g (map ticket_view rows) = option_map ticket_view (select g rows).
Proof.
  unfold Db.select_config, select.
  induction rows as [|r rows IH]; simpl; [reflexivity|].
  destruct (guild r =? g); [reflexivity | exact IH].
Qed.

Lemma select_after_set_cfg g kw rows :
  select g (set_cfg g kw rows)
  = Some match select g rows with
         | Some r => updated kw r
         | None => inserted g kw
         end.
Proof.
  unfold set_cfg. destruct (select g rows) as [r|] eqn:E.
  - destruct (any_given kw) eqn:Ea.
    + rewrite select_map_update, E. simpl.
      rewrite (select_guild _ _ E), Z.eqb_refl. reflexivity.
    + rewrite E, (updated_nothing _ r Ea). reflexivity.
  - unfold select in *. rewrite (find_app_none _ _ _ E). simpl.
    rewrite Z.eqb_refl. reflexivity.
Qed.

End ConfigLemmas.

(** X1. [set_cfg] then [get_cfg] on the same guild: the guild has a
    dict afterwards, in which every field whose key was passed has the
    value passed ([anti_links] read through [or 0]) and every other
    field has the value it had before, or NULL (0 for [anti_links])
    when the guild had no row. *)
Theorem set_cfg_then_get_cfg :
  forall g kw rows,
    exists c,
      Config.get_cfg g (Config.set_cfg g kw rows) = Some c /\
      let old := Config.get_cfg g rows in
      Config.log c = Config.given (Config.k_log kw)
                       (match old with Some o => Config.log o | None => None end) /\
      Config.welcome c = Config.given (Config.k_welcome kw)
                       (match old with Some o => Config.welcome o | None => None end) /\
      Config.autorole c = Config.given (Config.k_autorole kw)
                       (match old with Some o => Config.autorole o | None => None end) /\
      Config.ticket_cat c = Config.given (Config.k_ticket_category kw)
                       (match old with Some o => Config.ticket_cat o | None => None end) /\
      Config.anti c = match Config.k_anti_links kw with
                      | Some v => Config.or_zero v
                      | None => match old with Some o => Config.anti o | None => 0 end
                      end.
Proof.
  intros g kw rows. unfold Config.get_cfg.
  rewrite ConfigLemmas.select_after_set_cfg.
  eexists. split; [reflexivity|].
  destruct (Config.select g rows) as [r|]; simpl; repeat split;
    destruct (Config.k_anti_links kw); reflexivity.
Qed.

(** X2. [set_cfg] on one guild leaves what [get_cfg] returns for every
    other guild, keeps every guild that had a row, and never gives a
    guild a second row (so the INSERT cannot violate the primary key). *)
Theorem set_cfg_touches_one_guild :
  forall g kw rows,
    (forall g', g' <> g ->
       Config.get_cfg g' (Config.set_cfg g kw rows) = Config.get_cfg g' rows) /\
    (forall g', In g' (map Config.guild rows) ->
       In g' (map Config.guild (Config.set_cfg g kw rows))) /\
    (NoDup (map Config.guild rows) ->
       NoDup (map Config.guild (Config.set_cfg g kw rows))).
Proof.
  intros g kw rows. split; [|split].
  - intros g' Hneq. unfold Config.get_cfg, Config.set_cfg.
    destruct (Config.select g rows) as [r|] eqn:E.
    + destruct (Config.any_given kw); [|reflexivity].
      rewrite ConfigLemmas.select_map_update.
      destruct (Config.select g' rows) as [r'|] eqn:E'; simpl; [|reflexivity].
      apply ConfigLemmas.select_guild in E'.
      apply Z.eqb_neq in Hneq. rewrite E', Hneq. reflexivity.
    + unfold Config.select in *.
      destruct (find (fun r => Config.guild r =? g') rows) as [r'|] eqn:E'.
      * rewrite (find_app_some _ _ _ E'). reflexivity.
      * rewrite (find_app_none _ _ _ E'). simpl.
        assert (Hn : (g =? g') = false) by (apply Z.eqb_neq; congruence).
        rewrite Hn. reflexivity.
  - intros g' Hin. rewrite ConfigLemmas.guilds_after_set_cfg.
    destruct (Config.select g rows); [exact Hin | apply in_or_app; left; exact Hin].
  - intros Hnd. rewrite ConfigLemmas.guilds_after_set_cfg.
    destruct (Config.select g rows) eqn:E; [exact Hnd|].
    apply NoDup_app; [exact Hnd | repeat constructor; intros [] |].
    intros a Ha [<- | []]. exact (ConfigLemmas.select_none_not_in _ _ E Ha).
Qed.

(** X2, on a table with one guild, configuring a second one. *)
Lemma set_cfg_touches_one_guild_witness :
  let rows := [Config.mkRow 1 (Some 11) (Some 12) None (Some 50) (Some 0)] in
  let kw := Config.setup_kwargs 21 22 None 60 (Some 1) in
  Config.get_cfg 1 (Config.set_cfg 2 kw rows) = Config.get_cfg 1 rows /\
  NoDup (map Config.guild (Config.set_cfg 2 kw rows)).
Proof.
  intros rows kw.
  destruct (set_cfg_touches_one_guild 2 kw rows) as [H1 [_ H3]]. split.
  - apply H1. lia.
  - apply H3. simpl. repeat constructor; simpl; intuition lia.
Defined.

(** X3. [/setup] and [open_ticket] compose: once [set_cfg] has stored a
    category id other than 0 for the guild, [open_ticket] reads that id
    and never answers NotConfigured there; and when the bot holds both
    permissions, the id is a category of the guild, the caller has no
    open ticket and Discord accepts the calls, the ticket is created on
    the next channel id. *)
Theorem open_ticket_after_setup :
  forall (w : World) rows kw inter env c,
    guild_config w = map Config.ticket_view (Config.set_cfg (i_guild inter) kw rows) ->
    Config.k_ticket_category kw = Some (Some c) ->
    c <> 0 ->
    ticket_cat (i_guild inter) w = Some c /\
    result (open_ticket inter env) w <> Ok NotConfigured /\
    (forall cat,
        me_manage_channels env && me_manage_roles env = true ->
        lookup_channel (i_guild inter) c (channels w) = Some cat ->
        chan_kind cat = CategoryChannel ->
        Db.select_open_by_user (i_guild inter) (i_user inter) (tickets w) = None ->
        create_ok env = true -> send_ok env = true ->
        result (open_ticket inter env) w = Ok (TicketCreated (next_id w))).
Proof.
  intros w rows kw inter env c Hcfg Hkw Hc.
  assert (Hcat : ticket_cat (i_guild inter) w = Some c).
  { unfold ticket_cat.
    rewrite Hcfg, ConfigLemmas.select_ticket_view, ConfigLemmas.select_after_set_cfg.
    simpl. destruct (Config.select (i_guild inter) rows); simpl; rewrite Hkw; reflexivity. }
  assert (Htruthy : truthy (ticket_cat (i_guild inter) w) = true).
  { rewrite Hcat. simpl. apply negb_true_iff, Z.eqb_neq, Hc. }
  split; [exact Hcat|]. split.
  - unfold result. rewrite open_ticket_run. cbv zeta. rewrite Htruthy. simpl.
    destruct (negb (me_manage_channels env && me_manage_roles env)); [discriminate|].
    destruct (as_category (category_of (i_guild inter) w)); [|discriminate].
    destruct (Db.select_open_by_user (i_guild inter) (i_user inter) (tickets w));
      [discriminate|].
    destruct (create_ok env); [|discriminate].
    destruct (send_ok env); discriminate.
  - intros cat Hp Hl Hk Hnone Hcreate Hsend.
    unfold result. rewrite open_ticket_run. cbv zeta.
    rewrite Hp, Htruthy. simpl.
    unfold category_of. rewrite Hcat, Hl. simpl. rewrite Hk, Hnone, Hcreate, Hsend.
    reflexivity.
Qed.

(** X3, for a guild that [/setup] has just configured with category 50. *)
Lemma open_ticket_after_setup_witness :
  ticket_cat 1 Sample.configured = Some 50 /\
  result (open_ticket (Sample.alice 10) Sample.all_fine) Sample.configured
    = Ok (TicketCreated 100).
Proof.
  destruct (@open_ticket_after_setup Sample.configured []
              (Config.setup_kwargs 11 12 None 50 (Some 0))
              (Sample.alice 10) Sample.all_fine 50) as [H1 [_ H3]].
  - reflexivity.
  - reflexivity.
  - lia.
  - split; [exact H1|].
    apply (H3 (mkChannel 1 50 CategoryChannel "TICKETS")); reflexivity.
Defined.

(** X4. A channel and its row come together.  When [open_ticket] answers
    that the ticket was created, the table has exactly one more row,
    open, for the caller and the new channel, stamped [utcnow], and the
    guild exactly one more text channel, [ticket-<name>]; with any other
    answer, and when [create_text_channel] raises, neither table nor
    channels change; when only the welcome message fails, the channel
    and its open row both exist. *)
Theorem open_ticket_row_and_channel_together :
  forall inter env w,
    let g := i_guild inter in
    let w' := exec (open_ticket inter env) w in
    let row := mkTicket g (i_user inter) (next_id w) true (utcnow env) in
    let chan := mkChannel g (next_id w) TextChannel ("ticket-" ++ i_user_name inter)%string in
    match result (open_ticket inter env) w with
    | Ok (TicketCreated id) =>
        id = next_id w /\ tickets w' = tickets w ++ [row] /\
        channels w' = channels w ++ [chan]
    | Ok _ => tickets w' = tickets w /\ channels w' = channels w
    | Raised _ =>
        (create_ok env = false /\ tickets w' = tickets w /\ channels w' = channels w) \/
        (create_ok env = true /\ send_ok env = false /\
         tickets w' = tickets w ++ [row] /\ channels w' = channels w ++ [chan])
    end.
Proof.
  intros inter env w g w' row chan. subst g w' row chan.
  unfold result, exec. rewrite open_ticket_run. cbv zeta.
  destruct (negb (me_manage_channels env && me_manage_roles env)); [split; reflexivity|].
  destruct (negb (truthy (ticket_cat (i_guild inter) w))); [split; reflexivity|].
  destruct (as_category (category_of (i_guild inter) w)); [|split; reflexivity].
  destruct (Db.select_open_by_user (i_guild inter) (i_user inter) (tickets w));
    [split; reflexivity|].
  destruct (create_ok env); [|left; repeat split].
  destruct (send_ok env); simpl; [repeat split | right; repeat split].
Qed.

Section MoreTicketLemmas.

Lemma filter_at_most_one {A} (f : A -> bool) (l : list A) (a b : A) :
  (List.length (filter f l) <= 1)%nat ->
  In a l -> In b l -> f a = true -> f b = true -> a = b.
Proof.
  intros Hlen Ha Hb Hfa Hfb.
  assert (Ia : In a (filter f l)) by (apply filter_In; auto).
  assert (Ib : In b (filter f l)) by (apply filter_In; auto).
  destruct (filter f l) as [|x [|y rest]]; simpl in *.
  - contradiction.
  - destruct Ia as [<-|[]], Ib as [<-|[]]. reflexivity.
  - lia.
Qed.

Lemma open_for_user_on_channel g u t :
  Db.open_for_user g u t = true -> Db.on_channel g (channel_id t) t = true.
Proof.
  unfold Db.open_for_user, Db.on_channel. intros H.
  apply andb_prop in H as [H _]. apply andb_prop in H as [H _].
  rewrite H, Z.eqb_refl. reflexivity.
Qed.

Lemma no_open_row_after_update g u rows t :
  (List.length (filter (Db.open_for_user g u) rows) <= 1)%nat ->
  Db.select_open_by_user g u rows = Some t ->
  Db.select_open_by_user g u (Db.update_closed g (channel_id t) rows) = None.
Proof.
  intros Hinv Hsel. unfold Db.select_open_by_user in *.
  apply find_some in Hsel as [Hin Ht].
  destruct (find (Db.open_for_user g u) (Db.update_closed g (channel_id t) rows))
    as [t'|] eqn:E; [|reflexivity].
  exfalso. apply find_some in E as [Hin' Ht'].
  unfold Db.update_closed in Hin'. apply in_map_iff in Hin' as [t0 [Heq Hin0]].
  destruct (Db.on_channel g (channel_id t) t0) eqn:Eon.
  - subst t'. rewrite open_for_user_closed in Ht'. discriminate.
  - subst t'.
    assert (t0 = t) by (apply (filter_at_most_one _ rows t0 t Hinv); assumption).
    subst t0. rewrite (open_for_user_on_channel g u t Ht) in Eon. discriminate.
Qed.

Lemma open_rows_after_update g ch u rows :
  filter (Db.open_for_user g u) (Db.update_closed g ch rows)
  = filter (fun t => Db.open_for_user g u t && negb (Db.on_channel g ch t)) rows.
Proof.
  unfold Db.update_closed. induction rows as [|t rows IH]; simpl; [reflexivity|].
  destruct (Db.on_channel g ch t); simpl.
  - rewrite open_for_user_closed, andb_false_r. exact IH.
  - rewrite andb_true_r. destruct (Db.open_for_user g u t); rewrite IH; reflexivity.
Qed.

End MoreTicketLemmas.

(** X5. What a close leaves open.  After a successful close of channel
    [ch], the open rows of any user in that guild are exactly the rows
    that were open before on other channels.  So when the ticket closed
    was the only one the user had open (as it is whenever presses are
    handled in turn), the duplicate check of [open_ticket] finds
    nothing afterwards and the closed row is still in the table: a
    closed ticket does not block a new one.  When the user had another
    ticket open on a different channel (two presses in flight), the
    duplicate check still finds a row after the close. *)
Theorem closed_ticket_does_not_block_reopening :
  forall g ch closer env w,
    result (ticket_close_logic g ch closer env) w = Ok TicketClosed ->
    let w' := exec (ticket_close_logic g ch closer env) w in
    (forall u,
        filter (Db.open_for_user g u) (tickets w')
        = filter (fun t => Db.open_for_user g u t && negb (Db.on_channel g ch t))
                 (tickets w)) /\
    (forall u t,
        Db.select_open_by_user g u (tickets w) = Some t -> channel_id t = ch ->
        (List.length (filter (Db.open_for_user g u) (tickets w)) <= 1)%nat ->
        Db.select_open_by_user g u (tickets w') = None /\
        In (Db.set_closed t) (tickets w')) /\
    (forall u t2,
        In t2 (tickets w) -> Db.open_for_user g u t2 = true -> channel_id t2 <> ch ->
        Db.select_open_by_user g u (tickets w') <> None).
Proof.
  intros g ch closer env w Hres w'. subst w'.
  destruct (closed_run_table g ch closer env w Hres) as [_ [Ht _]].
  rewrite Ht. split; [|split].
  - intros u. apply open_rows_after_update.
  - intros u t Hsel <- Hone. split.
    + apply no_open_row_after_update; assumption.
    + unfold Db.select_open_by_user in Hsel. apply find_some in Hsel as [Hin Hop].
      unfold Db.update_closed. apply in_map_iff. exists t. split; [|exact Hin].
      rewrite (open_for_user_on_channel g u t Hop). reflexivity.
  - intros u t2 Hin Hop Hne Hnone.
    unfold Db.select_open_by_user in Hnone. apply find_none_filter in Hnone.
    rewrite open_rows_after_update in Hnone.
    assert (Hin2 : In t2 (filter (fun t => Db.open_for_user g u t
                                           && negb (Db.on_channel g ch t)) (tickets w))).
    { apply filter_In. split; [exact Hin|]. rewrite Hop. simpl.
      apply negb_true_iff. unfold Db.on_channel.
      assert (E : (channel_id t2 =? ch) = false) by (apply Z.eqb_neq, Hne).
      rewrite E. apply andb_false_r. }
    rewrite Hnone in Hin2. exact Hin2.
Qed.

(** X5, after Alice's only ticket was closed by staff, and after the
    first of her two tickets from presses in flight was closed. *)
Lemma closed_ticket_does_not_block_reopening_witness :
  let w := Sample.alice_has_ticket in
  let raced := exec (racing_opens (Sample.alice 10) Sample.all_fine
                                  (Sample.alice 10) Sample.all_fine) Sample.configured in
  Db.select_open_by_user 1 7
    (tickets (exec (ticket_close_logic 1 100 (Sample.carol 100) Sample.all_fine) w)) = None /\
  Db.select_open_by_user 1 7
    (tickets (exec (ticket_close_logic 1 100 (Sample.carol 100) Sample.all_fine) raced))
    <> None.
Proof.
  intros w raced. split.
  - destruct (@closed_ticket_does_not_block_reopening 1 100 (Sample.carol 100)
                Sample.all_fine w) as [_ [H _]]; [reflexivity|].
    destruct (H 7 (mkTicket 1 7 100 true "2024-11-03T09:00:00")) as [Hn _];
      [reflexivity | reflexivity | simpl; lia | exact Hn].
  - destruct (@closed_ticket_does_not_block_reopening 1 100 (Sample.carol 100)
                Sample.all_fine raced) as [_ [_ H]]; [reflexivity|].
    apply (H 7 (mkTicket 1 7 101 true "2024-11-03T09:00:00")).
    + simpl. right. left. reflexivity.
    + reflexivity.
    + simpl. lia.
Defined.

Section EntryRuns.

Variables (inter : Interaction) (env : Env) (w : World).

Lemma close_ticket_run :
  close_ticket inter env w =
  if is_text (i_channel_kind inter)
  then ticket_close_logic (i_guild inter) (i_channel inter) inter env (logged w [Defer])
  else (Ok UseInTicketChannel, logged w [Respond UseInTicketChannel]).
Proof. unfold close_ticket. destruct (is_text (i_channel_kind inter)); reflexivity. Qed.

Lemma ticketclose_run :
  ticketclose inter env w =
  if i_manage_guild inter then close_ticket inter env w else (Raised AppCommandError, w).
Proof.
  unfold ticketclose, close_ticket, staff_check, bind at 1.
  destruct (i_manage_guild inter); reflexivity.
Qed.

Lemma inline_close_run opener g ch :
  inline_close opener g ch inter env w =
  if (i_user inter =? opener) || i_manage_channels inter
  then ticket_close_logic g ch inter env (logged w [Defer])
  else (Ok InlineForbidden, logged w [Respond InlineForbidden]).
Proof.
  unfold inline_close. rewrite <- negb_orb.
  destruct ((i_user inter =? opener) || i_manage_channels inter); reflexivity.
Qed.

End EntryRuns.

Section Authorization.

Lemma unauthorized_may_close inter t :
  unauthorized inter (user_id t) = negb (may_close inter t).
Proof. unfold unauthorized, may_close. symmetry. apply negb_orb. Qed.

Lemma close_logic_outcome g ch inter env w t msgs :
  Db.select_open_by_channel g ch (tickets w) = Some t ->
  history env = Some msgs -> send_ok env = true ->
  result (ticket_close_logic g ch inter env) w
  = if may_close inter t then Ok TicketClosed else Ok Forbidden.
Proof.
  intros Hsel Hh Hs. unfold result.
  rewrite ticket_close_logic_run, Hsel, unauthorized_may_close, Hh, Hs.
  destruct (may_close inter t); reflexivity.
Qed.

End Authorization.

(** X6. Who can close an open ticket, entry point by entry point (the
    history being readable and the transcript accepted).  The panel
    button closes for the owner and for members with Manage Channels
    and answers Forbidden to anyone else.  [/ticketclose] raises for
    callers without Manage Server, the owner included, and otherwise
    decides like the panel button.  The button inside the ticket
    refuses callers that are neither the opener nor hold Manage
    Channels, and otherwise decides like the panel button. *)
Theorem who_can_close_where :
  forall inter env w t msgs,
    i_channel_kind inter = TextChannel ->
    Db.select_open_by_channel (i_guild inter) (i_channel inter) (tickets w) = Some t ->
    history env = Some msgs -> send_ok env = true ->
    let decided := if may_close inter t then Ok TicketClosed else Ok Forbidden in
    result (close_ticket inter env) w = decided /\
    result (ticketclose inter env) w
      = (if i_manage_guild inter then decided else Raised AppCommandError) /\
    (forall opener,
        result (inline_close opener (i_guild inter) (i_channel inter) inter env) w
        = if (i_user inter =? opener) || i_manage_channels inter
          then decided else Ok InlineForbidden).
Proof.
  intros inter env w t msgs Hk Hsel Hh Hs decided. subst decided.
  assert (Hd : result (ticket_close_logic (i_guild inter) (i_channel inter) inter env)
                      (logged w [Defer])
               = if may_close inter t then Ok TicketClosed else Ok Forbidden)
    by (apply (close_logic_outcome _ _ inter env (logged w [Defer]) (t := t) (msgs := msgs));
        assumption).
  unfold result in *. split; [|split].
  - rewrite close_ticket_run, Hk. exact Hd.
  - rewrite ticketclose_run, close_ticket_run, Hk. simpl.
    destruct (i_manage_guild inter); [exact Hd | reflexivity].
  - intros opener. rewrite inline_close_run.
    destruct ((i_user inter =? opener) || i_manage_channels inter); [exact Hd | reflexivity].
Qed.

(** X6, in Alice's ticket: Alice herself through the panel button and
    through the command, and Bob through the inline button. *)
Lemma who_can_close_where_witness :
  result (close_ticket (Sample.alice 100) Sample.all_fine) Sample.alice_has_ticket
    = Ok TicketClosed /\
  result (ticketclose (Sample.alice 100) Sample.all_fine) Sample.alice_has_ticket
    = Raised AppCommandError /\
  result (inline_close 7 1 100 (Sample.bob 100) Sample.all_fine) Sample.alice_has_ticket
    = Ok InlineForbidden.
Proof.
  destruct (@who_can_close_where (Sample.alice 100) Sample.all_fine Sample.alice_has_ticket
              (mkTicket 1 7 100 true "2024-11-03T09:00:00") [Sample.msg1; Sample.msg2])
    as [H1 [H2 _]]; try reflexivity.
  destruct (@who_can_close_where (Sample.bob 100) Sample.all_fine Sample.alice_has_ticket
              (mkTicket 1 7 100 true "2024-11-03T09:00:00") [Sample.msg1; Sample.msg2])
    as [_ [_ H3]]; try reflexivity.
  split; [exact H1|]. split; [exact H2 | exact (H3 7)].
Defined.

Section Answers.

Lemma answered_once_reply r e :
  is_reply_of r e -> answered_once (Ok r) [e].
Proof. intros H. exists [], e. repeat split. exact H. Qed.

Lemma answered_once_after (res : Res Reply) (quiet evs : list Event) :
  count_replies quiet = O -> answered_once res evs -> answered_once res (quiet ++ evs).
Proof.
  unfold answered_once, count_replies. intros Hq. destruct res as [r|x].
  - intros [pre [e [-> [He Hp]]]]. exists (quiet ++ pre), e.
    rewrite app_assoc. split; [reflexivity|]. split; [exact He|].
    rewrite filter_app, length_app. lia.
  - intros H. rewrite filter_app, length_app. lia.
Qed.

Lemma close_logic_answers g ch inter env w :
  exists evs,
    trace (exec (ticket_close_logic g ch inter env) w) = trace w ++ evs /\
    answered_once (result (ticket_close_logic g ch inter env) w) evs.
Proof.
  unfold exec, result. rewrite ticket_close_logic_run.
  destruct (Db.select_open_by_channel g ch (tickets w)) as [t|].
  - destruct (unauthorized inter (user_id t)).
    + eexists. split; [reflexivity|]. apply answered_once_reply. left; reflexivity.
    + destruct (history env) as [msgs|].
      * destruct (send_ok env); simpl.
        -- eexists. split; [tidy_trace; reflexivity|].
           apply (answered_once_after (Ok TicketClosed)
                    [HistoryRead ch; CloseCommitted g ch;
                     TranscriptSent ch (Transcript.build_transcript msgs)]
                    [Followup TicketClosed]); [reflexivity|].
           apply answered_once_reply. left; reflexivity.
        -- eexists. split; reflexivity.
      * exists []. split; [symmetry; apply app_nil_r | reflexivity].
  - eexists. split; [reflexivity|]. apply answered_once_reply. left; reflexivity.
Qed.

Lemma deferred_close_answers g ch inter env w :
  answered_once (result (ticket_close_logic g ch inter env) (logged w [Defer]))
    (new_events w (exec (ticket_close_logic g ch inter env) (logged w [Defer]))).
Proof.
  destruct (close_logic_answers g ch inter env (logged w [Defer])) as [evs [Ht Ha]].
  rewrite (@new_events_logged w _ ([Defer] ++ evs))
    by (rewrite Ht; simpl; tidy_trace; reflexivity).
  apply answered_once_after; [reflexivity | exact Ha].
Qed.

End Answers.

(** X7. Every run answers the interaction exactly once, last.  For
    [open_ticket] and for the three close entry points: when the
    handler returns, the events it added end with its one answer (a
    follow-up or a direct response) and hold no other answer; when it
    raises, it has sent no answer. *)
Theorem every_run_answers_once :
  forall inter env w,
    answered_once (result (open_ticket inter env) w)
                  (new_events w (exec (open_ticket inter env) w)) /\
    answered_once (result (close_ticket inter env) w)
                  (new_events w (exec (close_ticket inter env) w)) /\
    answered_once (result (ticketclose inter env) w)
                  (new_events w (exec (ticketclose inter env) w)) /\
    (forall opener g ch,
        answered_once (result (inline_close opener g ch inter env) w)
                      (new_events w (exec (inline_close opener g ch inter env) w))).
Proof.
  intros inter env w. split; [|split; [|split]].
  - unfold result, exec. rewrite open_ticket_run. cbv zeta.
    destruct (negb (me_manage_channels env && me_manage_roles env)).
    { simpl. erewrite new_events_logged by reflexivity.
      apply (answered_once_after (Ok InsufficientPermissions) [Defer]); [reflexivity|].
      apply answered_once_reply. left; reflexivity. }
    destruct (negb (truthy (ticket_cat (i_guild inter) w))).
    { simpl. erewrite new_events_logged by reflexivity.
      apply (answered_once_after (Ok NotConfigured) [Defer]); [reflexivity|].
      apply answered_once_reply. left; reflexivity. }
    destruct (as_category (category_of (i_guild inter) w)) as [cat|].
    2:{ simpl. erewrite new_events_logged by reflexivity.
        apply (answered_once_after (Ok InvalidCategory) [Defer]); [reflexivity|].
        apply answered_once_reply. left; reflexivity. }
    destruct (Db.select_open_by_user (i_guild inter) (i_user inter) (tickets w)) as [t|].
    { simpl. erewrite new_events_logged by reflexivity.
      apply (answered_once_after (Ok (DuplicateTicket _)) [Defer]); [reflexivity|].
      apply answered_once_reply. left; reflexivity. }
    destruct (create_ok env).
    2:{ simpl. erewrite new_events_logged by reflexivity. reflexivity. }
    destruct (send_ok env); simpl.
    + erewrite new_events_logged by (simpl; tidy_trace; reflexivity).
      apply (answered_once_after (Ok (TicketCreated (next_id w)))
               [Defer; CreateTextChannel _ _ _ _; InsertCommitted _; WelcomeSent _]
               [Followup (TicketCreated (next_id w))]); [reflexivity|].
      apply answered_once_reply. left; reflexivity.
    + erewrite new_events_logged by reflexivity. reflexivity.
  - unfold result, exec. rewrite close_ticket_run.
    destruct (is_text (i_channel_kind inter)).
    + apply deferred_close_answers.
    + simpl. erewrite new_events_logged by reflexivity.
      apply answered_once_reply. right; reflexivity.
  - unfold result, exec. rewrite ticketclose_run, close_ticket_run.
    destruct (i_manage_guild inter).
    + destruct (is_text (i_channel_kind inter)).
      * apply deferred_close_answers.
      * simpl. erewrite new_events_logged by reflexivity.
        apply answered_once_reply. right; reflexivity.
    + simpl. erewrite (@new_events_logged w w []) by (symmetry; apply app_nil_r).
      reflexivity.
  - intros opener g ch. unfold result, exec. rewrite inline_close_run.
    destruct ((i_user inter =? opener) || i_manage_channels inter).
    + apply deferred_close_answers.
    + simpl. erewrite new_events_logged by reflexivity.
      apply answered_once_reply. right; reflexivity.
Qed.

(* ================================================================== *)
(** ** Further properties: economy *)

Module EconomyLemmas.
Import Economy.

Lemma has_key_eq g u r : has_key g u r = true <-> e_guild r = g /\ e_user r = u.
Proof.
  unfold has_key. rewrite andb_true_iff, !Z.eqb_eq. reflexivity.
Qed.

Lemma has_key_self r : has_key (e_guild r) (e_user r) r = true.
Proof. apply has_key_eq. split; reflexivity. Qed.

Lemma find_filter_keeps {A} (f p : A -> bool) (l : list A) :
  (forall x, f x = true -> p x = true) -> find f (filter p l) = find f l.
Proof.
  intros H. induction l as [|a l IH]; simpl; [reflexivity|].
  destruct (p a) eqn:Ep; simpl.
  - destruct (f a); [reflexivity | exact IH].
  - destruct (f a) eqn:Ef; [|exact IH]. apply H in Ef. congruence.
Qed.

Lemma find_filter_none {A} (f p : A -> bool) (l : list A) :
  (forall x, f x = true -> p x = false) -> find f (filter p l) = None.
Proof.
  intros H. induction l as [|a l IH]; simpl; [reflexivity|].
  destruct (p a) eqn:Ep; simpl; [|exact IH].
  destruct (f a) eqn:Ef; [|exact IH]. apply H in Ef. congruence.
Qed.

Lemma select_replaced r rows :
  select (e_guild r) (e_user r) (replace_into r rows) = Some r.
Proof.
  unfold select, replace_into.
  rewrite find_app_none.
  - simpl. rewrite has_key_self. reflexivity.
  - apply find_filter_none. intros x Hx. rewrite Hx. reflexivity.
Qed.

Lemma select_replaced_other g u r rows :
  has_key g u r = false ->
  select g u (replace_into r rows) = select g u rows.
Proof.
  intros Hk. unfold select, replace_into.
  assert (Hf : find (has_key g u)
                 (filter (fun x => negb (has_key (e_guild r) (e_user r) x)) rows)
               = find (has_key g u) rows).
  { apply find_filter_keeps. intros x Hx. apply negb_true_iff.
    destruct (has_key (e_guild r) (e_user r) x) eqn:E; [|reflexivity].
    apply has_key_eq in Hx as [Hg Hu]. apply has_key_eq in E as [Hg' Hu'].
    assert (has_key g u r = true) by (apply has_key_eq; split; congruence).
    congruence. }
  destruct (find (has_key g u) rows) as [x|] eqn:E.
  - apply find_app_some. rewrite Hf. reflexivity.
  - rewrite find_app_none by (rewrite Hf; reflexivity).
    simpl. rewrite Hk. reflexivity.
Qed.

Lemma total_app a b : total (a ++ b) = total a + total b.
Proof.
  unfold total. induction a as [|r a IH]; simpl; [reflexivity|].
  fold (total (a ++ b)) in *. fold (total a) in *. fold (total b) in *. lia.
Qed.

Lemma filter_key_absent g u rows :
  ~ In (g, u) (map (fun r => (e_guild r, e_user r)) rows) ->
  filter (fun x => negb (has_key g u x)) rows = rows /\ select g u rows = None.
Proof.
  unfold select. induction rows as [|r rows IH]; simpl; intros Hn; [split; reflexivity|].
  destruct (has_key g u r) eqn:E.
  - exfalso. apply Hn. left. apply has_key_eq in E as [-> ->]. reflexivity.
  - simpl. destruct IH as [IH1 IH2]; [tauto|]. rewrite IH1. split; [reflexivity | exact IH2].
Qed.

Lemma total_without_key g u rows :
  keys_unique rows ->
  total (filter (fun x => negb (has_key g u x)) rows)
  = total rows - balance_or_zero (select g u rows).
Proof.
  unfold keys_unique, select. induction rows as [|r rows IH]; simpl; intros Hnd.
  - reflexivity.
  - inversion Hnd as [|? ? Hnotin Hnd']; subst.
    destruct (has_key g u r) eqn:E; simpl.
    + apply has_key_eq in E as [<- <-].
      destruct (filter_key_absent _ _ rows Hnotin) as [-> _].
      unfold total. simpl. lia.
    + rewrite (IH Hnd'). unfold total. simpl. lia.
Qed.

Lemma total_replaced r rows :
  keys_unique rows ->
  total (replace_into r rows)
  = total rows - balance_or_zero (select (e_guild r) (e_user r) rows) + e_balance r.
Proof.
  intros H. unfold replace_into. rewrite total_app, (total_without_key _ _ H).
  unfold total. simpl. lia.
Qed.

Lemma keys_unique_replaced r rows :
  keys_unique rows -> keys_unique (replace_into r rows).
Proof.
  unfold keys_unique, replace_into. intros H. rewrite map_app. simpl.
  apply NoDup_app.
  - induction rows as [|x rows IH]; simpl; [constructor|].
    inversion H as [|? ? Hn Hnd]; subst.
    destruct (negb (has_key (e_guild r) (e_user r) x)); simpl; [|apply IH, Hnd].
    constructor; [|apply IH, Hnd].
    intros Hin. apply Hn. apply in_map_iff in Hin as [y [Hy Hin]].
    apply filter_In in Hin as [Hin _]. apply in_map_iff. exists y. auto.
  - repeat constructor. intros [].
  - intros k Hk [<- | []]. apply in_map_iff in Hk as [y [Hy Hin]].
    apply filter_In in Hin as [_ Hneg]. apply negb_true_iff in Hneg.
    injection Hy as Hg Hu.
    assert (has_key (e_guild r) (e_user r) y = true) by (apply has_key_eq; auto).
    congruence.
Qed.

Lemma in_replaced x r rows :
  In x (replace_into r rows) -> x = r \/ In x rows.
Proof.
  unfold replace_into. intros H. apply in_app_iff in H as [H | [<- | []]].
  - right. apply filter_In in H as [H _]. exact H.
  - left. reflexivity.
Qed.

Lemma has_key_other_user g u member r :
  member <> u -> e_guild r = g -> e_user r = u -> has_key g member r = false.
Proof.
  intros Hn Hg Hu. destruct (has_key g member r) eqn:E; [|reflexivity].
  apply has_key_eq in E as [_ E]. congruence.
Qed.

Lemma dict_get_set_same k v d : dict_get k (dict_set k v d) = v.
Proof.
  induction d as [|[k' v'] d IH]; simpl.
  - rewrite String.eqb_refl. reflexivity.
  - destruct (String.eqb k' k) eqn:E; simpl; rewrite E; [reflexivity | exact IH].
Qed.

Lemma dict_get_set_other k k0 v d :
  k0 <> k -> dict_get k0 (dict_set k v d) = dict_get k0 d.
Proof.
  intros Hn. induction d as [|[k' v'] d IH]; simpl.
  - assert (E : String.eqb k k0 = false) by (apply String.eqb_neq; congruence).
    rewrite E. reflexivity.
  - destruct (String.eqb k' k) eqn:E; simpl.
    + apply String.eqb_eq in E. subst k'.
      assert (E0 : String.eqb k k0 = false) by (apply String.eqb_neq; congruence).
      rewrite E0. reflexivity.
    + destruct (String.eqb k' k0); [reflexivity | exact IH].
Qed.

Lemma price_in_shop item shop c : price item shop = Some c -> In (item, c) shop.
Proof.
  induction shop as [|[k v] shop IH]; simpl; [discriminate|].
  destruct (String.eqb k item) eqn:E.
  - apply String.eqb_eq in E. intros H. injection H as <-. subst k. left; reflexivity.
  - intros H. right. apply IH, H.
Qed.

Lemma shop_prices_positive item c : In (item, c) SHOP_ITEMS -> 0 < c.
Proof.
  unfold SHOP_ITEMS. simpl.
  intros [H | [H | [H | []]]]; injection H as _ <-; lia.
Qed.

Lemma dict_set_not_empty k v d : dict_set k v d <> [].
Proof. destruct d as [|[k' v'] d]; simpl; [|destruct (String.eqb k' k)]; discriminate. Qed.

End EconomyLemmas.

(** X8. The money supply.  Under the primary key of [economy], whenever
    a command answers, the sum of all balances has changed by exactly
    what the answer says: [/daily] adds 250 when it pays out, [/buy]
    takes the price of the item bought, [/pay] moves money without
    creating or destroying any, and a refusal changes nothing.  A
    command ends without an answer only when a balance it writes does
    not fit the 64-bit INTEGER; the table is then as it was, except in
    [/pay] failing on the payee, where the payer's deduction is
    already committed and the sum is lower by the amount.  The primary
    key holds afterwards in every case.  When every balance the command
    writes fits, it ends as the unchecked commands do. *)
Theorem money_supply :
  forall c rows,
    Economy.keys_unique rows ->
    match EconomyChecked.run c rows with
    | EconomyChecked.Answered a rows' =>
        Economy.total rows' = Economy.total rows + Economy.minted a /\
        Economy.keys_unique rows'
    | EconomyChecked.Overflowed rows' =>
        Economy.keys_unique rows' /\
        (rows' = rows \/
         exists g u member amount,
           c = Economy.Pay g u member amount /\
           Economy.total rows' = Economy.total rows - amount)
    end /\
    (Forall (fun z => EconomyChecked.int64 z = true) (EconomyChecked.written c rows) ->
     EconomyChecked.run c rows
       = EconomyChecked.Answered (fst (Economy.run c rows)) (snd (Economy.run c rows))).
Proof.
  intros c rows Hk.
  assert (Hsave : forall g u bal inv last t,
            Economy.keys_unique t ->
            Economy.total (Economy._save_econ g u bal inv last t)
              = Economy.total t - Economy.balance_or_zero (Economy.select g u t) + bal /\
            Economy.keys_unique (Economy._save_econ g u bal inv last t)).
  { intros g u bal inv last t Ht. unfold Economy._save_econ. split.
    - rewrite (EconomyLemmas.total_replaced _ Ht). reflexivity.
    - apply EconomyLemmas.keys_unique_replaced, Ht. }
  destruct c as [g u today now | g u member amount | lower g u item];
    cbv beta iota zeta delta [EconomyChecked.run EconomyChecked.written Economy.run].
  - unfold EconomyChecked.daily, Economy.daily, EconomyChecked._save_econ.
    destruct (Hsave g u (Economy.balance_or_zero (Economy.select g u rows)
                         + Economy.DAILY_AMOUNT)
                    (Economy._get_inv (Economy.select g u rows)) (Some now) rows Hk)
      as [H1 H2].
    destruct (option_map Economy.date
                (Economy.last_daily_or_none (Economy.select g u rows))) as [d|].
    + destruct (d =? today); simpl.
      * split; [split; [lia | exact Hk] | reflexivity].
      * destruct (EconomyChecked.int64 _) eqn:Ei; simpl.
        -- split; [split; [rewrite H1; lia | exact H2] | reflexivity].
        -- split; [split; [exact Hk | left; reflexivity]|].
           intros Hf. inversion Hf; subst. congruence.
    + destruct (EconomyChecked.int64 _) eqn:Ei; simpl.
      * split; [split; [rewrite H1; lia | exact H2] | reflexivity].
      * split; [split; [exact Hk | left; reflexivity]|].
        intros Hf. inversion Hf; subst. congruence.
  - unfold EconomyChecked.pay, Economy.pay, EconomyChecked._save_econ.
    destruct (member =? u) eqn:Eself; simpl;
      [split; [split; [lia | exact Hk] | reflexivity]|].
    destruct (Economy.balance_or_zero (Economy.select g u rows) <? amount); simpl;
      [split; [split; [lia | exact Hk] | reflexivity]|].
    apply Z.eqb_neq in Eself.
    set (mybal := Economy.balance_or_zero (Economy.select g u rows)).
    set (rows1 := Economy._save_econ g u (mybal - amount)
                    (Economy._get_inv (Economy.select g u rows))
                    (Economy.last_daily_or_none (Economy.select g u rows)) rows).
    destruct (Hsave g u (mybal - amount) (Economy._get_inv (Economy.select g u rows))
                    (Economy.last_daily_or_none (Economy.select g u rows)) rows Hk)
      as [H1 Hk1].
    fold rows1 in H1, Hk1. fold mybal in H1.
    assert (Hother : Economy.select g member rows1 = Economy.select g member rows).
    { unfold rows1, Economy._save_econ. apply EconomyLemmas.select_replaced_other.
      apply (EconomyLemmas.has_key_other_user (g := g) (u := u)); auto. }
    destruct (Hsave g member (Economy.balance_or_zero (Economy.select g member rows) + amount)
                    (Economy._get_inv (Economy.select g member rows))
                    (Economy.last_daily_or_none (Economy.select g member rows)) rows1 Hk1)
      as [H2 Hk2].
    rewrite Hother in H2.
    destruct (EconomyChecked.int64 (mybal - amount)) eqn:E1; simpl.
    + destruct (EconomyChecked.int64
                  (Economy.balance_or_zero (Economy.select g member rows) + amount))
        eqn:E2; simpl.
      * split; [split; [rewrite H2, H1; lia | exact Hk2] | reflexivity].
      * split.
        -- split; [exact Hk1|]. right. exists g, u, member, amount.
           split; [reflexivity | rewrite H1; lia].
        -- intros Hf. inversion Hf as [|? ? _ Hf']; subst.
           inversion Hf'; subst. congruence.
    + split; [split; [exact Hk | left; reflexivity]|].
      intros Hf. inversion Hf; subst. congruence.
  - unfold EconomyChecked.buy, Economy.buy, EconomyChecked._save_econ.
    destruct (Economy.price (lower item) Economy.SHOP_ITEMS) as [cost|]; simpl;
      [|split; [split; [lia | exact Hk] | reflexivity]].
    destruct (Economy.balance_or_zero (Economy.select g u rows) <? cost); simpl;
      [split; [split; [lia | exact Hk] | reflexivity]|].
    match goal with
    | |- context [Economy._save_econ g u ?b ?i ?l rows] =>
        destruct (Hsave g u b i l rows Hk) as [H1 H2]
    end.
    destruct (EconomyChecked.int64 _) eqn:Ei; simpl.
    + split; [split; [rewrite H1; simpl; lia | exact H2] | reflexivity].
    + split; [split; [exact Hk | left; reflexivity]|].
      intros Hf. inversion Hf; subst. congruence.
Qed.

(** X8, on a table with two members, one paying the other; and with a
    payee at the top of the 64-bit range. *)
Lemma money_supply_witness :
  let rows := [Economy.mkRow 1 7 300 None None; Economy.mkRow 1 8 20 None None] in
  let full := [Economy.mkRow 1 7 300 None None;
               Economy.mkRow 1 8 (2 ^ 63 - 1) None None] in
  (exists rows', EconomyChecked.run (Economy.Pay 1 7 8 120) rows
                 = EconomyChecked.Answered (Economy.Paid 120) rows' /\
                 Economy.total rows' = 320) /\
  (exists rows', EconomyChecked.run (Economy.Pay 1 7 8 120) full
                 = EconomyChecked.Overflowed rows' /\
                 Economy.total rows' = Economy.total full - 120).
Proof.
  intros rows full.
  assert (Hk : Economy.keys_unique rows)
    by (unfold Economy.keys_unique; simpl; repeat constructor; simpl; intuition congruence).
  assert (Hk' : Economy.keys_unique full)
    by (unfold Economy.keys_unique; simpl; repeat constructor; simpl; intuition congruence).
  split.
  - destruct (money_supply (Economy.Pay 1 7 8 120) Hk) as [H Hfit].
    rewrite Hfit in H by (repeat constructor).
    eexists. split; [apply Hfit; repeat constructor|].
    destruct H as [H _]. exact H.
  - pose proof (money_supply (Economy.Pay 1 7 8 120) Hk') as [H _].
    destruct (EconomyChecked.run (Economy.Pay 1 7 8 120) full) as [a r|r] eqn:E;
      [discriminate E|].
    exists r. split; [reflexivity|].
    injection E as <-. reflexivity.
Defined.

(** X9. What [/pay] does.  It answers that it paid only for another
    member and an amount the payer's balance covers; then the payer has
    exactly [amount] less, the payee exactly [amount] more (a payee
    without a row is given one), both keep their inventory and their
    [last_daily], and the row of every other member is what it was.
    Paying oneself and paying more than one has are refused with the
    table unchanged. *)
Theorem pay_moves_the_amount :
  forall g u member amount rows,
    let bal x t := Economy.balance_or_zero (Economy.select g x t) in
    let rows' := snd (Economy.pay g u member amount rows) in
    (member = u -> Economy.pay g u member amount rows = (Economy.PaySelf, rows)) /\
    (member <> u -> bal u rows < amount ->
       Economy.pay g u member amount rows = (Economy.PayInsufficient, rows)) /\
    (fst (Economy.pay g u member amount rows) = Economy.Paid amount ->
       member <> u /\ amount <= bal u rows /\
       bal u rows' = bal u rows - amount /\
       bal member rows' = bal member rows + amount /\
       (forall x, Economy._get_inv (Economy.select g x rows')
                  = Economy._get_inv (Economy.select g x rows)) /\
       (forall x, Economy.last_daily_or_none (Economy.select g x rows')
                  = Economy.last_daily_or_none (Economy.select g x rows)) /\
       (forall g' x, (g', x) <> (g, u) -> (g', x) <> (g, member) ->
                     Economy.select g' x rows' = Economy.select g' x rows)).
Proof.
  intros g u member amount rows bal rows'. subst bal rows'.
  unfold Economy.pay. split; [|split].
  - intros ->. rewrite Z.eqb_refl. reflexivity.
  - intros Hn Hlt. apply Z.eqb_neq in Hn. apply Z.ltb_lt in Hlt.
    rewrite Hn, Hlt. reflexivity.
  - destruct (member =? u) eqn:Eself; simpl; [discriminate|].
    destruct (Economy.balance_or_zero (Economy.select g u rows) <? amount) eqn:Elt; simpl;
      [discriminate|].
    intros _. apply Z.eqb_neq in Eself. apply Z.ltb_ge in Elt.
    unfold Economy._save_econ.
    set (r1 := Economy.mkRow g u _ _ _).
    set (r2 := Economy.mkRow g member _ _ _).
    assert (H21 : forall t, Economy.select g u (Economy.replace_into r2 t)
                            = Economy.select g u t).
    { intros t. apply EconomyLemmas.select_replaced_other.
      apply (EconomyLemmas.has_key_other_user (g := g) (u := member)); auto. }
    assert (Hu : Economy.select g u (Economy.replace_into r2 (Economy.replace_into r1 rows))
                 = Some r1).
    { rewrite H21. apply (EconomyLemmas.select_replaced r1). }
    assert (Hm : Economy.select g member
                   (Economy.replace_into r2 (Economy.replace_into r1 rows)) = Some r2)
      by apply (EconomyLemmas.select_replaced r2).
    assert (Hx : forall g' x,
               Economy.has_key g' x r1 = false -> Economy.has_key g' x r2 = false ->
               Economy.select g' x (Economy.replace_into r2 (Economy.replace_into r1 rows))
               = Economy.select g' x rows).
    { intros g' x H1 H2.
      rewrite EconomyLemmas.select_replaced_other by exact H2.
      apply EconomyLemmas.select_replaced_other, H1. }
    assert (Hcases : forall x, x = u \/ x = member \/ (x <> u /\ x <> member)) by (intros; lia).
    assert (Hkey : forall g' x r, (g', x) <> (Economy.e_guild r, Economy.e_user r) ->
               Economy.has_key g' x r = false).
    { intros g' x r Hne. destruct (Economy.has_key g' x r) eqn:E; [|reflexivity].
      apply EconomyLemmas.has_key_eq in E as [E1 E2]. exfalso. apply Hne. congruence. }
    split; [exact Eself|]. split; [exact Elt|].
    split; [rewrite Hu; reflexivity|]. split; [rewrite Hm; reflexivity|].
    split; [|split].
    + intros x. destruct (Hcases x) as [-> | [-> | [Hxu Hxm]]].
      * rewrite Hu. subst r1. simpl. reflexivity.
      * rewrite Hm. subst r2. simpl. reflexivity.
      * rewrite Hx; [reflexivity | apply Hkey; simpl; congruence
                     | apply Hkey; simpl; congruence].
    + intros x. destruct (Hcases x) as [-> | [-> | [Hxu Hxm]]].
      * rewrite Hu. reflexivity.
      * rewrite Hm. reflexivity.
      * rewrite Hx; [reflexivity | apply Hkey; simpl; congruence
                     | apply Hkey; simpl; congruence].
    + intros g' x H1 H2. apply Hx; apply Hkey; simpl; assumption.
Qed.

(** X9, with member 7 paying 120 of 300 to member 8, who has 20. *)
Lemma pay_moves_the_amount_witness :
  let rows := [Economy.mkRow 1 7 300 None None; Economy.mkRow 1 8 20 None None] in
  let rows' := snd (Economy.pay 1 7 8 120 rows) in
  Economy.balance_or_zero (Economy.select 1 7 rows') = 180 /\
  Economy.balance_or_zero (Economy.select 1 8 rows') = 140 /\
  Economy.pay 1 7 7 120 rows = (Economy.PaySelf, rows) /\
  Economy.pay 1 8 7 120 rows = (Economy.PayInsufficient, rows).
Proof.
  intros rows rows'.
  destruct (pay_moves_the_amount 1 7 8 120 rows) as [_ [_ H]].
  destruct H as [_ [_ [H1 [H2 _]]]]; [reflexivity|].
  destruct (pay_moves_the_amount 1 7 7 120 rows) as [Hs _].
  destruct (pay_moves_the_amount 1 8 7 120 rows) as [_ [Hi _]].
  split; [exact H1|]. split; [exact H2|]. split.
  - apply Hs. reflexivity.
  - apply Hi; simpl; lia.
Defined.

Section EconomyRuns.

Lemma run_keeps_nonnegative c rows :
  Economy.in_range c ->
  (forall r, In r rows -> 0 <= Economy.e_balance r) ->
  forall r, In r (snd (Economy.run c rows)) -> 0 <= Economy.e_balance r.
Proof.
  intros Hr Hpos.
  assert (Hsel : forall g u, 0 <= Economy.balance_or_zero (Economy.select g u rows)).
  { intros g u. unfold Economy.select.
    destruct (find (Economy.has_key g u) rows) as [x|] eqn:E; simpl; [|lia].
    apply find_some in E as [Hin _]. apply Hpos, Hin. }
  destruct c as [g u today now | g u member amount | lower g u item]; simpl in *.
  - unfold Economy.daily.
    assert (Hsave : forall inv r,
      In r (Economy._save_econ g u
              (Economy.balance_or_zero (Economy.select g u rows) + Economy.DAILY_AMOUNT)
              inv (Some now) rows) -> 0 <= Economy.e_balance r).
    { intros inv r Hin. apply EconomyLemmas.in_replaced in Hin as [-> | Hin].
      - simpl. specialize (Hsel g u). unfold Economy.DAILY_AMOUNT. lia.
      - apply Hpos, Hin. }
    destruct (option_map Economy.date
                (Economy.last_daily_or_none (Economy.select g u rows))) as [d|].
    + destruct (d =? today); simpl; [exact Hpos | apply Hsave].
    + simpl. apply Hsave.
  - unfold Economy.pay.
    destruct (member =? u); simpl; [exact Hpos|].
    destruct (Economy.balance_or_zero (Economy.select g u rows) <? amount) eqn:Elt; simpl;
      [exact Hpos|].
    apply Z.ltb_ge in Elt. intros r Hin.
    apply EconomyLemmas.in_replaced in Hin as [-> | Hin].
    + simpl. specialize (Hsel g member). lia.
    + apply EconomyLemmas.in_replaced in Hin as [-> | Hin].
      * simpl. lia.
      * apply Hpos, Hin.
  - unfold Economy.buy.
    destruct (Economy.price (lower item) Economy.SHOP_ITEMS) as [cost|]; simpl;
      [|exact Hpos].
    destruct (Economy.balance_or_zero (Economy.select g u rows) <? cost) eqn:Elt; simpl;
      [exact Hpos|].
    apply Z.ltb_ge in Elt. intros r Hin.
    apply EconomyLemmas.in_replaced in Hin as [-> | Hin].
    + simpl. lia.
    + apply Hpos, Hin.
Qed.

End EconomyRuns.

(** X10. Nobody is ever in debt.  Starting from an empty [economy]
    table, after any sequence of [/daily], [/pay] and [/buy] commands
    whose pay amounts are within the range Discord enforces (1 to
    10,000,000), every balance in the table is at least 0. *)
Theorem no_negative_balance :
  forall cs,
    Forall Economy.in_range cs ->
    forall r, In r (Economy.run_all cs []) -> 0 <= Economy.e_balance r.
Proof.
  intros cs Hcs.
  assert (H : forall rows,
             (forall r, In r rows -> 0 <= Economy.e_balance r) ->
             forall r, In r (Economy.run_all cs rows) -> 0 <= Economy.e_balance r).
  { induction Hcs as [|c cs Hc _ IH]; intros rows Hpos; simpl; [exact Hpos|].
    apply IH. apply run_keeps_nonnegative; assumption. }
  apply H. intros r [].
Qed.

(** X10, on a run where member 7 collects, buys and pays. *)
Lemma no_negative_balance_witness :
  let cs := [Economy.Daily 1 7 19000 (Economy.mkStamp 19000 0);
             Economy.Pay 1 7 8 100;
             Economy.Pay 1 8 7 500;
             Economy.Daily 1 7 19001 (Economy.mkStamp 19001 0);
             Economy.Buy (fun s => s) 1 7 "crate"] in
  0 <= Economy.e_balance (Economy.mkRow 1 8 100 None (Some [])) /\
  In (Economy.mkRow 1 8 100 None (Some [])) (Economy.run_all cs []).
Proof.
  intros cs.
  assert (Hin : In (Economy.mkRow 1 8 100 None (Some [])) (Economy.run_all cs []))
    by (simpl; auto).
  split; [|exact Hin].
  apply (no_negative_balance (cs := cs)); [|exact Hin].
  repeat constructor; simpl; lia.
Defined.

(** X11. [/daily] pays once per day.  A member without a row or with a
    NULL [last_daily] is paid, provided the new balance fits the 64-bit
    INTEGER.  Whenever [/daily] answers that it paid, the caller's
    balance has grown by exactly 250 and the inventory is kept; if the
    stored time is of the same day as the day that was checked, every
    further [/daily] of that member on that day is refused and changes
    nothing, while on any other day it pays again as long as the
    balance still fits.  When the new balance does not fit, [/daily]
    on a day not yet collected raises, sends no answer and leaves the
    table as it was. *)
Theorem daily_once_per_day :
  forall g u today now rows,
    let bal t := Economy.balance_or_zero (Economy.select g u t) in
    let last := option_map Economy.date
                  (Economy.last_daily_or_none (Economy.select g u rows)) in
    (last = None -> EconomyChecked.int64 (bal rows + 250) = true ->
       exists rows',
         EconomyChecked.daily g u today now rows
         = EconomyChecked.Answered Economy.DailyCollected rows') /\
    (forall rows',
       EconomyChecked.daily g u today now rows
         = EconomyChecked.Answered Economy.DailyCollected rows' ->
       bal rows' = bal rows + 250 /\
       Economy._get_inv (Economy.select g u rows')
         = Economy._get_inv (Economy.select g u rows) /\
       (Economy.date now = today ->
          forall now', EconomyChecked.daily g u today now' rows'
                       = EconomyChecked.Answered Economy.DailyAlready rows') /\
       (forall day now', day <> Economy.date now ->
          EconomyChecked.int64 (bal rows + 250 + 250) = true ->
          exists rows'',
            EconomyChecked.daily g u day now' rows'
            = EconomyChecked.Answered Economy.DailyCollected rows'')) /\
    (last <> Some today -> EconomyChecked.int64 (bal rows + 250) = false ->
       EconomyChecked.daily g u today now rows = EconomyChecked.Overflowed rows).
Proof.
  intros g u today now rows bal last. subst bal last.
  set (saved := Economy._save_econ g u
                  (Economy.balance_or_zero (Economy.select g u rows) + 250)
                  (Economy._get_inv (Economy.select g u rows)) (Some now) rows).
  assert (Hrun : EconomyChecked.daily g u today now rows
                 = let collect :=
                     if EconomyChecked.int64
                          (Economy.balance_or_zero (Economy.select g u rows) + 250)
                     then EconomyChecked.Answered Economy.DailyCollected saved
                     else EconomyChecked.Overflowed rows in
                   match option_map Economy.date
                           (Economy.last_daily_or_none (Economy.select g u rows)) with
                   | Some d => if d =? today
                               then EconomyChecked.Answered Economy.DailyAlready rows
                               else collect
                   | None => collect
                   end).
  { unfold EconomyChecked.daily, EconomyChecked._save_econ, saved.
    change Economy.DAILY_AMOUNT with 250.
    destruct (EconomyChecked.int64 _); reflexivity. }
  rewrite Hrun. clear Hrun. cbv zeta.
  assert (Hsel : Economy.select g u saved
                 = Some (Economy.mkRow g u
                           (Economy.balance_or_zero (Economy.select g u rows) + 250)
                           (Some now)
                           (Some (Economy._get_inv (Economy.select g u rows)))))
    by apply (EconomyLemmas.select_replaced (Economy.mkRow g u _ _ _)).
  assert (Hpaid : Economy.balance_or_zero (Economy.select g u saved)
                    = Economy.balance_or_zero (Economy.select g u rows) + 250 /\
                  Economy._get_inv (Economy.select g u saved)
                    = Economy._get_inv (Economy.select g u rows) /\
                  (Economy.date now = today ->
                     forall now', EconomyChecked.daily g u today now' saved
                                  = EconomyChecked.Answered Economy.DailyAlready saved) /\
                  (forall day now', day <> Economy.date now ->
                     EconomyChecked.int64
                       (Economy.balance_or_zero (Economy.select g u rows) + 250 + 250) = true ->
                     exists rows'',
                       EconomyChecked.daily g u day now' saved
                       = EconomyChecked.Answered Economy.DailyCollected rows'')).
  { split; [rewrite Hsel; reflexivity|]. split; [rewrite Hsel; reflexivity|]. split.
    - intros Hd now'. unfold EconomyChecked.daily. rewrite Hsel. simpl.
      rewrite Hd, Z.eqb_refl. reflexivity.
    - intros day now' Hne Hfit.
      unfold EconomyChecked.daily, EconomyChecked._save_econ. rewrite Hsel.
      cbn [Economy.last_daily_or_none Economy.e_last_daily option_map
           Economy.balance_or_zero Economy.e_balance].
      assert (E : (Economy.date now =? day) = false) by (apply Z.eqb_neq; congruence).
      rewrite E. change Economy.DAILY_AMOUNT with 250. rewrite Hfit.
      eexists. reflexivity. }
  split; [|split].
  - intros Hl Hfit. rewrite Hl, Hfit. eexists. reflexivity.
  - intros rows'.
    destruct (option_map Economy.date
                (Economy.last_daily_or_none (Economy.select g u rows))) as [d|].
    + destruct (d =? today); cbv iota; [intros H; discriminate H|].
      destruct (EconomyChecked.int64
                  (Economy.balance_or_zero (Economy.select g u rows) + 250));
        cbv iota; intros H; [|discriminate H].
      injection H as <-. exact Hpaid.
    + destruct (EconomyChecked.int64
                  (Economy.balance_or_zero (Economy.select g u rows) + 250));
        cbv iota; intros H; [|discriminate H].
      injection H as <-. exact Hpaid.
  - intros Hl Hfit. rewrite Hfit.
    destruct (option_map Economy.date
                (Economy.last_daily_or_none (Economy.select g u rows))) as [d|];
      [|reflexivity].
    destruct (d =? today) eqn:E; [|reflexivity].
    apply Z.eqb_eq in E. subst d. congruence.
Qed.

(** X11, for a member without a row collecting on day 19000, and for a
    member whose balance is within 250 of the top of the range. *)
Lemma daily_once_per_day_witness :
  let now := Economy.mkStamp 19000 3600 in
  let rows' := Economy._save_econ 1 7 250 [] (Some now) [] in
  let rich := [Economy.mkRow 1 7 (2 ^ 63 - 100) None None] in
  EconomyChecked.daily 1 7 19000 now []
    = EconomyChecked.Answered Economy.DailyCollected rows' /\
  EconomyChecked.daily 1 7 19000 (Economy.mkStamp 19000 7200) rows'
    = EconomyChecked.Answered Economy.DailyAlready rows' /\
  (exists rows'', EconomyChecked.daily 1 7 19001 (Economy.mkStamp 19001 0) rows'
                  = EconomyChecked.Answered Economy.DailyCollected rows'') /\
  EconomyChecked.daily 1 7 19000 now rich = EconomyChecked.Overflowed rich.
Proof.
  intros now rows' rich.
  destruct (daily_once_per_day 1 7 19000 now []) as [_ [H _]].
  destruct (H rows') as [_ [_ [H3 H4]]]; [reflexivity|].
  destruct (daily_once_per_day 1 7 19000 now rich) as [_ [_ Ho]].
  split; [reflexivity|]. split; [apply H3; reflexivity|]. split.
  - apply H4; [simpl; lia | reflexivity].
  - apply Ho; [discriminate | reflexivity].
Defined.

(** X12. What [/buy] does.  It answers that the item was bought only
    for a name that, lowered, is one of the three shop items and at a
    price the balance covers; the price is then positive and taken
    from the balance, the count of that item in the inventory goes up
    by one, the counts of all other items and [last_daily] stay, and
    [/inventory] no longer answers that the inventory is empty.  A name
    not in the shop and a balance below the price are refused with the
    table unchanged. *)
Theorem buy_takes_the_price :
  forall lower g u item rows,
    let rows' := snd (Economy.buy lower g u item rows) in
    let inv t := Economy._get_inv (Economy.select g u t) in
    (Economy.price (lower item) Economy.SHOP_ITEMS = None ->
       Economy.buy lower g u item rows = (Economy.NoSuchItem, rows)) /\
    (forall cost, Economy.price (lower item) Economy.SHOP_ITEMS = Some cost ->
       Economy.balance_or_zero (Economy.select g u rows) < cost ->
       Economy.buy lower g u item rows = (Economy.BuyInsufficient, rows)) /\
    (forall bought cost,
       fst (Economy.buy lower g u item rows) = Economy.Bought bought cost ->
       bought = lower item /\
       In (bought, cost) Economy.SHOP_ITEMS /\ 0 < cost /\
       cost <= Economy.balance_or_zero (Economy.select g u rows) /\
       Economy.balance_or_zero (Economy.select g u rows')
         = Economy.balance_or_zero (Economy.select g u rows) - cost /\
       Economy.dict_get bought (inv rows') = Economy.dict_get bought (inv rows) + 1 /\
       (forall k, k <> bought ->
          Economy.dict_get k (inv rows') = Economy.dict_get k (inv rows)) /\
       Economy.last_daily_or_none (Economy.select g u rows')
         = Economy.last_daily_or_none (Economy.select g u rows) /\
       Economy.inventory g u rows' <> Economy.InventoryEmpty).
Proof.
  intros lower g u item rows rows' inv. subst rows' inv. unfold Economy.buy.
  split; [|split].
  - intros ->. reflexivity.
  - intros cost -> Hlt. apply Z.ltb_lt in Hlt. rewrite Hlt. reflexivity.
  - intros bought cost.
    destruct (Economy.price (lower item) Economy.SHOP_ITEMS) as [c|] eqn:Ep; simpl;
      [|discriminate].
    destruct (Economy.balance_or_zero (Economy.select g u rows) <? c) eqn:Elt; simpl;
      [discriminate|].
    intros H. injection H as <- <-. apply Z.ltb_ge in Elt.
    assert (Hshop : In (lower item, c) Economy.SHOP_ITEMS /\ 0 < c).
    { pose proof (EconomyLemmas.price_in_shop _ _ Ep) as Hin.
      split; [exact Hin | exact (EconomyLemmas.shop_prices_positive Hin)]. }
    destruct Hshop as [Hin Hpos].
    unfold Economy._save_econ.
    rewrite (EconomyLemmas.select_replaced (Economy.mkRow g u _ _ _)). simpl.
    split; [reflexivity|]. split; [exact Hin|]. split; [exact Hpos|].
    split; [exact Elt|]. split; [reflexivity|].
    split; [apply EconomyLemmas.dict_get_set_same|].
    split; [intros k Hk; apply EconomyLemmas.dict_get_set_other, Hk|].
    split; [reflexivity|].
    unfold Economy.inventory.
    rewrite (EconomyLemmas.select_replaced (Economy.mkRow g u _ _ _)). simpl.
    destruct (Economy.dict_set (lower item)
                (Economy.dict_get (lower item) (Economy._get_inv (Economy.select g u rows)) + 1)
                (Economy._get_inv (Economy.select g u rows))) eqn:Ed; [|discriminate].
    exfalso. exact (EconomyLemmas.dict_set_not_empty _ _ _ Ed).
Qed.

(** X12, with member 7 buying a crate from a balance of 500. *)
Lemma buy_takes_the_price_witness :
  let rows := [Economy.mkRow 1 7 500 None None] in
  let rows' := snd (Economy.buy (fun s => s) 1 7 "crate" rows) in
  Economy.balance_or_zero (Economy.select 1 7 rows') = 100 /\
  Economy.dict_get "crate" (Economy._get_inv (Economy.select 1 7 rows')) = 1 /\
  Economy.buy (fun s => s) 1 7 "sword" rows = (Economy.NoSuchItem, rows) /\
  Economy.buy (fun s => s) 1 7 "vip" rows = (Economy.BuyInsufficient, rows).
Proof.
  intros rows rows'.
  destruct (buy_takes_the_price (fun s => s) 1 7 "crate" rows) as [_ [_ H]].
  destruct (H "crate" 400) as [_ [_ [_ [_ [H1 [H2 _]]]]]]; [reflexivity|].
  destruct (buy_takes_the_price (fun s => s) 1 7 "sword" rows) as [Hn _].
  destruct (buy_takes_the_price (fun s => s) 1 7 "vip" rows) as [_ [Hi _]].
  split; [exact H1|]. split; [exact H2|]. split.
  - apply Hn. reflexivity.
  - apply (Hi 1500); [reflexivity | simpl; lia].
Defined.

(* ================================================================== *)
(** ** Further properties: levels *)

Module XpLemmas.
Import Xp.

Lemma xp_has_key_eq g u r : has_key g u r = true <-> x_guild r = g /\ x_user r = u.
Proof. unfold has_key. rewrite andb_true_iff, !Z.eqb_eq. reflexivity. Qed.

Lemma xp_select_replaced r rows :
  select (x_guild r) (x_user r) (replace_into r rows) = Some r.
Proof.
  unfold select, replace_into. rewrite find_app_none.
  - simpl. assert (E : has_key (x_guild r) (x_user r) r = true)
      by (apply xp_has_key_eq; split; reflexivity).
    rewrite E. reflexivity.
  - apply EconomyLemmas.find_filter_none. intros x Hx. rewrite Hx. reflexivity.
Qed.

Lemma xp_select_replaced_other g u r rows :
  (g, u) <> (x_guild r, x_user r) ->
  select g u (replace_into r rows) = select g u rows.
Proof.
  intros Hne.
  assert (Hk : has_key g u r = false).
  { destruct (has_key g u r) eqn:E; [|reflexivity].
    apply xp_has_key_eq in E as [E1 E2]. exfalso. apply Hne. congruence. }
  unfold select, replace_into.
  assert (Hf : find (has_key g u)
                 (filter (fun x => negb (has_key (x_guild r) (x_user r) x)) rows)
               = find (has_key g u) rows).
  { apply EconomyLemmas.find_filter_keeps. intros x Hx. apply negb_true_iff.
    destruct (has_key (x_guild r) (x_user r) x) eqn:E; [|reflexivity].
    apply xp_has_key_eq in Hx as [Hg Hu]. apply xp_has_key_eq in E as [Hg' Hu'].
    exfalso. apply Hne. congruence. }
  destruct (find (has_key g u) rows) as [x|] eqn:E.
  - apply find_app_some. rewrite Hf. reflexivity.
  - rewrite find_app_none by (rewrite Hf; reflexivity). simpl. rewrite Hk. reflexivity.
Qed.

Lemma xp_in_replaced x r rows : In x (replace_into r rows) -> x = r \/ In x rows.
Proof.
  unfold replace_into. intros H. apply in_app_iff in H as [H | [<- | []]].
  - right. apply filter_In in H as [H _]. exact H.
  - left. reflexivity.
Qed.

Lemma step_in_bounds g u now_ts rows :
  (forall r, In r rows -> in_bounds r) ->
  forall r, In r (snd (on_message_xp g u now_ts rows)) -> in_bounds r.
Proof.
  intros Hb. unfold on_message_xp.
  destruct (PrimFloat.leb MSG_XP_COOLDOWN (PrimFloat.sub now_ts (last_or_zero (select g u rows))));
    [|exact Hb].
  assert (Hrow : match select g u rows with
                 | Some r => in_bounds r
                 | None => True
                 end).
  { unfold select. destruct (find (has_key g u) rows) as [r|] eqn:E; [|exact I].
    apply find_some in E as [Hin _]. apply Hb, Hin. }
  set (xp := match select g u rows with Some r => x_xp r | None => 0 end).
  set (level := match select g u rows with Some r => x_level r | None => 0 end).
  assert (Hxl : 0 <= level /\ 0 <= xp < (level + 1) * 100 /\ (5 | xp)).
  { subst xp level. destruct (select g u rows) as [r|].
    - exact Hrow.
    - split; [lia|]. split; [lia|]. exists 0. reflexivity. }
  destruct Hxl as [Hl [Hx [k Hk]]].
  destruct (xp + 5 >=? (level + 1) * 100) eqn:Eup; simpl; intros r Hin;
    apply xp_in_replaced in Hin as [-> | Hin]; try (apply Hb, Hin).
  - apply Z.geb_le in Eup. unfold in_bounds. simpl.
    assert (xp + 5 = (level + 1) * 100) by lia.
    split; [lia|]. split; [lia|]. exists 0. lia.
  - rewrite Z.geb_leb in Eup. apply Z.leb_gt in Eup. unfold in_bounds. simpl.
    split; [lia|]. split; [lia|]. exists (k + 1). lia.
Qed.

Lemma run_in_bounds msgs : forall rows,
  (forall r, In r rows -> in_bounds r) ->
  forall r, In r (run_all msgs rows) -> in_bounds r.
Proof.
  induction msgs as [|[[g u] now_ts] msgs IH]; intros rows Hb; simpl; [exact Hb|].
  apply IH. apply step_in_bounds, Hb.
Qed.

End XpLemmas.

(** X13. XP is counted exactly.  For any message, the block either does
    nothing (the cooldown test failed: table unchanged) or credits
    exactly 5 XP to the author: the total XP that the author's level
    and XP stand for, as [/rank] shows them, grows by 5, whether or not
    the level changes; a level-up raises the level by exactly one and
    announces the new level.  What [/rank] shows for every other member
    is unchanged. *)
Theorem xp_is_counted_exactly :
  forall g u now_ts rows,
    let rows' := snd (Xp.on_message_xp g u now_ts rows) in
    match fst (Xp.on_message_xp g u now_ts rows) with
    | Xp.Cooldown => rows' = rows
    | Xp.Gained up =>
        Xp.lifetime (Xp.rank g u rows') = Xp.lifetime (Xp.rank g u rows) + 5 /\
        match up with
        | Some l => fst (Xp.rank g u rows') = l /\ l = fst (Xp.rank g u rows) + 1
        | None => fst (Xp.rank g u rows') = fst (Xp.rank g u rows)
        end
    end /\
    (forall g' u', (g', u') <> (g, u) -> Xp.rank g' u' rows' = Xp.rank g' u' rows).
Proof.
  intros g u now_ts rows rows'. subst rows'. unfold Xp.on_message_xp.
  destruct (PrimFloat.leb Xp.MSG_XP_COOLDOWN
              (PrimFloat.sub now_ts (Xp.last_or_zero (Xp.select g u rows))));
    [|split; reflexivity].
  set (xp := match Xp.select g u rows with Some r => Xp.x_xp r | None => 0 end).
  set (level := match Xp.select g u rows with Some r => Xp.x_level r | None => 0 end).
  assert (Hrank : Xp.rank g u rows = (level, xp)).
  { unfold Xp.rank. subst xp level. destruct (Xp.select g u rows); reflexivity. }
  destruct (xp + 5 >=? (level + 1) * 100); simpl.
  - split.
    + unfold Xp.rank at 1 3.
      rewrite (XpLemmas.xp_select_replaced (Xp.mkRow g u _ _ _)), Hrank.
      unfold Xp.lifetime. cbv beta iota. cbn [Xp.x_level Xp.x_xp fst snd].
      split; [ring|]. split; reflexivity.
    + intros g' u' Hne. unfold Xp.rank.
      rewrite XpLemmas.xp_select_replaced_other by exact Hne. reflexivity.
  - split.
    + unfold Xp.rank at 1 3.
      rewrite (XpLemmas.xp_select_replaced (Xp.mkRow g u _ _ _)), Hrank.
      unfold Xp.lifetime. cbv beta iota. cbn [Xp.x_level Xp.x_xp fst snd].
      split; [ring | reflexivity].
    + intros g' u' Hne. unfold Xp.rank.
      rewrite XpLemmas.xp_select_replaced_other by exact Hne. reflexivity.
Qed.

(** X14. Levels stay in step with XP.  Starting from an empty table,
    after any sequence of messages every row has a level of at least 0
    and an XP count that is a multiple of 5, at least 0 and below the
    (level + 1) * 100 needed for the next level; and whenever a further
    message brings a level-up, the author's XP is 0 afterwards. *)
Theorem levels_stay_in_step :
  forall msgs,
    let rows := Xp.run_all msgs [] in
    (forall r, In r rows ->
       0 <= Xp.x_level r /\ 0 <= Xp.x_xp r < (Xp.x_level r + 1) * 100 /\ (5 | Xp.x_xp r)) /\
    (forall g u now_ts l,
       fst (Xp.on_message_xp g u now_ts rows) = Xp.Gained (Some l) ->
       Xp.rank g u (snd (Xp.on_message_xp g u now_ts rows)) = (l, 0)).
Proof.
  intros msgs rows.
  assert (Hb : forall r, In r rows -> Xp.in_bounds r)
    by (apply XpLemmas.run_in_bounds; intros r []).
  split; [exact Hb|].
  intros g u now_ts l. unfold Xp.on_message_xp.
  destruct (PrimFloat.leb Xp.MSG_XP_COOLDOWN
              (PrimFloat.sub now_ts (Xp.last_or_zero (Xp.select g u rows))));
    [|discriminate].
  assert (Hrow : match Xp.select g u rows with
                 | Some r => Xp.in_bounds r
                 | None => True
                 end).
  { unfold Xp.select. destruct (find (Xp.has_key g u) rows) as [r|] eqn:E; [|exact I].
    apply find_some in E as [Hin _]. apply Hb, Hin. }
  set (xp := match Xp.select g u rows with Some r => Xp.x_xp r | None => 0 end).
  set (level := match Xp.select g u rows with Some r => Xp.x_level r | None => 0 end).
  assert (Hxl : 0 <= xp < (level + 1) * 100 /\ (5 | xp)).
  { subst xp level. destruct (Xp.select g u rows) as [r|].
    - destruct Hrow as [_ H]. exact H.
    - split; [lia | exists 0; reflexivity]. }
  destruct Hxl as [Hx [k Hk]].
  destruct (xp + 5 >=? (level + 1) * 100) eqn:Eup; simpl; [|discriminate].
  intros H. injection H as <-. apply Z.geb_le in Eup.
  unfold Xp.rank. rewrite (XpLemmas.xp_select_replaced (Xp.mkRow g u _ _ _)). simpl.
  f_equal. lia.
Qed.

(** X14, on twenty messages of one member, ten seconds apart: the last
    one brings level 1. *)
Lemma levels_stay_in_step_witness :
  let msgs := map (fun t => (1, 7, t))
                  [10%float; 20%float; 30%float; 40%float; 50%float; 60%float; 70%float;
                   80%float; 90%float; 100%float; 110%float; 120%float; 130%float;
                   140%float; 150%float; 160%float; 170%float; 180%float; 190%float] in
  Xp.rank 1 7 (Xp.run_all msgs []) = (0, 95) /\
  Xp.rank 1 7 (snd (Xp.on_message_xp 1 7 200%float (Xp.run_all msgs []))) = (1, 0).
Proof.
  intros msgs. split; [reflexivity|].
  destruct (levels_stay_in_step msgs) as [_ H].
  apply H. reflexivity.
Defined.

(** X13, for member 7 of guild 1 writing a first message while member 8
    has a row. *)
Lemma xp_is_counted_exactly_witness :
  let rows := [Xp.mkRow 1 8 40 2 (Some 100%float)] in
  let rows' := snd (Xp.on_message_xp 1 7 500%float rows) in
  Xp.rank 1 7 rows' = (0, 5) /\ Xp.rank 1 8 rows' = Xp.rank 1 8 rows.
Proof.
  intros rows rows'.
  destruct (xp_is_counted_exactly 1 7 500%float rows) as [_ H].
  split; [reflexivity|]. apply H. intros E. injection E as E. lia.
Defined.

(* ================================================================== *)
(** ** Further properties: role menu, poll, warnings *)

Module RoleMenuLemmas.
Import RoleMenu.

Lemma holds_in r roles : holds r roles = true <-> In r roles.
Proof.
  unfold holds. rewrite existsb_exists. split.
  - intros [x [Hin Hx]]. apply Z.eqb_eq in Hx. subst. exact Hin.
  - intros H. exists r. split; [exact H | apply Z.eqb_refl].
Qed.

Lemma holds_remove r x roles :
  holds r (remove_roles x roles) = holds r roles && negb (r =? x).
Proof.
  unfold holds, remove_roles. induction roles as [|y roles IH]; simpl; [reflexivity|].
  destruct (y =? x) eqn:Eyx; simpl.
  - rewrite IH. apply Z.eqb_eq in Eyx. subst y.
    destruct (r =? x); simpl; [rewrite andb_false_r; reflexivity | reflexivity].
  - rewrite IH. destruct (r =? y) eqn:Ery; simpl; [|reflexivity].
    apply Z.eqb_eq in Ery. subst y. rewrite Eyx. reflexivity.
Qed.

Lemma holds_app r a b : holds r (a ++ b) = holds r a || holds r b.
Proof. unfold holds. apply existsb_app. Qed.

Lemma holds_add r x roles :
  holds r (add_roles x roles) = holds r roles || (r =? x).
Proof.
  unfold add_roles. destruct (holds x roles) eqn:E.
  - destruct (r =? x) eqn:Erx; [|rewrite orb_false_r; reflexivity].
    apply Z.eqb_eq in Erx. subst. rewrite E. reflexivity.
  - rewrite holds_app. unfold holds at 2. simpl. rewrite orb_false_r. reflexivity.
Qed.

Lemma holds_nodup r values : holds r (nodup Z.eq_dec values) = holds r values.
Proof.
  apply eq_true_iff_eq. rewrite !holds_in. apply nodup_In.
Qed.

Lemma after_removals guild_roles (can_manage : Z -> bool) member_roles r opts :
  forall roles,
  holds r (fold_left
             (fun (roles : list Z) (rid : Z) =>
                if holds rid guild_roles && holds rid member_roles
                then (if can_manage rid then remove_roles rid roles else roles)
                else roles) opts roles)
  = holds r roles
    && negb (holds r opts && holds r guild_roles && holds r member_roles && can_manage r).
Proof.
  induction opts as [|x opts IH]; intros roles; simpl.
  - rewrite andb_true_r. reflexivity.
  - rewrite IH. clear IH.
    destruct (r =? x) eqn:Erx.
    + apply Z.eqb_eq in Erx. subst x. simpl.
      destruct (holds r guild_roles), (holds r member_roles), (can_manage r); simpl;
        rewrite ?holds_remove, ?Z.eqb_refl, ?andb_false_r, ?andb_true_r; simpl;
        try reflexivity;
        destruct (holds r roles), (holds r opts); reflexivity.
    + simpl.
      assert (Hsame : holds r
                (if holds x guild_roles && holds x member_roles
                 then if can_manage x then remove_roles x roles else roles
                 else roles) = holds r roles).
      { destruct (holds x guild_roles && holds x member_roles); [|reflexivity].
        destruct (can_manage x); [|reflexivity].
        rewrite holds_remove, Erx. apply andb_true_r. }
      rewrite Hsame. reflexivity.
Qed.

Lemma after_additions guild_roles (can_manage : Z -> bool) r chosen : forall roles,
  holds r (fold_left
             (fun (roles : list Z) (rid : Z) =>
                if holds rid guild_roles
                then (if can_manage rid then add_roles rid roles else roles)
                else roles) chosen roles)
  = holds r roles || (holds r chosen && holds r guild_roles && can_manage r).
Proof.
  induction chosen as [|x chosen IH]; intros roles; simpl.
  - rewrite orb_false_r. reflexivity.
  - rewrite IH. clear IH.
    destruct (r =? x) eqn:Erx.
    + apply Z.eqb_eq in Erx. subst x. simpl.
      destruct (holds r guild_roles), (can_manage r); simpl;
        rewrite ?holds_add, ?Z.eqb_refl, ?andb_false_r, ?andb_true_r, ?orb_false_r,
          ?orb_true_r; simpl; try reflexivity;
        destruct (holds r roles), (holds r chosen); reflexivity.
    + simpl.
      assert (Hsame : holds r
                (if holds x guild_roles
                 then if can_manage x then add_roles x roles else roles
                 else roles) = holds r roles).
      { destruct (holds x guild_roles); [|reflexivity].
        destruct (can_manage x); [|reflexivity].
        rewrite holds_add, Erx. apply orb_false_r. }
      rewrite Hsame. reflexivity.
Qed.

End RoleMenuLemmas.

(** X15. The role menu syncs the menu's roles with the selection and
    touches nothing else.  After the callback, a role that exists in
    the guild and that the bot may change is held by the member exactly
    when it was selected, or was held before and is not an option of
    the menu; a role that does not exist or that the bot may not change
    is held exactly when it was held before.  In particular an
    unselected option is taken away and a role outside the menu is
    kept. *)
Theorem role_menu_syncs_selection :
  forall guild_roles can_manage options values member_roles r,
    let after := RoleMenu.callback guild_roles can_manage options values member_roles in
    RoleMenu.holds r after
    = if RoleMenu.holds r guild_roles && can_manage r
      then RoleMenu.holds r values
           || (RoleMenu.holds r member_roles && negb (RoleMenu.holds r options))
      else RoleMenu.holds r member_roles.
Proof.
  intros guild_roles can_manage options values member_roles r after. subst after.
  unfold RoleMenu.callback.
  rewrite RoleMenuLemmas.after_additions, RoleMenuLemmas.after_removals,
    RoleMenuLemmas.holds_nodup.
  destruct (RoleMenu.holds r guild_roles), (can_manage r),
    (RoleMenu.holds r values), (RoleMenu.holds r member_roles),
    (RoleMenu.holds r options); reflexivity.
Qed.

Module PollLemmas.
Import Poll.

Lemma given_at_most ops : (List.length (given ops) <= List.length ops)%nat.
Proof.
  induction ops as [|o ops IH]; simpl; [lia|].
  rewrite length_app.
  destruct o as [s|]; [destruct (String.eqb s "")|]; simpl; lia.
Qed.

Lemma numbered_within opts : forall i,
  (i + List.length opts <= 5)%nat ->
  exists lines, numbered i opts = Some lines /\ List.length lines = List.length opts.
Proof.
  induction opts as [|opt opts IH]; intros i Hi; simpl in *.
  - exists []. split; reflexivity.
  - destruct (IH (S i)) as [lines [Hl Hlen]]; [lia|].
    rewrite Hl.
    destruct (nth_error emojis i) as [e|] eqn:E.
    + eexists. split; [reflexivity|]. simpl. rewrite Hlen. reflexivity.
    + exfalso. apply nth_error_None in E. simpl in E. lia.
Qed.

Lemma reactions_within n : forall i,
  (i + n <= 5)%nat ->
  reactions i n = Some (firstn n (skipn i emojis)).
Proof.
  induction n as [|n IH]; intros i Hi; simpl; [reflexivity|].
  rewrite (IH (S i)) by lia.
  do 5 (destruct i as [|i]; [reflexivity|]). lia.
Qed.

End PollLemmas.

(** X16. [/poll] never runs out of emojis.  Whatever the five arguments
    are, there are between 2 and 5 options, the first two arguments
    followed by those of the last three that are given and not empty,
    in order; every [emojis[i]] lookup succeeds; the description has
    one line per option and the reactions are the first so many
    keycap digits. *)
Theorem poll_stays_within_five :
  forall op1 op2 op3 op4 op5,
    let opts := Poll.options op1 op2 op3 op4 op5 in
    (2 <= List.length opts <= 5)%nat /\
    firstn 2 opts = [op1; op2] /\
    exists lines,
      Poll.poll op1 op2 op3 op4 op5
        = Some (lines, firstn (List.length opts) Poll.emojis) /\
      List.length lines = List.length opts.
Proof.
  intros op1 op2 op3 op4 op5 opts. subst opts.
  assert (Hlen : (2 <= List.length (Poll.options op1 op2 op3 op4 op5) <= 5)%nat).
  { unfold Poll.options. simpl.
    pose proof (PollLemmas.given_at_most [op3; op4; op5]) as H. simpl in H. lia. }
  split; [exact Hlen|]. split; [reflexivity|].
  unfold Poll.poll.
  destruct (PollLemmas.numbered_within (Poll.options op1 op2 op3 op4 op5) 0)
    as [lines [Hl Hn]]; [lia|].
  rewrite Hl, (PollLemmas.reactions_within _ 0) by lia.
  exists lines. split; [reflexivity | exact Hn].
Qed.

Module WarnsLemmas.
Import Warns.

Lemma of_member_eq g u r : of_member g u r = true <-> w_guild r = g /\ w_user r = u.
Proof. unfold of_member. rewrite andb_true_iff, !Z.eqb_eq. reflexivity. Qed.

Lemma selected_after_clear_other g u g' u' rows :
  (g', u') <> (g, u) ->
  selected g' u' (clearwarns g u rows) = selected g' u' rows.
Proof.
  intros Hne. unfold selected, clearwarns.
  induction rows as [|r rows IH]; simpl; [reflexivity|].
  destruct (of_member g u r) eqn:E; simpl.
  - destruct (of_member g' u' r) eqn:E'; [|exact IH].
    apply of_member_eq in E as [E1 E2]. apply of_member_eq in E' as [E1' E2'].
    exfalso. apply Hne. congruence.
  - rewrite IH. reflexivity.
Qed.

Lemma selected_after_clear g u rows : selected g u (clearwarns g u rows) = [].
Proof.
  unfold selected, clearwarns.
  induction rows as [|r rows IH]; simpl; [reflexivity|].
  destruct (of_member g u r) eqn:E; simpl; [exact IH|]. rewrite E. exact IH.
Qed.

End WarnsLemmas.

(** X17. Warnings are kept per member and guild.  [/warn] adds exactly
    one line to what [/warnings] prints for that member in that guild;
    [/clearwarns] leaves that member without any warning there, so
    that [/warnings] answers that there are none; and neither changes
    the warnings selected for any other member or guild, the same
    member in another guild included. *)
Theorem warnings_are_per_member :
  forall g u moderator reason now rows,
    Warns.warnings_count g u (Warns.warn g u moderator reason now rows)
      = S (Warns.warnings_count g u rows) /\
    Warns.warnings_count g u (Warns.clearwarns g u rows) = O /\
    (forall g' u', (g', u') <> (g, u) ->
       Warns.selected g' u' (Warns.warn g u moderator reason now rows)
         = Warns.selected g' u' rows /\
       Warns.selected g' u' (Warns.clearwarns g u rows) = Warns.selected g' u' rows).
Proof.
  intros g u moderator reason now rows. split; [|split].
  - unfold Warns.warnings_count, Warns.selected, Warns.warn.
    rewrite filter_app, length_app. simpl.
    assert (E : Warns.of_member g u (Warns.mkRow g u moderator reason now) = true)
      by (apply WarnsLemmas.of_member_eq; split; reflexivity).
    rewrite E. simpl. lia.
  - unfold Warns.warnings_count. rewrite WarnsLemmas.selected_after_clear. reflexivity.
  - intros g' u' Hne. split.
    + unfold Warns.selected, Warns.warn. rewrite filter_app. simpl.
      destruct (Warns.of_member g' u' (Warns.mkRow g u moderator reason now)) eqn:E.
      * apply WarnsLemmas.of_member_eq in E as [E1 E2]. simpl in *.
        exfalso. apply Hne. congruence.
      * apply app_nil_r.
    + apply WarnsLemmas.selected_after_clear_other, Hne.
Qed.

(** X17, with two members warned in guild 1 and one of them cleared. *)
Lemma warnings_are_per_member_witness :
  let rows := [Warns.mkRow 1 7 9 "spam" "2024-11-03T09:00:00";
               Warns.mkRow 1 8 9 "flood" "2024-11-03T09:05:00"] in
  Warns.selected 1 8 (Warns.clearwarns 1 7 rows) = Warns.selected 1 8 rows /\
  Warns.warnings_count 1 7 (Warns.clearwarns 1 7 rows) = O.
Proof.
  intros rows.
  destruct (warnings_are_per_member 1 7 9 "x" "t" rows) as [_ [H2 H3]].
  split; [|exact H2].
  apply (H3 1 8). intros E. injection E as E. lia.
Defined.

(* ================================================================== *)
(** ** Further properties: two presses in flight *)

Section Racing.

Lemma open_ticket_checks_pass inter env w cat :
  me_manage_channels env && me_manage_roles env = true ->
  truthy (ticket_cat (i_guild inter) w) = true ->
  as_category (category_of (i_guild inter) w) = Some cat ->
  Db.select_open_by_user (i_guild inter) (i_user inter) (tickets w) = None ->
  open_ticket_checks inter env w = (Ok (inr cat), logged w [Defer]).
Proof.
  intros Hp Ht Hc Hs.
  unfold open_ticket_checks, category_of, ticket_cat, cfg_get_ticket_cat in *.
  step_monad. rewrite Hp. simpl.
  destruct (Db.select_config (i_guild inter) (guild_config w)) as [c|];
    [|discriminate].
  rewrite Ht. simpl.
  destruct (ticket_category_id c) as [cid|]; [|discriminate].
  rewrite Hc. simpl. rewrite Hs. reflexivity.
Qed.

Lemma open_ticket_provision_run inter env cat w :
  create_ok env = true -> send_ok env = true ->
  open_ticket_provision inter env cat w =
  (Ok (TicketCreated (next_id w)),
   mkWorld (Db.insert_ticket (i_guild inter) (i_user inter) (next_id w) (utcnow env)
                             (tickets w))
           (guild_config w)
           (channels w ++ [mkChannel (i_guild inter) (next_id w) TextChannel
                             ("ticket-" ++ i_user_name inter)%string])
           (next_id w + 1)
           (trace w ++ [CreateTextChannel (i_guild inter) (next_id w)
                          ("ticket-" ++ i_user_name inter)%string (chan_id cat);
                        InsertCommitted (mkTicket (i_guild inter) (i_user inter) (next_id w)
                                                  true (utcnow env));
                        WelcomeSent (next_id w);
                        Followup (TicketCreated (next_id w))])).
Proof.
  intros Hc Hs. unfold open_ticket_provision. step_monad.
  rewrite Hc, Hs. simpl. tidy_trace. reflexivity.
Qed.

End Racing.

(** X18. The duplicate check does not cover two presses in flight.
    When two presses of one member who has no open ticket both pass
    the checks of [open_ticket] before either has inserted its row
    (the handler gives way at [await guild.create_text_channel]), both
    go on: two channels are created, two rows inserted, and the member
    has two open tickets; run one after the other, the second press
    would have been answered with a reference to the first ticket. *)
Theorem two_presses_in_flight_open_two_tickets :
  forall inter e1 e2 w cat,
    me_manage_channels e1 && me_manage_roles e1 = true ->
    me_manage_channels e2 && me_manage_roles e2 = true ->
    truthy (ticket_cat (i_guild inter) w) = true ->
    as_category (category_of (i_guild inter) w) = Some cat ->
    Db.select_open_by_user (i_guild inter) (i_user inter) (tickets w) = None ->
    create_ok e1 = true -> send_ok e1 = true ->
    create_ok e2 = true -> send_ok e2 = true ->
    let g := i_guild inter in
    let u := i_user inter in
    let raced := exec (racing_opens inter e1 inter e2) w in
    let in_turn := exec (open_ticket inter e1) w in
    result (racing_opens inter e1 inter e2) w
      = Ok (TicketCreated (next_id w), TicketCreated (next_id w + 1)) /\
    tickets raced = tickets w ++ [mkTicket g u (next_id w) true (utcnow e1);
                                  mkTicket g u (next_id w + 1) true (utcnow e2)] /\
    List.length (filter (Db.open_for_user g u) (tickets raced)) = 2%nat /\
    result (open_ticket inter e2) in_turn = Ok (DuplicateTicket (Some (next_id w))) /\
    List.length (filter (Db.open_for_user g u)
                        (tickets (exec (open_ticket inter e2) in_turn))) = 1%nat.
Proof.
  intros inter e1 e2 w cat Hp1 Hp2 Ht Hc Hs Hc1 Hs1 Hc2 Hs2 g u raced in_turn.
  subst g u raced in_turn.
  assert (Hopen : forall id now,
            Db.open_for_user (i_guild inter) (i_user inter)
              (mkTicket (i_guild inter) (i_user inter) id true now) = true)
    by (intros; unfold Db.open_for_user; simpl; rewrite !Z.eqb_refl; reflexivity).
  assert (Hnone : filter (Db.open_for_user (i_guild inter) (i_user inter)) (tickets w) = [])
    by (apply find_none_filter, Hs).
  assert (Hrace : exists w',
             racing_opens inter e1 inter e2 w
             = (Ok (TicketCreated (next_id w), TicketCreated (next_id w + 1)), w') /\
             tickets w'
             = tickets w ++ [mkTicket (i_guild inter) (i_user inter) (next_id w) true
                                      (utcnow e1);
                             mkTicket (i_guild inter) (i_user inter) (next_id w + 1) true
                                      (utcnow e2)]).
  { unfold racing_opens. unfold bind at 1.
    rewrite (open_ticket_checks_pass inter e1 w Hp1 Ht Hc Hs).
    unfold bind at 1.
    rewrite (open_ticket_checks_pass inter e2 (logged w [Defer]) (cat := cat))
      by assumption.
    unfold bind at 1. rewrite open_ticket_provision_run by assumption.
    unfold bind at 1. rewrite open_ticket_provision_run by assumption.
    unfold ret, Db.insert_ticket. simpl. eexists. split; [reflexivity|].
    simpl. rewrite <- app_assoc. reflexivity. }
  destruct Hrace as [w' [Hres Htab]].
  unfold result, exec. rewrite Hres. simpl.
  split; [reflexivity|]. split; [exact Htab|]. split.
  { rewrite Htab, filter_app, Hnone. simpl. rewrite !Hopen. reflexivity. }
  clear Hres Htab w'.
  assert (Hfirst : open_ticket inter e1 w
                   = (Ok (TicketCreated (next_id w)), snd (open_ticket inter e1 w)) /\
                   tickets (snd (open_ticket inter e1 w))
                   = tickets w ++ [mkTicket (i_guild inter) (i_user inter) (next_id w) true
                                            (utcnow e1)] /\
                   guild_config (snd (open_ticket inter e1 w)) = guild_config w /\
                   channels (snd (open_ticket inter e1 w))
                   = channels w ++ [mkChannel (i_guild inter) (next_id w) TextChannel
                                      ("ticket-" ++ i_user_name inter)%string]).
  { rewrite open_ticket_run. cbv zeta. rewrite Hp1, Ht. simpl.
    rewrite Hc, Hs, Hc1, Hs1. simpl. repeat split. }
  destruct Hfirst as [_ [Ht1 [Hg1 Hch1]]].
  set (w1 := snd (open_ticket inter e1 w)) in *.
  assert (Hsel : Db.select_open_by_user (i_guild inter) (i_user inter) (tickets w1)
                 = Some (mkTicket (i_guild inter) (i_user inter) (next_id w) true (utcnow e1))).
  { rewrite Ht1. unfold Db.select_open_by_user in *.
    rewrite (find_app_none _ _ _ Hs). simpl. rewrite Hopen. reflexivity. }
  assert (Hcat1 : ticket_cat (i_guild inter) w1 = ticket_cat (i_guild inter) w)
    by (unfold ticket_cat; rewrite Hg1; reflexivity).
  assert (Hlook : forall id c, lookup_channel (i_guild inter) id (channels w) = Some c ->
                    lookup_channel (i_guild inter) id (channels w1) = Some c).
  { intros id c H. rewrite Hch1. unfold lookup_channel in *. apply find_app_some, H. }
  assert (Hc' : as_category (category_of (i_guild inter) w1) = Some cat).
  { unfold category_of in *. rewrite Hcat1.
    destruct (ticket_cat (i_guild inter) w) as [cid|]; [|discriminate].
    destruct (lookup_channel (i_guild inter) cid (channels w)) as [c|] eqn:El;
      [|discriminate].
    rewrite (Hlook cid c El). exact Hc. }
  assert (Hnew : lookup_channel (i_guild inter) (next_id w) (channels w1)
                 = Some (mkChannel (i_guild inter) (next_id w) TextChannel
                           ("ticket-" ++ i_user_name inter)%string)
                 \/ exists c, lookup_channel (i_guild inter) (next_id w) (channels w) = Some c).
  { destruct (lookup_channel (i_guild inter) (next_id w) (channels w)) as [c|] eqn:El.
    - right. exists c. reflexivity.
    - left. rewrite Hch1. unfold lookup_channel in *.
      rewrite (find_app_none _ _ _ El). simpl. rewrite !Z.eqb_refl. reflexivity. }
  assert (Hdup : open_ticket inter e2 w1
                 = (Ok (DuplicateTicket (Some (next_id w))),
                    logged w1 [Defer; Followup (DuplicateTicket (Some (next_id w)))])).
  { rewrite open_ticket_run. cbv zeta. rewrite Hp2, Hcat1, Ht. simpl.
    rewrite Hc', Hsel. simpl.
    assert (Href : option_map chan_id
                     (lookup_channel (i_guild inter) (next_id w) (channels w1))
                   = Some (next_id w)).
    { destruct Hnew as [-> | [c Hcw]]; [reflexivity|].
      rewrite (Hlook _ _ Hcw). simpl.
      apply lookup_channel_id in Hcw as [_ ->]. reflexivity. }
    rewrite Href. reflexivity. }
  fold w1. rewrite Hdup. simpl. split; [reflexivity|].
  rewrite Ht1, filter_app, Hnone. simpl. rewrite Hopen. reflexivity.
Qed.

(** X18, with Alice pressing twice in the configured guild. *)
Lemma two_presses_in_flight_open_two_tickets_witness :
  let raced := exec (racing_opens (Sample.alice 10) Sample.all_fine
                                  (Sample.alice 10) Sample.all_fine) Sample.configured in
  tickets raced = [mkTicket 1 7 100 true "2024-11-03T09:00:00";
                   mkTicket 1 7 101 true "2024-11-03T09:00:00"] /\
  List.length (filter (Db.open_for_user 1 7) (tickets raced)) = 2%nat.
Proof.
  intros raced.
  destruct (@two_presses_in_flight_open_two_tickets
              (Sample.alice 10) Sample.all_fine Sample.all_fine Sample.configured
              (mkChannel 1 50 CategoryChannel "TICKETS"))
    as [_ [H2 [H3 _]]]; try reflexivity.
  split; [exact H2 | exact H3].
Defined.
